(** * Mega Miner: the player state machine, the tile store, the building
      handler and the save handler, embedded from the JavaScript sources.

    Numbers.  A JavaScript number is modelled by an exact rational [Q] when it
    carries pixels, speeds, fuel, money or a random draw, and by [Z] when the
    source only ever stores an integer in it (grid units, the charge counter).
    Sums, products and comparisons are taken exactly.  The one computation
    whose outcome turns on the rounding of IEEE doubles, the depth that
    [outOfFuel] charges for, is carried out in doubles ([JS.double] and the
    operations after it, over the Standard Library's [SpecFloat]).

    Not modelled: the createjs display list (sprites, containers, caches),
    the DOM (text of the HUD, the overlay's elements) and console output.
    What the source keeps of the DOM that matters to control flow, whether
    the overlay [building-ui-overlay] exists and which items it shows, is a
    field of the building handler below. *)

From Stdlib Require Import ZArith QArith Qround Lia Lqa List Bool.
From Stdlib Require SpecFloat.
From stdpp Require Import gmap strings pretty.

Set Default Proof Using "Type".

Open Scope Q_scope.

(** ** JavaScript helpers *)

Module JS.

(** [v || d] and [if (v)] on a number: [0] is falsy. *)
Definition truthy (q : Q) : bool := negb (Qeq_bool q 0).

(** [field || d] where the field may be absent ([undefined]). *)
Definition orDefault (v : option Q) (d : Q) : Q :=
  match v with
  | Some q => if truthy q then q else d
  | None => d
  end.

(** [Math.round]: the nearest integer, halves towards plus infinity. *)
Definition round (q : Q) : Z := Qfloor (q + (1 # 2)).

(** [Math.ceil]. *)
Definition ceil (q : Q) : Z := Qceiling q.

Definition leb (a b : Q) : bool := Qle_bool a b.
Definition ltb (a b : Q) : bool := negb (Qle_bool b a).
Definition eqb (a b : Q) : bool := Qeq_bool a b.

(** *** IEEE doubles

    Binary64: 53 bits of precision, round to nearest with ties to even. *)
Definition prec : Z := 53.
Definition emax : Z := 1024.

(** The double of a number the model carries as a rational: numerator by
    denominator in the doubles' division.  A value a double holds exactly
    comes out as that double. *)
Definition double (q : Q) : SpecFloat.spec_float :=
  match Qnum q with
  | Z0 => SpecFloat.S754_zero false
  | Zpos n =>
      SpecFloat.SFdiv prec emax (SpecFloat.S754_finite false n 0)
        (SpecFloat.S754_finite false (Qden q) 0)
  | Zneg n =>
      SpecFloat.SFdiv prec emax (SpecFloat.S754_finite true n 0)
        (SpecFloat.S754_finite false (Qden q) 0)
  end.

(** [a / b], [a - b] and [a * b] on doubles. *)
Definition fdiv : SpecFloat.spec_float -> SpecFloat.spec_float -> SpecFloat.spec_float :=
  SpecFloat.SFdiv prec emax.
Definition fsub : SpecFloat.spec_float -> SpecFloat.spec_float -> SpecFloat.spec_float :=
  SpecFloat.SFsub prec emax.
Definition fmul : SpecFloat.spec_float -> SpecFloat.spec_float -> SpecFloat.spec_float :=
  SpecFloat.SFmul prec emax.

(** [Math.round] on a double: the nearest integer, halves towards plus
    infinity, taken exactly; [None] for NaN and the infinities, which
    [Math.round] hands back as they are. *)
Definition mathRound (x : SpecFloat.spec_float) : option Z :=
  match x with
  | SpecFloat.S754_zero _ => Some 0%Z
  | SpecFloat.S754_finite s m e =>
      let v := if s then Zneg m else Zpos m in
      Some (match e with
            | Zneg k => (2 * v + 2 ^ Zpos k) / 2 ^ (Zpos k + 1)
            | _ => v * 2 ^ e
            end)%Z
  | _ => None
  end.

(** *** Plain objects used as maps

    An object literal [{}] filled by [o[k] = v] is an association list of
    its own properties in the order they were created. *)

(** The properties a plain object inherits from [Object.prototype]: [o[k]]
    finds them, and each of them is truthy. *)
Definition inherited (k : string) : bool :=
  existsb (String.eqb k)
    [ "constructor"; "hasOwnProperty"; "isPrototypeOf"; "propertyIsEnumerable";
      "toLocaleString"; "toString"; "valueOf"; "__proto__";
      "__defineGetter__"; "__defineSetter__";
      "__lookupGetter__"; "__lookupSetter__" ]%string.

Fixpoint decimal (s : string) (acc : N) : option N :=
  match s with
  | EmptyString => Some acc
  | String c r =>
      let n := Ascii.N_of_ascii c in
      if ((48 <=? n) && (n <=? 57))%N
      then decimal r (10 * acc + (n - 48))%N
      else None
  end.

(** An array index: the canonical decimal of an integer below [2^32 - 1]. *)
Definition arrayIndex (s : string) : option N :=
  match decimal s 0 with
  | Some n =>
      if ((n <? 4294967295)%N && String.eqb (pretty n) s)%bool
      then Some n else None
  | None => None
  end.

Section Keys.
Context {A : Type}.

Fixpoint place (n : N) (e : string * A) (l : list (N * (string * A)))
    : list (N * (string * A)) :=
  match l with
  | [] => [(n, e)]
  | (n', e') :: r =>
      if (n <? n')%N then (n, e) :: l else (n', e') :: place n e r
  end.

(** The own properties whose key is an array index, by ascending index. *)
Definition indexed (o : list (string * A)) : list (N * (string * A)) :=
  fold_right (fun e acc =>
                match arrayIndex (fst e) with
                | Some n => place n e acc
                | None => acc
                end) [] o.

Definition isName (e : string * A) : bool :=
  match arrayIndex (fst e) with
  | Some _ => false
  | None => true
  end.

(** The order of [Object.keys]: array indices first, ascending, then the
    other keys in the order of their creation. *)
Definition keys (o : list (string * A)) : list (string * A) :=
  List.map snd (indexed o) ++ List.filter isName o.

End Keys.

End JS.

(** ** Grid/Tile.js: a grid coordinate *)

Record Tile := mkTile { gX : Z; gY : Z }.

#[global] Instance Tile_eq_dec : EqDecision Tile.
Proof. solve_decision. Defined.

#[global] Instance Tile_countable : Countable Tile.
Proof.
  refine (inj_countable' (fun t => (gX t, gY t)) (fun p => mkTile p.1 p.2) _).
  intros []; reflexivity.
Defined.

(** ** Map/MapTile.js and Map/Tiles/*.js *)

Module MapTile.

(** [MapTile.Type].  MapTile.js is not part of the sources at hand; the tags
    are the ones the tile classes and the building handler name. *)
Inductive Type_ :=
  | BG_GRASS | GRASS | DIRT | COAL
  | SHOP | SAVE_STATION | SELLING_POST | FUEL_STATION | TELEPORTER.

#[global] Instance Type_eq_dec : EqDecision Type_.
Proof. solve_decision. Defined.

Record Properties := {
  name : string;
  color : string;
  type : Type_;
  thickness : Q;
  value : Q;
  interactable : bool
}.

Record t := { tile : Tile; properties : Properties }.

End MapTile.

Abbreviation MapTile := MapTile.t.

Module Tiles.
Import MapTile.

Definition Shop (pos : Tile) : MapTile :=
  {| tile := pos;
     properties := {| name := "Shop"; color := "#4CAF50"; type := SHOP;
                      thickness := 0; value := 0; interactable := true |} |}.

Definition SaveStation (pos : Tile) : MapTile :=
  {| tile := pos;
     properties := {| name := "Save Station"; color := "#2196F3";
                      type := SAVE_STATION;
                      thickness := 0; value := 0; interactable := true |} |}.

Definition SellingPost (pos : Tile) : MapTile :=
  {| tile := pos;
     properties := {| name := "Selling Post"; color := "#FF9800";
                      type := SELLING_POST;
                      thickness := 0; value := 0; interactable := true |} |}.

Definition FuelStation (pos : Tile) : MapTile :=
  {| tile := pos;
     properties := {| name := "Fuel Station"; color := "#F44336";
                      type := FUEL_STATION;
                      thickness := 0; value := 0; interactable := true |} |}.

Definition Teleporter (pos : Tile) : MapTile :=
  {| tile := pos;
     properties := {| name := "Teleporter"; color := "#9C27B0";
                      type := TELEPORTER;
                      thickness := 0; value := 0; interactable := true |} |}.

(** The terrain classes Grass.js, Dirt.js and Coal.js are not part of the
    sources at hand.  Their [thickness] and [value] are taken as parameters
    ([Terrain]); name and type tag follow the class, and terrain is mineable
    (not [interactable]). *)
Record Terrain := {
  grassThickness : Q; grassValue : Q;
  dirtThickness : Q;  dirtValue : Q;
  coalThickness : Q;  coalValue : Q
}.

Definition Grass (T : Terrain) (pos : Tile) : MapTile :=
  {| tile := pos;
     properties := {| name := "Grass"; color := ""; type := GRASS;
                      thickness := grassThickness T; value := grassValue T;
                      interactable := false |} |}.

Definition Dirt (T : Terrain) (pos : Tile) : MapTile :=
  {| tile := pos;
     properties := {| name := "Dirt"; color := ""; type := DIRT;
                      thickness := dirtThickness T; value := dirtValue T;
                      interactable := false |} |}.

Definition Coal (T : Terrain) (pos : Tile) : MapTile :=
  {| tile := pos;
     properties := {| name := "Coal"; color := ""; type := COAL;
                      thickness := coalThickness T; value := coalValue T;
                      interactable := false |} |}.

End Tiles.

(** ** Grid/Grid.js *)

Module Grid.

Record Borders := { top : Q; bottom : Q; left : Q; right : Q }.

(** Grid.js is not part of the sources at hand.  The display handler builds
    it as [new Grid(game, 50, 40, 40)]; the player reads [tileSize],
    [widthGU], [heightGU] and [borders]. *)
Record t := {
  tileSize : Q;
  widthGU : Z;
  heightGU : Z;
  borders : Borders
}.

(** Modelled from the spec: [Grid.getTilePositionFromPixelPosition] (Grid.js
    is missing): "pixelToGrid(x,y) floors (x,y)/tileSize". *)
Definition getTilePositionFromPixelPosition (g : t) (x y : Q) : Tile :=
  mkTile (Qfloor (x / tileSize g)) (Qfloor (y / tileSize g)).

End Grid.

Abbreviation Grid := Grid.t.

(** ** Map/Map.js *)

Module GameMap.
Import MapTile Tiles.

(** The classes [surfaceBuildings] refers to. *)
Inductive Building := BShop | BSaveStation | BSellingPost | BFuelStation | BTeleporter.

(** What [require("./Tiles/<Class>.js")] hands to Map.js.  Shop.js,
    SaveStation.js, SellingPost.js and Teleporter.js end in
    [module.exports = <Class>].  FuelStation.js ends with the class and
    exports nothing: [require] yields the module's empty exports object,
    and [new building.type(this, t)] on it throws a TypeError. *)
Definition construct (b : Building) : option (Tile -> MapTile) :=
  match b with
  | BShop => Some Shop
  | BSaveStation => Some SaveStation
  | BSellingPost => Some SellingPost
  | BFuelStation => None
  | BTeleporter => Some Teleporter
  end.

(** The seeded generator installed by [seedrandom(seed, {global: true})]:
    the stream of values later calls of [Math.random()] return, and how many
    were taken. *)
Record Rng := { draws : nat -> Q; taken : nat }.

Definition random (r : Rng) : Q * Rng :=
  (draws r (taken r), {| draws := draws r; taken := S (taken r) |}).

Record t := {
  horizonLineGU : Z;
  horizonLine : Q;
  fg_tiles : gmap Tile MapTile;
  seed : Z;
  surfaceBuildings : list (Building * Z);
  rng : Rng
}.

Definition set_fg_tiles (f : gmap Tile MapTile) (m : t) : t :=
  {| horizonLineGU := horizonLineGU m; horizonLine := horizonLine m;
     fg_tiles := f; seed := seed m;
     surfaceBuildings := surfaceBuildings m; rng := rng m |}.

Definition set_rng (r : Rng) (m : t) : t :=
  {| horizonLineGU := horizonLineGU m; horizonLine := horizonLine m;
     fg_tiles := fg_tiles m; seed := seed m;
     surfaceBuildings := surfaceBuildings m; rng := r |}.

Definition set_seed (s : Z) (m : t) : t :=
  {| horizonLineGU := horizonLineGU m; horizonLine := horizonLine m;
     fg_tiles := fg_tiles m; seed := s;
     surfaceBuildings := surfaceBuildings m; rng := rng m |}.

(** The constructor. *)
Definition new (g : Grid) : t :=
  {| horizonLineGU := 8;
     horizonLine := inject_Z 8 * Grid.tileSize g;
     fg_tiles := ∅;
     seed := 0;
     surfaceBuildings :=
       [(BShop, 5); (BSaveStation, 10); (BSellingPost, 15);
        (BFuelStation, 25); (BTeleporter, 30)]%Z;
     rng := {| draws := fun _ => 0; taken := O |} |}.

(** [shouldGenType(type, layer, tile)]: only ["coal"] on layer 1 draws. *)
Definition shouldGenType (type : string) (layer : Z) (pos : Tile) (m : t)
  : bool * t :=
  if String.eqb type "coal" then
    if (layer =? 1)%Z then
      let (r, rng') := random (rng m) in
      (JS.leb (r * 100) 7.5, set_rng rng' m)
    else (false, m)
  else (false, m).

(** [genType(Type, tile)]. *)
Definition genType (mk : Tile -> MapTile) (pos : Tile) (m : t) : t :=
  set_fg_tiles (<[pos := mk pos]> (fg_tiles m)) m.

(** How a call that may throw ends: it returns, or it throws and leaves the
    map as the assignments made before the throw have it. *)
Inductive Outcome := Returned (m : t) | Thrown (m : t).

Definition state (o : Outcome) : t :=
  match o with
  | Returned m => m
  | Thrown m => m
  end.


(** One iteration of the surface loop. *)
Definition surfaceCell (T : Terrain) (g : Grid) (m : t) (i : Z) : Outcome :=
  let pos := mkTile i (horizonLineGU m) in
  match List.find (fun b => (snd b =? i)%Z) (surfaceBuildings m) with
  | Some b =>
      if (i <? Grid.widthGU g)%Z
      then
        match construct (fst b) with
        | Some mk => Returned (set_fg_tiles (<[pos := mk pos]> (fg_tiles m)) m)
        | None => Thrown m
        end
      else Returned (set_fg_tiles (<[pos := Grass T pos]> (fg_tiles m)) m)
  | None => Returned (set_fg_tiles (<[pos := Grass T pos]> (fg_tiles m)) m)
  end.

(** The surface loop [for (let i = 0; i < this.grid.widthGU; i++)], left at
    the first iteration that throws. *)
Fixpoint surface (T : Terrain) (g : Grid) (l : list Z) (m : t) : Outcome :=
  match l with
  | [] => Returned m
  | i :: l =>
      match surfaceCell T g m i with
      | Returned m => surface T g l m
      | Thrown m => Thrown m
      end
  end.

Definition dirtCell (T : Terrain) (gy : Z) (m : t) (gx : Z) : t :=
  let pos := mkTile gx gy in
  set_fg_tiles (<[pos := Dirt T pos]> (fg_tiles m)) m.

Definition dirtRow (T : Terrain) (g : Grid) (m : t) (gy : Z) : t :=
  fold_left (dirtCell T gy) (seqZ 0 (Grid.widthGU g)) m.

Definition coalCell (T : Terrain) (gx : Z) (m : t) (gy : Z) : t :=
  let pos := mkTile gx gy in
  let (yes, m1) := shouldGenType "coal" 1 pos m in
  if yes then genType (Coal T) pos m1 else m1.

(** The inner loop [for (gY = horizonLineGU + 1; gY < horizonLineGU + 21; gY++)]. *)
Definition coalColumn (T : Terrain) (m : t) (gx : Z) : t :=
  fold_left (coalCell T gx)
    (seqZ (horizonLineGU m + 1) (horizonLineGU m + 21 - (horizonLineGU m + 1))) m.

(** [generate(seed)]; [now] is what [Date.now()] returns and [stream] the
    values the generator seeded with the result yields.  No [try] encloses
    the loops: a throw in the surface loop ends the call, before any dirt
    or coal is placed. *)
Definition generate (T : Terrain) (g : Grid) (seed0 now : Z)
    (stream : Z -> nat -> Q) (m : t) : Outcome :=
  let s := if (seed0 =? 0)%Z then now else seed0 in
  let m := set_rng {| draws := stream s; taken := O |} (set_seed s m) in
  match surface T g (seqZ 0 (Grid.widthGU g)) m with
  | Thrown m => Thrown m
  | Returned m =>
      let m := fold_left (dirtRow T g)
                 (seqZ (horizonLineGU m + 1)
                    (Grid.heightGU g - (horizonLineGU m + 1))) m in
      Returned (fold_left (coalColumn T) (seqZ 0 (Grid.widthGU g)) m)
  end.

(** [ungenerate()]. *)
Definition ungenerate (m : t) : t :=
  set_fg_tiles ∅ (set_seed 0 m).

End GameMap.

Abbreviation GameMap := GameMap.t.

(** ** Player/PlayerHold.js: the cargo hold *)

Module PlayerHold.

(** An entry of [mapTiles]; the selling post reads [item.name] and
    [item.value]. *)
Record Item := { name : string; value : Q }.

Record t := { mapTiles : list Item; capacity : Q }.

Definition set_mapTiles (v : list Item) (h : t) : t :=
  {| mapTiles := v; capacity := capacity h |}.

Definition set_capacity (v : Q) (h : t) : t :=
  {| mapTiles := mapTiles h; capacity := v |}.

Definition snapshot (mt : MapTile) : Item :=
  {| name := MapTile.name (MapTile.properties mt);
     value := MapTile.value (MapTile.properties mt) |}.

(** Modelled from the spec: [PlayerHold.addMapTile] (PlayerHold.js is
    missing): "bounded list of tile snapshots (name, value)";
    "addMapTile(tile): appends regardless of capacity". *)
Definition addMapTile (mt : MapTile) (h : t) : t :=
  set_mapTiles (mapTiles h ++ [snapshot mt]) h.

End PlayerHold.

Abbreviation PlayerHold := PlayerHold.t.

(** ** Player/Player.js: the state of the player object *)

Module Player.

(** [Player.Direction]. *)
Inductive Direction := UP | DOWN | LEFT | RIGHT.

Record Pos := { px : Q; py : Q }.

Record t := {
  x : Q;
  y : Q;
  defaultSpeed : Q;
  speed : Q;
  speedMultiplier : Q;
  tickEnabled : bool;
  canMove : bool;
  moving : bool;
  wasMoving : bool;
  isStopping : bool;
  targetPos : Pos;
  tile : Tile;
  minetile : option MapTile;
  money : Q;
  chargeReq : Z;
  charge : Z;
  maxFuel : Q;
  tank : Q;
  fuel : Q;
  fuelDebounce : bool;
  facingDirection : Direction;
  hold : PlayerHold
}.

Definition set_x (v : Q) (r : t) : t :=
  {| x := v; y := y r; defaultSpeed := defaultSpeed r; speed := speed r;
     speedMultiplier := speedMultiplier r; tickEnabled := tickEnabled r;
     canMove := canMove r; moving := moving r; wasMoving := wasMoving r;
     isStopping := isStopping r; targetPos := targetPos r; tile := tile r;
     minetile := minetile r; money := money r; chargeReq := chargeReq r;
     charge := charge r; maxFuel := maxFuel r; tank := tank r;
     fuel := fuel r; fuelDebounce := fuelDebounce r;
     facingDirection := facingDirection r; hold := hold r |}.

Definition set_y (v : Q) (r : t) : t :=
  {| x := x r; y := v; defaultSpeed := defaultSpeed r; speed := speed r;
     speedMultiplier := speedMultiplier r; tickEnabled := tickEnabled r;
     canMove := canMove r; moving := moving r; wasMoving := wasMoving r;
     isStopping := isStopping r; targetPos := targetPos r; tile := tile r;
     minetile := minetile r; money := money r; chargeReq := chargeReq r;
     charge := charge r; maxFuel := maxFuel r; tank := tank r;
     fuel := fuel r; fuelDebounce := fuelDebounce r;
     facingDirection := facingDirection r; hold := hold r |}.

Definition set_defaultSpeed (v : Q) (r : t) : t :=
  {| x := x r; y := y r; defaultSpeed := v; speed := speed r;
     speedMultiplier := speedMultiplier r; tickEnabled := tickEnabled r;
     canMove := canMove r; moving := moving r; wasMoving := wasMoving r;
     isStopping := isStopping r; targetPos := targetPos r; tile := tile r;
     minetile := minetile r; money := money r; chargeReq := chargeReq r;
     charge := charge r; maxFuel := maxFuel r; tank := tank r;
     fuel := fuel r; fuelDebounce := fuelDebounce r;
     facingDirection := facingDirection r; hold := hold r |}.

Definition set_speed (v : Q) (r : t) : t :=
  {| x := x r; y := y r; defaultSpeed := defaultSpeed r; speed := v;
     speedMultiplier := speedMultiplier r; tickEnabled := tickEnabled r;
     canMove := canMove r; moving := moving r; wasMoving := wasMoving r;
     isStopping := isStopping r; targetPos := targetPos r; tile := tile r;
     minetile := minetile r; money := money r; chargeReq := chargeReq r;
     charge := charge r; maxFuel := maxFuel r; tank := tank r;
     fuel := fuel r; fuelDebounce := fuelDebounce r;
     facingDirection := facingDirection r; hold := hold r |}.

Definition set_speedMultiplier (v : Q) (r : t) : t :=
  {| x := x r; y := y r; defaultSpeed := defaultSpeed r; speed := speed r;
     speedMultiplier := v; tickEnabled := tickEnabled r;
     canMove := canMove r; moving := moving r; wasMoving := wasMoving r;
     isStopping := isStopping r; targetPos := targetPos r; tile := tile r;
     minetile := minetile r; money := money r; chargeReq := chargeReq r;
     charge := charge r; maxFuel := maxFuel r; tank := tank r;
     fuel := fuel r; fuelDebounce := fuelDebounce r;
     facingDirection := facingDirection r; hold := hold r |}.

Definition set_tickEnabled (v : bool) (r : t) : t :=
  {| x := x r; y := y r; defaultSpeed := defaultSpeed r; speed := speed r;
     speedMultiplier := speedMultiplier r; tickEnabled := v;
     canMove := canMove r; moving := moving r; wasMoving := wasMoving r;
     isStopping := isStopping r; targetPos := targetPos r; tile := tile r;
     minetile := minetile r; money := money r; chargeReq := chargeReq r;
     charge := charge r; maxFuel := maxFuel r; tank := tank r;
     fuel := fuel r; fuelDebounce := fuelDebounce r;
     facingDirection := facingDirection r; hold := hold r |}.

Definition set_canMove (v : bool) (r : t) : t :=
  {| x := x r; y := y r; defaultSpeed := defaultSpeed r; speed := speed r;
     speedMultiplier := speedMultiplier r; tickEnabled := tickEnabled r;
     canMove := v; moving := moving r; wasMoving := wasMoving r;
     isStopping := isStopping r; targetPos := targetPos r; tile := tile r;
     minetile := minetile r; money := money r; chargeReq := chargeReq r;
     charge := charge r; maxFuel := maxFuel r; tank := tank r;
     fuel := fuel r; fuelDebounce := fuelDebounce r;
     facingDirection := facingDirection r; hold := hold r |}.

Definition set_moving (v : bool) (r : t) : t :=
  {| x := x r; y := y r; defaultSpeed := defaultSpeed r; speed := speed r;
     speedMultiplier := speedMultiplier r; tickEnabled := tickEnabled r;
     canMove := canMove r; moving := v; wasMoving := wasMoving r;
     isStopping := isStopping r; targetPos := targetPos r; tile := tile r;
     minetile := minetile r; money := money r; chargeReq := chargeReq r;
     charge := charge r; maxFuel := maxFuel r; tank := tank r;
     fuel := fuel r; fuelDebounce := fuelDebounce r;
     facingDirection := facingDirection r; hold := hold r |}.

Definition set_wasMoving (v : bool) (r : t) : t :=
  {| x := x r; y := y r; defaultSpeed := defaultSpeed r; speed := speed r;
     speedMultiplier := speedMultiplier r; tickEnabled := tickEnabled r;
     canMove := canMove r; moving := moving r; wasMoving := v;
     isStopping := isStopping r; targetPos := targetPos r; tile := tile r;
     minetile := minetile r; money := money r; chargeReq := chargeReq r;
     charge := charge r; maxFuel := maxFuel r; tank := tank r;
     fuel := fuel r; fuelDebounce := fuelDebounce r;
     facingDirection := facingDirection r; hold := hold r |}.

Definition set_isStopping (v : bool) (r : t) : t :=
  {| x := x r; y := y r; defaultSpeed := defaultSpeed r; speed := speed r;
     speedMultiplier := speedMultiplier r; tickEnabled := tickEnabled r;
     canMove := canMove r; moving := moving r; wasMoving := wasMoving r;
     isStopping := v; targetPos := targetPos r; tile := tile r;
     minetile := minetile r; money := money r; chargeReq := chargeReq r;
     charge := charge r; maxFuel := maxFuel r; tank := tank r;
     fuel := fuel r; fuelDebounce := fuelDebounce r;
     facingDirection := facingDirection r; hold := hold r |}.

Definition set_targetPos (v : Pos) (r : t) : t :=
  {| x := x r; y := y r; defaultSpeed := defaultSpeed r; speed := speed r;
     speedMultiplier := speedMultiplier r; tickEnabled := tickEnabled r;
     canMove := canMove r; moving := moving r; wasMoving := wasMoving r;
     isStopping := isStopping r; targetPos := v; tile := tile r;
     minetile := minetile r; money := money r; chargeReq := chargeReq r;
     charge := charge r; maxFuel := maxFuel r; tank := tank r;
     fuel := fuel r; fuelDebounce := fuelDebounce r;
     facingDirection := facingDirection r; hold := hold r |}.

Definition set_tile (v : Tile) (r : t) : t :=
  {| x := x r; y := y r; defaultSpeed := defaultSpeed r; speed := speed r;
     speedMultiplier := speedMultiplier r; tickEnabled := tickEnabled r;
     canMove := canMove r; moving := moving r; wasMoving := wasMoving r;
     isStopping := isStopping r; targetPos := targetPos r; tile := v;
     minetile := minetile r; money := money r; chargeReq := chargeReq r;
     charge := charge r; maxFuel := maxFuel r; tank := tank r;
     fuel := fuel r; fuelDebounce := fuelDebounce r;
     facingDirection := facingDirection r; hold := hold r |}.

Definition set_minetile (v : option MapTile) (r : t) : t :=
  {| x := x r; y := y r; defaultSpeed := defaultSpeed r; speed := speed r;
     speedMultiplier := speedMultiplier r; tickEnabled := tickEnabled r;
     canMove := canMove r; moving := moving r; wasMoving := wasMoving r;
     isStopping := isStopping r; targetPos := targetPos r; tile := tile r;
     minetile := v; money := money r; chargeReq := chargeReq r;
     charge := charge r; maxFuel := maxFuel r; tank := tank r;
     fuel := fuel r; fuelDebounce := fuelDebounce r;
     facingDirection := facingDirection r; hold := hold r |}.

Definition set_money (v : Q) (r : t) : t :=
  {| x := x r; y := y r; defaultSpeed := defaultSpeed r; speed := speed r;
     speedMultiplier := speedMultiplier r; tickEnabled := tickEnabled r;
     canMove := canMove r; moving := moving r; wasMoving := wasMoving r;
     isStopping := isStopping r; targetPos := targetPos r; tile := tile r;
     minetile := minetile r; money := v; chargeReq := chargeReq r;
     charge := charge r; maxFuel := maxFuel r; tank := tank r;
     fuel := fuel r; fuelDebounce := fuelDebounce r;
     facingDirection := facingDirection r; hold := hold r |}.

Definition set_chargeReq (v : Z) (r : t) : t :=
  {| x := x r; y := y r; defaultSpeed := defaultSpeed r; speed := speed r;
     speedMultiplier := speedMultiplier r; tickEnabled := tickEnabled r;
     canMove := canMove r; moving := moving r; wasMoving := wasMoving r;
     isStopping := isStopping r; targetPos := targetPos r; tile := tile r;
     minetile := minetile r; money := money r; chargeReq := v;
     charge := charge r; maxFuel := maxFuel r; tank := tank r;
     fuel := fuel r; fuelDebounce := fuelDebounce r;
     facingDirection := facingDirection r; hold := hold r |}.

Definition set_charge (v : Z) (r : t) : t :=
  {| x := x r; y := y r; defaultSpeed := defaultSpeed r; speed := speed r;
     speedMultiplier := speedMultiplier r; tickEnabled := tickEnabled r;
     canMove := canMove r; moving := moving r; wasMoving := wasMoving r;
     isStopping := isStopping r; targetPos := targetPos r; tile := tile r;
     minetile := minetile r; money := money r; chargeReq := chargeReq r;
     charge := v; maxFuel := maxFuel r; tank := tank r; fuel := fuel r;
     fuelDebounce := fuelDebounce r; facingDirection := facingDirection r;
     hold := hold r |}.

Definition set_maxFuel (v : Q) (r : t) : t :=
  {| x := x r; y := y r; defaultSpeed := defaultSpeed r; speed := speed r;
     speedMultiplier := speedMultiplier r; tickEnabled := tickEnabled r;
     canMove := canMove r; moving := moving r; wasMoving := wasMoving r;
     isStopping := isStopping r; targetPos := targetPos r; tile := tile r;
     minetile := minetile r; money := money r; chargeReq := chargeReq r;
     charge := charge r; maxFuel := v; tank := tank r; fuel := fuel r;
     fuelDebounce := fuelDebounce r; facingDirection := facingDirection r;
     hold := hold r |}.

Definition set_tank (v : Q) (r : t) : t :=
  {| x := x r; y := y r; defaultSpeed := defaultSpeed r; speed := speed r;
     speedMultiplier := speedMultiplier r; tickEnabled := tickEnabled r;
     canMove := canMove r; moving := moving r; wasMoving := wasMoving r;
     isStopping := isStopping r; targetPos := targetPos r; tile := tile r;
     minetile := minetile r; money := money r; chargeReq := chargeReq r;
     charge := charge r; maxFuel := maxFuel r; tank := v; fuel := fuel r;
     fuelDebounce := fuelDebounce r; facingDirection := facingDirection r;
     hold := hold r |}.

Definition set_fuel (v : Q) (r : t) : t :=
  {| x := x r; y := y r; defaultSpeed := defaultSpeed r; speed := speed r;
     speedMultiplier := speedMultiplier r; tickEnabled := tickEnabled r;
     canMove := canMove r; moving := moving r; wasMoving := wasMoving r;
     isStopping := isStopping r; targetPos := targetPos r; tile := tile r;
     minetile := minetile r; money := money r; chargeReq := chargeReq r;
     charge := charge r; maxFuel := maxFuel r; tank := tank r; fuel := v;
     fuelDebounce := fuelDebounce r; facingDirection := facingDirection r;
     hold := hold r |}.

Definition set_fuelDebounce (v : bool) (r : t) : t :=
  {| x := x r; y := y r; defaultSpeed := defaultSpeed r; speed := speed r;
     speedMultiplier := speedMultiplier r; tickEnabled := tickEnabled r;
     canMove := canMove r; moving := moving r; wasMoving := wasMoving r;
     isStopping := isStopping r; targetPos := targetPos r; tile := tile r;
     minetile := minetile r; money := money r; chargeReq := chargeReq r;
     charge := charge r; maxFuel := maxFuel r; tank := tank r;
     fuel := fuel r; fuelDebounce := v; facingDirection := facingDirection r;
     hold := hold r |}.

Definition set_facingDirection (v : Direction) (r : t) : t :=
  {| x := x r; y := y r; defaultSpeed := defaultSpeed r; speed := speed r;
     speedMultiplier := speedMultiplier r; tickEnabled := tickEnabled r;
     canMove := canMove r; moving := moving r; wasMoving := wasMoving r;
     isStopping := isStopping r; targetPos := targetPos r; tile := tile r;
     minetile := minetile r; money := money r; chargeReq := chargeReq r;
     charge := charge r; maxFuel := maxFuel r; tank := tank r;
     fuel := fuel r; fuelDebounce := fuelDebounce r; facingDirection := v;
     hold := hold r |}.

Definition set_hold (v : PlayerHold) (r : t) : t :=
  {| x := x r; y := y r; defaultSpeed := defaultSpeed r; speed := speed r;
     speedMultiplier := speedMultiplier r; tickEnabled := tickEnabled r;
     canMove := canMove r; moving := moving r; wasMoving := wasMoving r;
     isStopping := isStopping r; targetPos := targetPos r; tile := tile r;
     minetile := minetile r; money := money r; chargeReq := chargeReq r;
     charge := charge r; maxFuel := maxFuel r; tank := tank r;
     fuel := fuel r; fuelDebounce := fuelDebounce r;
     facingDirection := facingDirection r; hold := v |}.

End Player.

Abbreviation Player := Player.t.

(** ** Handler/BuildingHandler.js: the state of the building handler *)

Module BuildingHandler.

Record Waypoint := { name : string; x : Q; y : Q }.

(** [item.id].  The source switches on the string and, for the ids
    [teleport_<index>] the teleporter builds, reads the index back with
    [parseInt]; the index is kept as a number here. *)
Inductive ItemId :=
  | fuel_upgrade | cargo_upgrade | speed_upgrade | drill_upgrade
  | sell_all | refuel | add_waypoint
  | teleport_ (index : nat).

(** An entry of a building menu.  The label shown is display only. *)
Record UIItem := { price : Q; id : ItemId; highlight : bool }.

(** The element [building-ui-overlay] that [createUI] appends to the body. *)
Record Overlay := { title : string; items : list UIItem }.

(** What [showMessage] was called with. *)
Inductive Message :=
  | Text (s : string)
  | Sold (totalValue : Q)
  | WaypointAdded (name : string)
  | Teleported (name : string).

Record t := {
  currentUI : option string;
  waypoints : list Waypoint;
  overlays : list Overlay;
  messages : list Message
}.

Definition set_currentUI (v : option string) (r : t) : t :=
  {| currentUI := v; waypoints := waypoints r; overlays := overlays r;
     messages := messages r |}.

Definition set_waypoints (v : list Waypoint) (r : t) : t :=
  {| currentUI := currentUI r; waypoints := v; overlays := overlays r;
     messages := messages r |}.

Definition set_overlays (v : list Overlay) (r : t) : t :=
  {| currentUI := currentUI r; waypoints := waypoints r; overlays := v;
     messages := messages r |}.

Definition set_messages (v : list Message) (r : t) : t :=
  {| currentUI := currentUI r; waypoints := waypoints r;
     overlays := overlays r; messages := v |}.

(** The constructor. *)
Definition new : t :=
  {| currentUI := None; waypoints := []; overlays := []; messages := [] |}.

End BuildingHandler.

Abbreviation BuildingHandler := BuildingHandler.t.

(** ** The record kept in [localStorage] under [megaminer_save]

    [JSON.stringify] followed by [JSON.parse] is taken to return the data it
    was given; a field that may be absent from the parsed object is an
    [option]. *)

Module SaveData.

Record PlayerData := {
  money : option Q;
  fuel : option Q;
  maxFuel : option Q;
  tank : option Q;
  position : option Player.Pos;
  speedMultiplier : option Q;
  cargo : option (list PlayerHold.Item);
  cargoCapacity : option Q
}.

Record WorldData := {
  seed : option Z;
  waypoints : option (list BuildingHandler.Waypoint)
}.

Record t := {
  version : option string;
  timestamp : Z;
  player : option PlayerData;
  world : option WorldData
}.

End SaveData.

Abbreviation SaveData := SaveData.t.

(** ** The object graph [game -> displayHandler -> grid/map/player/...] *)

Module Game.

(** The continuations the out-of-fuel sequence hands to [fade] and
    [setTimeout]. *)
Inductive Callback :=
  | FadedOut      (* callback of [fade(true, ...)] *)
  | Delayed       (* callback of [setTimeout(..., 1000)] *)
  | FadedIn.      (* callback of [fade(false, ...)] *)

(** The events the player dispatches. *)
Inductive Event :=
  | tilemove (detail : Tile)
  | tiledestroy (detail : Tile).

Record t := {
  grid : Grid;
  map : GameMap;
  player : Player;
  buildingHandler : BuildingHandler;
  timers : list Callback;         (* pending, not yet fired *)
  dispatched : list Event;        (* every event dispatched so far, oldest first *)
  localStorage : option SaveData
}.

Definition set_grid (v : Grid) (r : t) : t :=
  {| grid := v; map := map r; player := player r;
     buildingHandler := buildingHandler r; timers := timers r;
     dispatched := dispatched r; localStorage := localStorage r |}.

Definition set_map (v : GameMap) (r : t) : t :=
  {| grid := grid r; map := v; player := player r;
     buildingHandler := buildingHandler r; timers := timers r;
     dispatched := dispatched r; localStorage := localStorage r |}.

Definition set_player (v : Player) (r : t) : t :=
  {| grid := grid r; map := map r; player := v;
     buildingHandler := buildingHandler r; timers := timers r;
     dispatched := dispatched r; localStorage := localStorage r |}.

Definition set_buildingHandler (v : BuildingHandler) (r : t) : t :=
  {| grid := grid r; map := map r; player := player r; buildingHandler := v;
     timers := timers r; dispatched := dispatched r;
     localStorage := localStorage r |}.

Definition set_timers (v : list Callback) (r : t) : t :=
  {| grid := grid r; map := map r; player := player r;
     buildingHandler := buildingHandler r; timers := v;
     dispatched := dispatched r; localStorage := localStorage r |}.

Definition set_dispatched (v : list Event) (r : t) : t :=
  {| grid := grid r; map := map r; player := player r;
     buildingHandler := buildingHandler r; timers := timers r;
     dispatched := v; localStorage := localStorage r |}.

Definition set_localStorage (v : option SaveData) (r : t) : t :=
  {| grid := grid r; map := map r; player := player r;
     buildingHandler := buildingHandler r; timers := timers r;
     dispatched := dispatched r; localStorage := v |}.

Definition onPlayer (f : Player -> Player) (w : t) : t :=
  set_player (f (player w)) w.

Definition onMap (f : GameMap -> GameMap) (w : t) : t :=
  set_map (f (map w)) w.

Definition onHandler (f : BuildingHandler -> BuildingHandler) (w : t) : t :=
  set_buildingHandler (f (buildingHandler w)) w.

End Game.

Abbreviation World := Game.t.

(** ** Handler/BuildingHandler.js: the methods *)

Module BuildingHandlerMethods.
Import Game BuildingHandler.

Definition showMessage (msg : Message) (w : World) : World :=
  onHandler (fun b => set_messages (messages b ++ [msg]) b) w.

(** [createUI(title, items)] appends a new overlay to the document. *)
Definition createUI (title : string) (items : list UIItem) (w : World) : World :=
  onHandler (fun b =>
    set_overlays (overlays b ++ [{| title := title; items := items |}]) b) w.

(** [closeUI()] removes the overlay [getElementById] finds, if any, and
    clears [currentUI]. *)
Definition closeUI (w : World) : World :=
  onHandler (fun b => set_currentUI None (set_overlays (tail (overlays b)) b)) w.

Definition isOpen (w : World) : bool :=
  match currentUI (buildingHandler w) with
  | Some s => negb (String.eqb s "")
  | None => false
  end.

Definition openShop (w : World) : World :=
  if isOpen w then w
  else
    let w := onHandler (set_currentUI (Some "shop"%string)) w in
    createUI "Shop"
      [ {| price := 500; id := fuel_upgrade; highlight := false |};
        {| price := 750; id := cargo_upgrade; highlight := false |};
        {| price := 1000; id := speed_upgrade; highlight := false |};
        {| price := 2000; id := drill_upgrade; highlight := false |} ] w.

(** [saveGame()] of the building handler: the record it stores has neither
    [version] nor [player]; its top-level fields, which [SaveHandler.loadGame]
    never reads, are left out. *)
Definition saveGame (now : Z) (w : World) : World :=
  let saveData :=
    {| SaveData.version := None; SaveData.timestamp := now;
       SaveData.player := None; SaveData.world := None |} in
  showMessage (Text "Game Saved Successfully!")
    (set_localStorage (Some saveData) w).

(** One item on an object that does not find [name] among the inherited
    properties: the own entry is created at the end if there is none, and
    its count is raised. *)
Fixpoint bump (name : string) (value : Q)
    (acc : list (string * (Z * Q))) : list (string * (Z * Q)) :=
  match acc with
  | [] => [(name, (1%Z, value))]
  | (n, (c, v)) :: rest =>
      if String.eqb n name then (n, ((c + 1)%Z, v)) :: rest
      else (n, (c, v)) :: bump name value rest
  end.

(** The callback of the [forEach] that fills [itemCounts].  Under a name
    that [Object.prototype] defines, [itemCounts[item.name]] is truthy from
    the start: no entry is created, and [count++] lands on the inherited
    object, not on [itemCounts]. *)
Definition count (name : string) (value : Q)
    (acc : list (string * (Z * Q))) : list (string * (Z * Q)) :=
  if JS.inherited name then acc else bump name value acc.

Definition itemCounts (l : list PlayerHold.Item) : list (string * (Z * Q)) :=
  fold_left (fun acc i => count (PlayerHold.name i) (PlayerHold.value i) acc) l [].

Definition totalValue (l : list PlayerHold.Item) : Q :=
  fold_left (fun sum i => sum + PlayerHold.value i) l 0.

Definition openSellingPost (w : World) : World :=
  if isOpen w then w
  else
    let cargo := PlayerHold.mapTiles (Player.hold (player w)) in
    match cargo with
    | [] => showMessage (Text "No items to sell!") w
    | _ =>
      let w := onHandler (set_currentUI (Some "selling"%string)) w in
      let items :=
        List.map (fun e => {| price := inject_Z (fst (snd e)) * snd (snd e);
                              id := sell_all; highlight := false |})
                 (JS.keys (itemCounts cargo)) in
      createUI "Selling Post"
        (items ++ [{| price := totalValue cargo; id := sell_all; highlight := true |}]) w
    end.

Definition openFuelStation (w : World) : World :=
  if isOpen w then w
  else
    let w := onHandler (set_currentUI (Some "fuel"%string)) w in
    let fuelNeeded := Player.maxFuel (player w) - Player.fuel (player w) in
    let refuelCost := inject_Z (JS.ceil (fuelNeeded * 2)) in
    if JS.leb fuelNeeded 0 then
      showMessage (Text "Fuel tank is already full!") w
    else
      createUI "Fuel Station"
        [ {| price := refuelCost; id := refuel; highlight := false |} ] w.

Definition openTeleporter (w : World) : World :=
  if isOpen w then w
  else
    let w := onHandler (set_currentUI (Some "teleporter"%string)) w in
    let items :=
      {| price := 100; id := add_waypoint; highlight := false |}
      :: imap (fun index _ => {| price := 50; id := teleport_ index; highlight := false |})
              (waypoints (buildingHandler w)) in
    createUI "Teleporter" items w.

Definition handleBuildingInteraction (now : Z) (buildingType : MapTile.Type_)
    (w : World) : World :=
  match buildingType with
  | MapTile.SHOP => openShop w
  | MapTile.SAVE_STATION => saveGame now w
  | MapTile.SELLING_POST => openSellingPost w
  | MapTile.FUEL_STATION => openFuelStation w
  | MapTile.TELEPORTER => openTeleporter w
  | _ => w
  end.

(** The listener of the player's [tilemove] event. *)
Definition onPlayerMove (now : Z) (detail : Tile) (w : World) : World :=
  match GameMap.fg_tiles (map w) !! detail with
  | Some maptile =>
      if MapTile.interactable (MapTile.properties maptile)
      then handleBuildingInteraction now (MapTile.type (MapTile.properties maptile)) w
      else w
  | None => w
  end.

(** What the user typed into [prompt]; [None] when the dialog is cancelled. *)
Definition waypointName (answer : option string) (n : nat) : string :=
  match answer with
  | Some s => if String.eqb s "" then "Waypoint " +:+ pretty (S n) else s
  | None => "Waypoint " +:+ pretty (S n)
  end.

Definition pay (item : UIItem) (p : Player) : Player :=
  Player.set_money (Player.money p - price item) p.

(** [handlePurchase(item, moneyEl)]: a click on an entry of the menu. *)
Definition handlePurchase (answer : option string) (item : UIItem) (w : World)
  : World :=
  if JS.ltb (Player.money (player w)) (price item) then
    showMessage (Text "Not enough money!") w
  else
    match id item with
    | fuel_upgrade =>
        let w := onPlayer (fun p => Player.set_maxFuel (Player.maxFuel p + 5) p) w in
        let w := onPlayer (pay item) w in
        showMessage (Text "Fuel tank upgraded!") w
    | cargo_upgrade =>
        let w := onPlayer (fun p =>
                   Player.set_hold
                     (PlayerHold.set_capacity (PlayerHold.capacity (Player.hold p) + 5)
                        (Player.hold p)) p) w in
        let w := onPlayer (pay item) w in
        showMessage (Text "Cargo hold upgraded!") w
    | speed_upgrade =>
        let w := onPlayer (fun p =>
                   Player.set_speedMultiplier (Player.speedMultiplier p + 0.2) p) w in
        let w := onPlayer (pay item) w in
        showMessage (Text "Drill speed increased!") w
    | sell_all =>
        let total := totalValue (PlayerHold.mapTiles (Player.hold (player w))) in
        let w := onPlayer (fun p => Player.set_money (Player.money p + total) p) w in
        let w := onPlayer (fun p =>
                   Player.set_hold (PlayerHold.set_mapTiles [] (Player.hold p)) p) w in
        let w := closeUI w in
        showMessage (Sold total) w
    | refuel =>
        let w := onPlayer (fun p => Player.set_fuel (Player.maxFuel p) p) w in
        let w := onPlayer (pay item) w in
        showMessage (Text "Fuel tank refilled!") w
    | add_waypoint =>
        let name := waypointName answer (length (waypoints (buildingHandler w))) in
        let wp := {| name := name; x := Player.x (player w); y := Player.y (player w) |} in
        let w := onHandler (fun b => set_waypoints (waypoints b ++ [wp]) b) w in
        let w := onPlayer (pay item) w in
        let w := closeUI w in
        showMessage (WaypointAdded name) w
    | teleport_ index =>
        match waypoints (buildingHandler w) !! index with
        | Some waypoint =>
            let w := onPlayer (fun p =>
                       Player.set_targetPos
                         {| Player.px := x waypoint; Player.py := y waypoint |}
                         (Player.set_y (y waypoint) (Player.set_x (x waypoint) p))) w in
            let w := onPlayer (pay item) w in
            let w := closeUI w in
            showMessage (Teleported (name waypoint)) w
        | None => w
        end
    | drill_upgrade => w
    end.

End BuildingHandlerMethods.

(** ** Handler/DisplayHandler.js *)

Module DisplayHandler.
Import Game.

(** [fade(out, callback)] sets the opacity of the curtain and hands the
    callback to [setTimeout]. *)
Definition fade (out : bool) (callback : Callback) (w : World) : World :=
  set_timers (timers w ++ [callback]) w.

(** The grid [new Grid(this.game, 50, 40, 40)] of the constructor, with the
    borders (Grid.js is missing) left to the caller. *)
Definition grid (b : Grid.Borders) : Grid :=
  {| Grid.tileSize := 50; Grid.widthGU := 40; Grid.heightGU := 40;
     Grid.borders := b |}.

End DisplayHandler.

(** ** Player/Player.js: the methods *)

Module PlayerMethods.
Import Game Player.

(** What a tick reads from outside the player: the ticker's [event.delta],
    the input handler's [pressedKeys], and the clock a listener may read. *)
Record TickEvent := { delta : Q; pressedKeys : list string; now : Z }.

Definition pressed (k : string) (keys : list string) : bool :=
  existsb (String.eqb k) keys.

Definition checkDirection (keys : list string) : option Direction :=
  if pressed "ArrowUp" keys || pressed "w" keys then Some UP
  else if pressed "ArrowDown" keys || pressed "s" keys then Some DOWN
  else if pressed "ArrowLeft" keys || pressed "a" keys then Some LEFT
  else if pressed "ArrowRight" keys || pressed "d" keys then Some RIGHT
  else None.

(** [dispatchEvent]: the event is recorded and the listeners run at once.
    The only listener whose source is at hand is the building handler's, on
    [tilemove]. *)
Definition dispatchEvent (now : Z) (e : Event) (w : World) : World :=
  let w := set_dispatched (dispatched w ++ [e]) w in
  match e with
  | tilemove detail => BuildingHandlerMethods.onPlayerMove now detail w
  | tiledestroy _ => w
  end.

Definition updateFuel (amount : Q) (w : World) : World :=
  onPlayer (fun p => set_fuel (fuel p + amount) p) w.

Definition resetPos (w : World) : World :=
  let g := grid w in
  let x0 := inject_Z (JS.round ((inject_Z (Grid.widthGU g) * Grid.tileSize g) / 2)) in
  let y0 := GameMap.horizonLine (map w) - Grid.tileSize g in
  onPlayer (fun p =>
    set_isStopping false
      (set_wasMoving false
        (set_facingDirection RIGHT
          (set_targetPos {| px := x0; py := y0 |}
            (set_tile (Grid.getTilePositionFromPixelPosition g x0 y0)
              (set_y y0 (set_x x0 p))))))) w.

(** [outOfFuel()], up to the call of [fade]. *)
Definition outOfFuel (w : World) : World :=
  if fuelDebounce (player w) then w
  else
    let w := onPlayer (fun p =>
               set_moving false (set_canMove false (set_fuelDebounce true p))) w in
    DisplayHandler.fade true FadedOut w.

(** [Math.round(((this.y / this.grid.tileSize) - 7) * 5)], in doubles: the
    division, the subtraction and the product each round. *)
Definition depth (y tileSize : Q) : option Z :=
  JS.mathRound
    (JS.fmul
       (JS.fsub (JS.fdiv (JS.double y) (JS.double tileSize)) (JS.double 7))
       (JS.double 5)).

(** [this.money -= depth + this.maxFuel].  A depth that is not a number or
    is infinite (a tile size of 0) turns the money into NaN or an infinity,
    which the rationals do not carry: the money is then left as it is, and
    the statements on the fee are about a finite depth. *)
Definition charged (depth : option Z) (p : Player) : Q :=
  match depth with
  | Some d => money p - (inject_Z d + maxFuel p)
  | None => money p
  end.

(** The bodies of the three callbacks of [outOfFuel]. *)
Definition run (cb : Callback) (w : World) : World :=
  match cb with
  | FadedOut =>
      let depth := depth (y (player w)) (Grid.tileSize (grid w)) in
      let w := onPlayer (fun p => set_fuel (maxFuel p) p) w in
      let w := updateFuel 0 w in
      let w := onPlayer (fun p => set_money (charged depth p) p) w in
      let w := resetPos w in
      set_timers (timers w ++ [Delayed]) w
  | Delayed => DisplayHandler.fade false FadedIn w
  | FadedIn =>
      onPlayer (fun p => set_canMove true (set_fuelDebounce false p)) w
  end.

(** The [i]-th pending timer fires. *)
Definition fire (i : nat) (w : World) : World :=
  match timers w !! i with
  | Some cb => run cb (set_timers (delete i (timers w)) w)
  | None => w
  end.

(** The cell next to [t] in the given direction. *)
Definition ahead (direction : Direction) (t : Tile) : Tile :=
  match direction with
  | UP => mkTile (gX t) (gY t - 1)
  | DOWN => mkTile (gX t) (gY t + 1)
  | LEFT => mkTile (gX t - 1) (gY t)
  | RIGHT => mkTile (gX t + 1) (gY t)
  end.

(** The target of a move: one tile from the current target, clamped. *)
Definition nextTarget (direction : Direction) (w : World) : Pos :=
  let tileSize := Grid.tileSize (grid w) in
  let tp := targetPos (player w) in
  match direction with
  | UP =>
      let targetY := py tp - tileSize in
      let limit := GameMap.horizonLine (map w) - tileSize in
      {| px := px tp; py := if JS.ltb targetY limit then limit else targetY |}
  | DOWN =>
      let targetY := py tp + tileSize in
      let limit := Grid.bottom (Grid.borders (grid w)) - tileSize in
      {| px := px tp; py := if JS.ltb limit targetY then limit else targetY |}
  | LEFT =>
      let targetX := px tp - tileSize in
      let limit := Grid.left (Grid.borders (grid w)) in
      {| px := if JS.ltb targetX limit then limit else targetX; py := py tp |}
  | RIGHT =>
      let targetX := px tp + tileSize in
      let limit := Grid.right (Grid.borders (grid w)) - tileSize in
      {| px := if JS.ltb limit targetX then limit else targetX; py := py tp |}
  end.

(** The closure [kpCharge] is given: the move is committed. *)
Definition logic (direction : Direction) (maptile : option MapTile) (w : World)
  : World :=
  let w := onPlayer (set_targetPos (nextTarget direction w)) w in
  let p := player w in
  if JS.eqb (px (targetPos p)) (x p) && JS.eqb (py (targetPos p)) (y p) then w
  else
    let w := onPlayer (fun p => set_isStopping false (set_moving true p)) w in
    match maptile with
    | Some mt =>
        onPlayer (fun p =>
          set_minetile (Some mt)
            (set_speed (MapTile.thickness (MapTile.properties mt) / 100
                        * (defaultSpeed p * speedMultiplier p)) p)) w
    | None =>
        if negb (JS.eqb (speed (player w)) (defaultSpeed (player w))) then
          onPlayer (fun p => set_minetile None (set_speed (defaultSpeed p) p)) w
        else w
    end.

Definition kpCharge (maptile : option MapTile) (logic : World -> World)
    (w : World) : World :=
  let w :=
    match maptile with
    | None => logic w
    | Some _ => if (chargeReq (player w) <? charge (player w))%Z then logic w else w
    end in
  if (charge (player w) <=? chargeReq (player w))%Z
  then onPlayer (fun p => set_charge (charge p + 1)%Z p) w
  else w.

(** The first block of [tick]: "if we're not currently moving, check if we
    can move". *)
Definition input (keys : list string) (w : World) : World :=
  if negb (moving (player w)) && canMove (player w) then
    match checkDirection keys with
    | Some direction =>
        let maptile :=
          GameMap.fg_tiles (map w) !! ahead direction (tile (player w)) in
        let w := onPlayer (set_facingDirection direction) w in
        kpCharge maptile (logic direction maptile) w
    | None =>
        let w := if (0 <? charge (player w))%Z
                 then onPlayer (set_charge 0%Z) w else w in
        if isStopping (player w) then onPlayer (set_isStopping false) w else w
    end
  else w.

(** "Reduce fuel level", the branch taken when fuel is left. *)
Definition burn (delta : Q) (w : World) : World :=
  if JS.ltb (GameMap.horizonLine (map w) - Grid.tileSize (grid w) + 5)
            (y (player w))
  then
    match minetile (player w) with
    | Some _ => updateFuel (- (1 / 5100) * delta) w
    | None => updateFuel (- (1 / 7000) * delta) w
    end
  else w.

(** "Perform the movement". *)
Definition advance (delta : Q) (w : World) : World :=
  let p := player w in
  if negb (JS.eqb (px (targetPos p)) (x p)) || negb (JS.eqb (py (targetPos p)) (y p))
  then
    let diff := speed p * delta in
    match facingDirection p with
    | UP =>
        let moveY := y p - diff in
        onPlayer (set_y (if JS.ltb moveY (py (targetPos p))
                         then py (targetPos p) else moveY)) w
    | DOWN =>
        let moveY := y p + diff in
        onPlayer (set_y (if JS.ltb (py (targetPos p)) moveY
                         then py (targetPos p) else moveY)) w
    | LEFT =>
        let moveX := x p - diff in
        onPlayer (set_x (if JS.ltb moveX (px (targetPos p))
                         then px (targetPos p) else moveX)) w
    | RIGHT =>
        let moveX := x p + diff in
        onPlayer (set_x (if JS.ltb (px (targetPos p)) moveX
                         then px (targetPos p) else moveX)) w
    end
  else w.

(** The condition of "check for movement completion". *)
Definition completed (w : World) : bool :=
  let p := player w in
  match facingDirection p with
  | UP => JS.leb (y p) (py (targetPos p))
  | DOWN => JS.leb (py (targetPos p)) (y p)
  | LEFT => JS.leb (x p) (px (targetPos p))
  | RIGHT => JS.leb (px (targetPos p)) (x p)
  end.

(** The body of "check for movement completion". *)
Definition arrive (now : Z) (w : World) : World :=
  let w := onPlayer (fun p =>
             set_y (py (targetPos p)) (set_x (px (targetPos p)) p)) w in
  let w := onPlayer (fun p => set_isStopping true (set_moving false p)) w in
  let here :=
    Grid.getTilePositionFromPixelPosition (grid w) (x (player w)) (y (player w)) in
  let w := onPlayer (set_tile here) w in
  match GameMap.fg_tiles (map w) !! here with
  | Some maptile =>
      if MapTile.interactable (MapTile.properties maptile) then
        dispatchEvent now (tilemove here) w
      else
        let w := onPlayer (fun p =>
                   set_hold (PlayerHold.addMapTile maptile (hold p)) p) w in
        let w := onMap (fun m =>
                   GameMap.set_fg_tiles (delete here (GameMap.fg_tiles m)) m) w in
        let w := dispatchEvent now (tiledestroy here) w in
        let w := onPlayer (set_minetile None) w in
        dispatchEvent now (tilemove here) w
  | None => dispatchEvent now (tilemove here) w
  end.

(** "Update this.isMoving", the last statement of [tick]. *)
Definition syncWasMoving (w : World) : World :=
  if negb (Bool.eqb (wasMoving (player w)) (moving (player w)))
  then onPlayer (fun p => set_wasMoving (moving p) p) w
  else w.

(** The second block of [tick], entered when [moving] holds and fuel is
    left. *)
Definition move (ev : TickEvent) (w : World) : World :=
  let w := advance (delta ev) (burn (delta ev) w) in
  if completed w then arrive (now ev) w else w.

Definition tick (ev : TickEvent) (w : World) : World :=
  if negb (tickEnabled (player w)) then w
  else if JS.leb (fuel (player w)) 0 then outOfFuel w
  else
    let w := input (pressedKeys ev) w in
    if moving (player w) then
      if JS.leb (fuel (player w)) 0 then outOfFuel w
      else syncWasMoving (move ev w)
    else syncWasMoving w.

(** [tick] runs the body of "check for movement completion". *)
Definition arrives (ev : TickEvent) (w : World) : bool :=
  tickEnabled (player w) && negb (JS.leb (fuel (player w)) 0) &&
  (let w1 := input (pressedKeys ev) w in
   moving (player w1) && negb (JS.leb (fuel (player w1)) 0) &&
   completed (advance (delta ev) (burn (delta ev) w1))).

(** The cell the player is heading for once the input of the tick is read. *)
Definition destination (ev : TickEvent) (w : World) : Tile :=
  let tp := targetPos (player (input (pressedKeys ev) w)) in
  Grid.getTilePositionFromPixelPosition (grid w) (px tp) (py tp).

(** The constructor, for a hold and a map built elsewhere. *)
Definition new (h : PlayerHold) : Player :=
  {| x := 0; y := 0;
     defaultSpeed := 0.222; speed := 0.222; speedMultiplier := 1;
     tickEnabled := true; canMove := true;
     moving := false; wasMoving := false; isStopping := false;
     targetPos := {| px := 0; py := 0 |};
     tile := mkTile 0 0;
     minetile := None;
     money := 300;
     chargeReq := 20; charge := 0;
     maxFuel := 10; tank := 0; fuel := 10 * (0 / 2 + 1);
     fuelDebounce := false;
     facingDirection := RIGHT;
     hold := h |}.

End PlayerMethods.

(** [DisplayHandler.init()] on a freshly generated map: the world a session
    starts from. *)
Definition init (g : Grid) (m : GameMap) (h : PlayerHold) : World :=
  PlayerMethods.resetPos
    {| Game.grid := g; Game.map := m; Game.player := PlayerMethods.new h;
       Game.buildingHandler := BuildingHandler.new;
       Game.timers := []; Game.dispatched := []; Game.localStorage := None |}.

(** ** The save handler (src/Handler/SaveHandler.js) *)

Module SaveHandler.
Import Game.

(** [saveGame()].  The [catch] branch (a value [JSON.stringify] rejects, a
    full storage) is not modelled. *)
Definition saveGame (now : Z) (w : World) : bool * World :=
  let p := player w in
  let saveData :=
    {| SaveData.version := Some "1.0.0"%string;
       SaveData.timestamp := now;
       SaveData.player := Some
         {| SaveData.money := Some (Player.money p);
            SaveData.fuel := Some (Player.fuel p);
            SaveData.maxFuel := Some (Player.maxFuel p);
            SaveData.tank := Some (Player.tank p);
            SaveData.position :=
              Some {| Player.px := Player.x p; Player.py := Player.y p |};
            SaveData.speedMultiplier := Some (Player.speedMultiplier p);
            SaveData.cargo := Some (PlayerHold.mapTiles (Player.hold p));
            SaveData.cargoCapacity := Some (PlayerHold.capacity (Player.hold p)) |};
       SaveData.world := Some
         {| SaveData.seed := Some (GameMap.seed (map w));
            SaveData.waypoints := Some (BuildingHandler.waypoints (buildingHandler w)) |} |} in
  (true, set_localStorage (Some saveData) w).

(** [loadGame()]. *)
Definition loadGame (w : World) : option SaveData :=
  match localStorage w with
  | None => None
  | Some saveData =>
      match SaveData.version saveData, SaveData.player saveData with
      | Some v, Some _ => if String.eqb v "" then None else Some saveData
      | _, _ => None
      end
  end.

(** [applySaveData(saveData)].  Reading a field of an absent [player] or
    [world] throws; the [catch] returns [false] and keeps what was assigned
    before. *)
Definition applySaveData (saveData : SaveData) (w : World) : bool * World :=
  match SaveData.player saveData with
  | None => (false, w)
  | Some pd =>
      let w := onPlayer (Player.set_money (JS.orDefault (SaveData.money pd) 300)) w in
      let w := onPlayer (fun p =>
                 Player.set_fuel (JS.orDefault (SaveData.fuel pd) (Player.maxFuel p)) p) w in
      let w := onPlayer (Player.set_maxFuel (JS.orDefault (SaveData.maxFuel pd) 10)) w in
      let w := onPlayer (Player.set_tank (JS.orDefault (SaveData.tank pd) 0)) w in
      let w := onPlayer (Player.set_speedMultiplier
                           (JS.orDefault (SaveData.speedMultiplier pd) 1)) w in
      let w :=
        match SaveData.position pd with
        | Some pos =>
            onPlayer (fun p =>
              Player.set_tile
                (Grid.getTilePositionFromPixelPosition (grid w)
                   (Player.px pos) (Player.py pos))
                (Player.set_targetPos
                   {| Player.px := Player.px pos; Player.py := Player.py pos |}
                   (Player.set_y (Player.py pos) (Player.set_x (Player.px pos) p)))) w
        | None => w
        end in
      let w :=
        match SaveData.cargo pd with
        | Some c =>
            onPlayer (fun p =>
              Player.set_hold (PlayerHold.set_mapTiles c (Player.hold p)) p) w
        | None => w
        end in
      let w :=
        match SaveData.cargoCapacity pd with
        | Some c =>
            if JS.truthy c
            then onPlayer (fun p =>
                   Player.set_hold (PlayerHold.set_capacity c (Player.hold p)) p) w
            else w
        | None => w
        end in
      match SaveData.world saveData with
      | None => (false, w)
      | Some wd =>
          let w :=
            match SaveData.waypoints wd with
            | Some l => onHandler (BuildingHandler.set_waypoints l) w
            | None => w
            end in
          (true, PlayerMethods.updateFuel 0 w)
      end
  end.

(** Saving, then loading and applying what was stored. *)
Definition restore (w : World) : World :=
  match loadGame w with
  | Some saveData => snd (applySaveData saveData w)
  | None => w
  end.

End SaveHandler.

(** ** A session: what can happen to the world, one step at a time *)

Module Session.
Import Game.

Inductive Action :=
  | Tick (ev : PlayerMethods.TickEvent)     (* the ticker fires *)
  | Fire (i : nat)                          (* a pending timer fires *)
  | Click (answer : option string) (overlay item : nat)
                                            (* a click on a menu entry *)
  | Close                                   (* the close button, or the backdrop *)
  | Save (now : Z)                          (* [SaveHandler.saveGame] *)
  | Reload.                                 (* [loadGame] and [applySaveData] *)

Definition step (a : Action) (w : World) : World :=
  match a with
  | Tick ev => PlayerMethods.tick ev w
  | Fire i => PlayerMethods.fire i w
  | Click answer o i =>
      match BuildingHandler.overlays (buildingHandler w) !! o with
      | Some ov =>
          match BuildingHandler.items ov !! i with
          | Some item => BuildingHandlerMethods.handlePurchase answer item w
          | None => w
          end
      | None => w
      end
  | Close =>
      match BuildingHandler.overlays (buildingHandler w) with
      | [] => w
      | _ => BuildingHandlerMethods.closeUI w
      end
  | Save now => snd (SaveHandler.saveGame now w)
  | Reload => SaveHandler.restore w
  end.

Definition steps (l : list Action) (w : World) : World :=
  fold_left (fun w a => step a w) l w.

(** The worlds a session can be in. *)
Definition reachable (w : World) : Prop :=
  exists g m h l, w = steps l (init g m h).

End Session.

(** ** Sample data for the closed statements below *)

Module Example.
Import Game Player PlayerMethods Session.

(** A choice of the terrain parameters; 26.5 is the thickness the comment on
    [defaultSpeed] gives for most tiles. *)
Definition terrain : Tiles.Terrain :=
  {| Tiles.grassThickness := 26.5; Tiles.grassValue := 0;
     Tiles.dirtThickness := 26.5;  Tiles.dirtValue := 1;
     Tiles.coalThickness := 26.5;  Tiles.coalValue := 30 |}.

(** The 40 by 40 grid of 50-pixel tiles, bordered by its own extent. *)
Definition grid : Grid :=
  DisplayHandler.grid
    {| Grid.top := 0; Grid.bottom := 2000; Grid.left := 0; Grid.right := 2000 |}.

(** The map [generate] leaves on this grid: the call throws at the fuel
    station of column 25, with the surface of the columns 0 to 24 in
    place. *)
Definition plainMap : GameMap :=
  GameMap.state
    (GameMap.generate terrain grid 0 1 (fun _ _ => 1) (GameMap.new grid)).

(** A grid of 20 columns, on which [generate] runs to its end; the maps it
    returns when every draw yields coal, and when none does. *)
Definition lane : Grid :=
  {| Grid.tileSize := 50; Grid.widthGU := 20; Grid.heightGU := 40;
     Grid.borders :=
       {| Grid.top := 0; Grid.bottom := 2000; Grid.left := 0; Grid.right := 1000 |} |}.



Definition emptyHold : PlayerHold :=
  {| PlayerHold.mapTiles := []; PlayerHold.capacity := 10 |}.

(** The start of a session: the player stands at grid (20, 7). *)
Definition start : World := init grid plainMap emptyHold.

Definition hold (key : string) (d : Q) : Action :=
  Tick {| delta := d; pressedKeys := [key]; now := 0 |}.

Definition idle (d : Q) : Action :=
  Tick {| delta := d; pressedKeys := []; now := 0 |}.

Definition noKeys : TickEvent := {| delta := 16; pressedKeys := []; now := 0 |}.

(** DOWN is held for 22 ticks, which commits the move into the grass at
    (20, 8); a tick of 100 ms brings the player below the band. *)
Definition digging : World :=
  steps (repeat (hold "s" 16) 22 ++ [idle 100]) start.

(** One long tick finishes the move, mines the tile and drains the tank. *)
Definition longTick : TickEvent :=
  {| delta := 60000; pressedKeys := []; now := 0 |}.

Definition emptyTank : World := steps [Tick longTick] digging.

(** The next tick triggers the out-of-fuel handler. *)
Definition stranded : World := steps [idle 16] emptyTank.

(** A player whose tank is empty 15 pixels into the first row of the
    ground, at [y = 365]. *)
Definition aground : World :=
  onPlayer (fun p => set_fuel 0 (set_y 365 p)) start.

(** The curtain has closed: fuel is back, movement is still disabled. *)
Definition recovering : World := steps [Fire O] stranded.

(** Fifteen cells to the left along the surface, then DOWN held against the
    shop at (5, 8) until the move commits. *)
Definition atShop : World :=
  steps (repeat (hold "a" 1000) 15 ++ repeat (hold "s" 16) 6) start.

Definition pressDown : TickEvent :=
  {| delta := 16; pressedKeys := ["s"%string]; now := 0 |}.

(** The scenario of the charge example: the player rests at grid (10, 8),
    a tile of thickness 50 lies at (11, 8). *)
Definition thickTile : MapTile :=
  {| MapTile.tile := mkTile 11 8;
     MapTile.properties :=
       {| MapTile.name := "Rock"; MapTile.color := ""; MapTile.type := MapTile.DIRT;
          MapTile.thickness := 50; MapTile.value := 5;
          MapTile.interactable := false |} |}.

Definition scenario : World :=
  let m := GameMap.set_fg_tiles {[ mkTile 11 8 := thickTile ]} (GameMap.new grid) in
  let w := init grid m emptyHold in
  onPlayer (fun p =>
    set_tile (mkTile 10 8)
      (set_targetPos {| px := 500; py := 400 |} (set_y 400 (set_x 500 p)))) w.

Definition pressRight : TickEvent :=
  {| delta := 16; pressedKeys := ["ArrowRight"%string]; now := 0 |}.

(** A hold worth 50 in the hands of a player who owns 10, at the open
    selling post. *)
Definition seller : World :=
  let cargo := [ {| PlayerHold.name := "Coal"; PlayerHold.value := 50 |} ] in
  let w := onPlayer (fun p =>
             set_money 10 (set_hold (PlayerHold.set_mapTiles cargo (Player.hold p)) p))
             start in
  BuildingHandlerMethods.openSellingPost w.

Definition sellAll : BuildingHandler.UIItem :=
  {| BuildingHandler.price := 50; BuildingHandler.id := BuildingHandler.sell_all;
     BuildingHandler.highlight := true |}.

(** A player who has spent everything. *)
Definition broke : World := onPlayer (set_money 0) start.


(** A tile so thin that the drill crawls through it: at (20, 8), under the
    spawn point, in an otherwise empty map. *)
Definition thinTile : MapTile :=
  {| MapTile.tile := mkTile 20 8;
     MapTile.properties :=
       {| MapTile.name := "Silt"; MapTile.color := ""; MapTile.type := MapTile.DIRT;
          MapTile.thickness := 1 # 4; MapTile.value := 1;
          MapTile.interactable := false |} |}.

Definition thinMap : GameMap :=
  GameMap.set_fg_tiles {[ mkTile 20 8 := thinTile ]} (GameMap.new grid).

(** DOWN is held until the move into the thin tile commits; seven ticks of
    ten seconds later the player is 39 pixels into the move, still moving,
    and the tank has gone from 10 to -30/17. *)
Definition drained : World :=
  steps (repeat (hold "s" 16) 22 ++ repeat (idle 10000) 7)
    (init grid thinMap emptyHold).

(** One tick of RIGHT on the surface: the move to (21, 7) is under way. *)
Definition cruising : World := steps [hold "d" 16] start.

(** DOWN held for five ticks against the grass at (20, 8). *)
Definition charging : World := steps (repeat (hold "s" 16) 5) start.





End Example.

(** ** The notions the statements below are phrased in *)

Module Arrival.
Import Game Player PlayerMethods.

(** The cell [arrive] looks up is the one under the target. *)
Definition under (w : World) : Tile :=
  Grid.getTilePositionFromPixelPosition (grid w)
    (px (targetPos (player w))) (py (targetPos (player w))).

(** What [arrive] does to the store, the hold and the event log. *)
Definition outcome (w w' : World) (here : Tile) : Prop :=
  match GameMap.fg_tiles (map w) !! here with
  | Some maptile =>
      if MapTile.interactable (MapTile.properties maptile) then
        GameMap.fg_tiles (map w') = GameMap.fg_tiles (map w)
        /\ hold (player w') = hold (player w)
        /\ dispatched w' = dispatched w ++ [tilemove here]
      else
        GameMap.fg_tiles (map w') = delete here (GameMap.fg_tiles (map w))
        /\ PlayerHold.mapTiles (hold (player w'))
           = PlayerHold.mapTiles (hold (player w)) ++ [PlayerHold.snapshot maptile]
        /\ dispatched w' = dispatched w ++ [tiledestroy here; tilemove here]
  | None =>
      GameMap.fg_tiles (map w') = GameMap.fg_tiles (map w)
      /\ hold (player w') = hold (player w)
      /\ dispatched w' = dispatched w ++ [tilemove here]
  end.

(** The player snapped to the target and stopped, before the cell is
    looked at. *)
Definition snapped (w : World) : World :=
  onPlayer (set_tile (under w))
    (onPlayer (fun p => set_isStopping true (set_moving false p))
       (onPlayer (fun p => set_y (py (targetPos p)) (set_x (px (targetPos p)) p)) w)).

End Arrival.

Module Fuel.
Import Game Player PlayerMethods Arrival.

(** A field of the player that the movement block cannot change: neither
    burning fuel, nor advancing, nor arriving writes it. *)
Definition inert {A} (f : Player -> A) : Prop :=
  forall mt h t s m ty tx vy vx vf p,
    f (set_minetile mt (set_hold h (set_tile t (set_isStopping s (set_moving m
         (set_y ty (set_x tx (set_y vy (set_x vx (set_fuel vf p))))))))))
    = f p.

(** The tolerance band below the horizon: [horizonLine - tileSize + 5]. *)
Definition band (w : World) : Q :=
  GameMap.horizonLine (map w) - Grid.tileSize (grid w) + 5.

End Fuel.

Module Charge.
Import Game Player PlayerMethods Arrival Fuel Session.

(** The fields the bound on [charge] rests on. *)
Definition gauge (p : Player) : bool * Z * Z :=
  (tickEnabled p, chargeReq p, charge p).

(** The bound, together with what keeps it: the tick is never switched off
    and [chargeReq] stays at its initial 20. *)
Definition bounded (w : World) : Prop :=
  tickEnabled (player w) = true
  /\ chargeReq (player w) = 20%Z
  /\ (0 <= charge (player w) <= chargeReq (player w) + 1)%Z.

End Charge.

Module Push.
Import Game Player PlayerMethods Arrival Fuel Session.

(** The situation of the example: the player rests at grid (10, 8), that is
    at pixel (500, 400) on tiles of 50 pixels, may move, has fuel, and the
    cell to the right holds a tile of thickness 50. *)
Definition poised (mt : MapTile) (w : World) : Prop :=
  tickEnabled (player w) = true
  /\ canMove (player w) = true
  /\ moving (player w) = false
  /\ 0 < fuel (player w)
  /\ chargeReq (player w) = 20%Z
  /\ tile (player w) = mkTile 10 8
  /\ x (player w) == 500 /\ y (player w) == 400
  /\ px (targetPos (player w)) == 500 /\ py (targetPos (player w)) == 400
  /\ Grid.tileSize (grid w) == 50
  /\ 550 <= Grid.right (Grid.borders (grid w)) - Grid.tileSize (grid w)
  /\ GameMap.fg_tiles (map w) !! mkTile 11 8 = Some mt
  /\ MapTile.thickness (MapTile.properties mt) == 50.

(** What a tick that only charges does. *)
Definition charged (w : World) : World :=
  syncWasMoving
    (onPlayer (fun p => set_charge (charge p + 1)%Z p)
       (onPlayer (set_facingDirection RIGHT) w)).

End Push.

Module Stall.
Import Game Player PlayerMethods Arrival Fuel Session.

(** A move that cannot end: the player is moving at speed 0, short of the
    target, with fuel left and above the band where fuel is burnt. *)
Definition stalled (w : World) : Prop :=
  tickEnabled (player w) = true
  /\ moving (player w) = true
  /\ 0 < fuel (player w)
  /\ speed (player w) == 0
  /\ y (player w) <= band w
  /\ completed w = false.

End Stall.

Module Recovery.
Import Game Player PlayerMethods Arrival Fuel Session.

(** The recovery sequence is under way and waits for the callback [cb]. *)
Definition awaiting (cb : Callback) (w : World) : Prop :=
  tickEnabled (player w) = true
  /\ canMove (player w) = false
  /\ moving (player w) = false
  /\ fuelDebounce (player w) = true
  /\ timers w = [cb].

(** The schedule of a recovery: the tick that triggers it, then the three
    callbacks in turn, with any number of ticks in between. *)
Definition schedule (ev : TickEvent) (evs1 evs2 evs3 : list TickEvent)
  : list Action :=
  Tick ev :: List.map Tick evs1 ++ [Fire O]
    ++ List.map Tick evs2 ++ [Fire O]
    ++ List.map Tick evs3 ++ [Fire O].

End Recovery.

Module Selling.
Import Game Player BuildingHandler BuildingHandlerMethods Session.

(** [totalValue] is the sum of the [value] fields. *)
Fixpoint sum (l : list PlayerHold.Item) : Q :=
  match l with
  | [] => 0
  | i :: l => PlayerHold.value i + sum l
  end.

End Selling.

Module Ore.
Import GameMap MapTile Tiles.

(** The test of [shouldGenType] on a draw. *)
Definition passes (r : Q) : bool := JS.leb (r * 100) 7.5.

(** No tile of the store is coal. *)
Definition coalFree (f : gmap Tile MapTile) : Prop :=
  forall pos mt, f !! pos = Some mt -> type (properties mt) <> COAL.

(** The rows a column of the coal layer visits. *)
Definition inRows (m : GameMap) (gy : Z) : Prop :=
  (horizonLineGU m + 1 <= gy <= horizonLineGU m + 20)%Z.



(** The surface loop throws in column [i]: a building is listed for the
    column and its module hands over no class. *)
Definition throwsAt (g : Grid) (m : GameMap) (i : Z) : bool :=
  match List.find (fun b => (snd b =? i)%Z) (surfaceBuildings m) with
  | Some b =>
      match construct (fst b) with
      | Some _ => false
      | None => (i <? Grid.widthGU g)%Z
      end
  | None => false
  end.

(** The column of the grid at which [generate] throws, if there is one. *)
Definition stopsAt (g : Grid) (m : GameMap) : option Z :=
  List.find (throwsAt g m) (seqZ 0 (Grid.widthGU g)).

End Ore.

Module Lock.
Import Game Player BuildingHandler BuildingHandlerMethods PlayerMethods
  Arrival Session.


End Lock.

(** ** Notions for the further facts about movement *)

Module Motion.
Import Game Player PlayerMethods.

(** The player waits for input: a tick will read the keys. *)
Definition ready (w : World) : Prop :=
  tickEnabled (player w) = true
  /\ 0 < fuel (player w)
  /\ moving (player w) = false
  /\ canMove (player w) = true.

(** The rectangle the clamps of [tick] keep a target in. *)
Definition inBorders (g : Grid) (horizonLine : Q) (p : Pos) : Prop :=
  Grid.left (Grid.borders g) <= px p <= Grid.right (Grid.borders g) - Grid.tileSize g
  /\ horizonLine - Grid.tileSize g <= py p
     <= Grid.bottom (Grid.borders g) - Grid.tileSize g.

(** A grid whose rectangle is not empty. *)
Definition sound (g : Grid) (horizonLine : Q) : Prop :=
  0 <= Grid.tileSize g
  /\ Grid.left (Grid.borders g) <= Grid.right (Grid.borders g) - Grid.tileSize g
  /\ horizonLine - Grid.tileSize g <= Grid.bottom (Grid.borders g) - Grid.tileSize g.

(** The player stands on its target, against the border in direction [d]. *)
Definition againstBorder (d : Direction) (w : World) : Prop :=
  px (targetPos (player w)) == x (player w)
  /\ py (targetPos (player w)) == y (player w)
  /\ match d with
     | UP => y (player w) == GameMap.horizonLine (map w) - Grid.tileSize (grid w)
     | DOWN => y (player w)
               == Grid.bottom (Grid.borders (grid w)) - Grid.tileSize (grid w)
     | LEFT => x (player w) == Grid.left (Grid.borders (grid w))
     | RIGHT => x (player w)
                == Grid.right (Grid.borders (grid w)) - Grid.tileSize (grid w)
     end.

(** The player has not passed the target of the move it is making. *)
Definition shortOfTarget (w : World) : Prop :=
  match facingDirection (player w) with
  | UP => py (targetPos (player w)) <= y (player w)
  | DOWN => y (player w) <= py (targetPos (player w))
  | LEFT => px (targetPos (player w)) <= x (player w)
  | RIGHT => x (player w) <= px (targetPos (player w))
  end.

(** After [w'], the coordinate along the move lies between where it was in
    [w] and the target; the other coordinate of a player still moving is
    untouched. *)
Definition advancedTowards (w w' : World) : Prop :=
  match facingDirection (player w) with
  | UP => py (targetPos (player w)) <= y (player w') <= y (player w)
  | DOWN => y (player w) <= y (player w') <= py (targetPos (player w))
  | LEFT => px (targetPos (player w)) <= x (player w') <= x (player w)
  | RIGHT => x (player w) <= x (player w') <= px (targetPos (player w))
  end.

(** The fields a tick has no business with. *)
Definition economy (p : Player) : Q * Q * Q * Q * Q * Z :=
  (money p, maxFuel p, tank p, speedMultiplier p, defaultSpeed p, chargeReq p).

(** How many tiles the log reports destroyed. *)
Definition isDestroy (e : Event) : bool :=
  match e with tiledestroy _ => true | tilemove _ => false end.

Definition destroyed (l : list Event) : nat :=
  length (List.filter isDestroy l).

(** Where the player stands and what it owns, with the world around it:
    what a recovery from an empty tank reads and what it must not lose. *)
Definition standing (w : World)
  : Q * Q * Q * Q * PlayerHold * Pos * Direction * Tile * Grid * GameMap :=
  let p := player w in
  (x p, y p, money p, maxFuel p, hold p, targetPos p, facingDirection p, tile p,
   grid w, map w).

(** The spawn point of [resetPos]. *)
Definition spawn (w : World) : Pos :=
  {| px := inject_Z (JS.round ((inject_Z (Grid.widthGU (grid w))
                                * Grid.tileSize (grid w)) / 2));
     py := GameMap.horizonLine (map w) - Grid.tileSize (grid w) |}.

End Motion.

(** ** Notions for the further facts about the generated map *)

Module Layout.
Import GameMap MapTile Tiles.

(** What the surface loop puts in column [i]: the first building listed for
    the column, if its module hands over a class, and grass when no building
    is listed. *)
Definition surfaceTile (T : Terrain) (m : GameMap) (i : Z) : option MapTile :=
  let pos := mkTile i (horizonLineGU m) in
  match List.find (fun b => (snd b =? i)%Z) (surfaceBuildings m) with
  | Some b => (fun mk => mk pos) <$> construct (fst b)
  | None => Some (Grass T pos)
  end.

(** The columns of the grid. *)
Definition inColumns (g : Grid) (pos : Tile) : Prop :=
  (0 <= gX pos < Grid.widthGU g)%Z.

(** The fields of the map the loops of [generate] leave alone. *)
Definition header (m : GameMap) : Z * Q * Z * list (Building * Z) :=
  (horizonLineGU m, horizonLine m, seed m, surfaceBuildings m).

End Layout.

(** ** Notions for the further facts about the building menus *)

Module Menu.
Import Game BuildingHandler BuildingHandlerMethods.

(** At most one menu is on screen, and then [currentUI] says so. *)
Definition tidy (w : World) : Prop :=
  (length (overlays (buildingHandler w)) <= 1)%nat
  /\ (overlays (buildingHandler w) <> [] -> isOpen w = true).

(** No menu is on screen and none is flagged. *)
Definition closed (w : World) : Prop :=
  overlays (buildingHandler w) = [] /\ isOpen w = false.

(** The entry of [itemCounts] under a name. *)
Definition entry (k : string) (ic : list (string * (Z * Q))) : option (Z * Q) :=
  snd <$> List.find (fun e => String.eqb (fst e) k) ic.

(** The items of the cargo that carry a name, in their order. *)
Definition named (k : string) (l : list PlayerHold.Item) : list PlayerHold.Item :=
  List.filter (fun i => String.eqb (PlayerHold.name i) k) l.

(** The items whose name is not one of the inherited properties. *)
Definition own (l : list PlayerHold.Item) : list PlayerHold.Item :=
  List.filter (fun i => negb (JS.inherited (PlayerHold.name i))) l.

(** The sum of the counts of [itemCounts]. *)
Definition counted (ic : list (string * (Z * Q))) : Z :=
  fold_right (fun e s => (fst (snd e) + s)%Z) 0%Z ic.

(** The price the fuel station asks: 2 coins per unit, rounded up. *)
Definition refuelCost (w : World) : Q :=
  inject_Z (JS.ceil ((Player.maxFuel (player w) - Player.fuel (player w)) * 2)).

End Menu.

(** ** The rest of the save handler (src/Handler/SaveHandler.js) *)

Module Storage.
Import Game.

(** [hasSaveFile()]. *)
Definition hasSaveFile (w : World) : bool :=
  match localStorage w with Some _ => true | None => false end.

(** [deleteSave()]. *)
Definition deleteSave (w : World) : World := set_localStorage None w.

(** [autoLoad()]: the record whose application it hands to [setTimeout],
    if any. *)
Definition autoLoad (w : World) : option SaveData :=
  if hasSaveFile w then SaveHandler.loadGame w else None.

(** The body of the callback of [autoLoad]. *)
Definition autoLoaded (saveData : SaveData) (w : World) : World :=
  BuildingHandlerMethods.showMessage
    (BuildingHandler.Text "Game loaded successfully!")
    (snd (SaveHandler.applySaveData saveData w)).

(** A record with another seed. *)
Definition withSeed (s : option Z) (saveData : SaveData) : SaveData :=
  {| SaveData.version := SaveData.version saveData;
     SaveData.timestamp := SaveData.timestamp saveData;
     SaveData.player := SaveData.player saveData;
     SaveData.world :=
       match SaveData.world saveData with
       | Some wd => Some {| SaveData.seed := s;
                            SaveData.waypoints := SaveData.waypoints wd |}
       | None => None
       end |}.

End Storage.

(** ** Handler/DisplayHandler.js: the floating texts *)

Module FloatingTexts.

(** A [createjs.Text] as far as [DisplayHandler] reads and writes it. *)
Record Text := { value : string; color : string; x : Q; y : Q; alpha : Q }.

(** The two assignments [tick] makes to a text. *)
Definition drift (delta : Q) (t : Text) : Text :=
  {| value := value t; color := color t; x := x t;
     y := y t - 100 * (delta / 1000);
     alpha := alpha t - 0.005 |}.

(** The body of the loop of [tick] at index [i]: the text is updated in
    place and, once faded, spliced out of [floatingTexts].  The stage the
    text is also removed from is not modelled. *)
Definition visit (delta : Q) (i : nat) (l : list Text) : list Text :=
  match l !! i with
  | Some t =>
      let t' := drift delta t in
      if JS.leb (alpha t') 0.05 then delete i l else <[i := t']> l
  | None => l
  end.

(** [for (let i = n - 1; i >= 0; i--)]. *)
Fixpoint loop (delta : Q) (n : nat) (l : list Text) : list Text :=
  match n with
  | O => l
  | S i => loop delta i (visit delta i l)
  end.

(** [tick(event)] on [floatingTexts]. *)
Definition tick (delta : Q) (l : list Text) : list Text :=
  loop delta (length l) l.

(** The test a text survives. *)
Definition visible (t : Text) : bool := negb (JS.leb (alpha t) 0.05).

End FloatingTexts.

(** * Facts *)

(** ** Comparisons of numbers *)

Module JSFacts.
Import JS.

Lemma leb_true a b : leb a b = true <-> a <= b.
Proof. apply Qle_bool_iff. Qed.

Lemma leb_false a b : leb a b = false <-> b < a.
Proof.
  unfold leb. split; intros H.
  - apply Qnot_le_lt. intros Hle. apply Qle_bool_iff in Hle. congruence.
  - destruct (Qle_bool a b) eqn:E; [|reflexivity].
    apply Qle_bool_iff in E. lra.
Qed.

Lemma ltb_true a b : ltb a b = true <-> a < b.
Proof. unfold ltb. rewrite negb_true_iff. apply leb_false. Qed.

Lemma ltb_false a b : ltb a b = false <-> b <= a.
Proof. unfold ltb. rewrite negb_false_iff. apply leb_true. Qed.

Lemma eqb_true a b : eqb a b = true <-> a == b.
Proof. apply Qeq_bool_iff. Qed.

Lemma eqb_false a b : eqb a b = false <-> ~ a == b.
Proof.
  unfold eqb. split; intros H.
  - intros E. apply Qeq_bool_iff in E. congruence.
  - destruct (Qeq_bool a b) eqn:E; [|reflexivity].
    apply Qeq_bool_iff in E. contradiction.
Qed.

End JSFacts.

(** Case analysis on every test a goal branches on. *)
Ltac split_ifs :=
  repeat match goal with
  | |- context [if ?c then _ else _] => destruct c
  | |- context [match ?x with _ => _ end] => destruct x
  end.

(** Linear arithmetic over [Q] once divisions by constants are computed. *)
Ltac qlra := unfold Qdiv in *; cbn [Qinv Qnum Qden] in *; lra.

(** ** What each method leaves alone *)

Module Frame.
Import Game Player PlayerMethods BuildingHandlerMethods.

(** Reading a component of an updated world.  These are used as rewrite
    rules, so that no proof rests on unfolding the world underneath. *)
Lemma onPlayer_player f w : player (onPlayer f w) = f (player w).
Proof. reflexivity. Qed.
Lemma onPlayer_map f w : map (onPlayer f w) = map w.
Proof. reflexivity. Qed.
Lemma onPlayer_grid f w : grid (onPlayer f w) = grid w.
Proof. reflexivity. Qed.
Lemma onPlayer_dispatched f w : dispatched (onPlayer f w) = dispatched w.
Proof. reflexivity. Qed.
Lemma onPlayer_timers f w : timers (onPlayer f w) = timers w.
Proof. reflexivity. Qed.
Lemma onPlayer_buildingHandler f w :
  buildingHandler (onPlayer f w) = buildingHandler w.
Proof. reflexivity. Qed.
Lemma onMap_player f w : player (onMap f w) = player w.
Proof. reflexivity. Qed.
Lemma onMap_map f w : map (onMap f w) = f (map w).
Proof. reflexivity. Qed.
Lemma onMap_grid f w : grid (onMap f w) = grid w.
Proof. reflexivity. Qed.
Lemma onMap_dispatched f w : dispatched (onMap f w) = dispatched w.
Proof. reflexivity. Qed.

Lemma onMap_buildingHandler f w :
  buildingHandler (onMap f w) = buildingHandler w.
Proof. reflexivity. Qed.
Lemma onHandler_player f w : player (onHandler f w) = player w.
Proof. reflexivity. Qed.
Lemma onHandler_buildingHandler f w :
  buildingHandler (onHandler f w) = f (buildingHandler w).
Proof. reflexivity. Qed.
Lemma set_timers_player t w : player (set_timers t w) = player w.
Proof. reflexivity. Qed.
Lemma set_timers_timers t w : timers (set_timers t w) = t.
Proof. reflexivity. Qed.
Lemma set_timers_grid t w : grid (set_timers t w) = grid w.
Proof. reflexivity. Qed.
Lemma set_timers_map t w : map (set_timers t w) = map w.
Proof. reflexivity. Qed.
Lemma set_timers_buildingHandler t w :
  buildingHandler (set_timers t w) = buildingHandler w.
Proof. reflexivity. Qed.
Lemma set_player_buildingHandler p w :
  buildingHandler (set_player p w) = buildingHandler w.
Proof. reflexivity. Qed.
Lemma set_player_timers p w : timers (set_player p w) = timers w.
Proof. reflexivity. Qed.
Lemma set_player_player p w : player (set_player p w) = p.
Proof. reflexivity. Qed.
Lemma set_localStorage_buildingHandler s w :
  buildingHandler (set_localStorage s w) = buildingHandler w.
Proof. reflexivity. Qed.

Ltac proj :=
  rewrite ?onPlayer_player, ?onPlayer_map, ?onPlayer_grid, ?onPlayer_dispatched,
    ?onPlayer_timers, ?onPlayer_buildingHandler,
    ?onMap_player, ?onMap_map, ?onMap_grid, ?onMap_dispatched,
    ?onMap_buildingHandler, ?onHandler_player, ?onHandler_buildingHandler,
    ?set_timers_player, ?set_timers_timers, ?set_timers_grid, ?set_timers_map,
    ?set_timers_buildingHandler, ?set_player_buildingHandler,
    ?set_player_timers, ?set_player_player, ?set_localStorage_buildingHandler.

(** The listener of [tilemove] touches the building handler and the storage
    only. *)
Lemma onPlayerMove_shape now detail w :
  onPlayerMove now detail w =
    set_localStorage (localStorage (onPlayerMove now detail w))
      (set_buildingHandler (buildingHandler (onPlayerMove now detail w)) w).
Proof.
  destruct w.
  unfold onPlayerMove, handleBuildingInteraction, openShop, saveGame,
    openSellingPost, openFuelStation, openTeleporter, createUI, showMessage,
    onHandler.
  split_ifs; reflexivity.
Qed.

Lemma dispatchEvent_shape now e w :
  dispatchEvent now e w =
    set_localStorage (localStorage (dispatchEvent now e w))
      (set_buildingHandler (buildingHandler (dispatchEvent now e w))
        (set_dispatched (dispatched w ++ [e]) w)).
Proof.
  unfold dispatchEvent. destruct e.
  - rewrite onPlayerMove_shape at 1. reflexivity.
  - destruct w; reflexivity.
Qed.

Lemma input_shape keys w :
  input keys w = set_player (player (input keys w)) w.
Proof.
  destruct w. unfold input, kpCharge, logic, onPlayer.
  split_ifs; reflexivity.
Qed.

Lemma burn_shape d w :
  burn d w = onPlayer (set_fuel (fuel (player (burn d w)))) w.
Proof.
  destruct w as [? ? [] ? ? ? ?]. unfold burn, updateFuel, onPlayer.
  split_ifs; reflexivity.
Qed.

Lemma advance_shape d w :
  advance d w =
    onPlayer (fun p => set_y (y (player (advance d w)))
                         (set_x (x (player (advance d w))) p)) w.
Proof.
  destruct w as [? ? [] ? ? ? ?]. unfold advance, onPlayer.
  split_ifs; reflexivity.
Qed.

Lemma syncWasMoving_shape w :
  syncWasMoving w =
    onPlayer (set_wasMoving (wasMoving (player (syncWasMoving w)))) w.
Proof.
  destruct w as [? ? [] ? ? ? ?]. unfold syncWasMoving, onPlayer.
  split_ifs; reflexivity.
Qed.

Lemma outOfFuel_shape w :
  outOfFuel w =
    set_timers (timers (outOfFuel w)) (set_player (player (outOfFuel w)) w).
Proof.
  destruct w. unfold outOfFuel, DisplayHandler.fade, onPlayer.
  split_ifs; reflexivity.
Qed.

(** Reading the input changes neither fuel, cargo nor position. *)
Lemma input_fuel keys w : fuel (player (input keys w)) = fuel (player w).
Proof. unfold input, kpCharge, logic, onPlayer. split_ifs; reflexivity. Qed.

Lemma input_hold keys w : hold (player (input keys w)) = hold (player w).
Proof. unfold input, kpCharge, logic, onPlayer. split_ifs; reflexivity. Qed.

Lemma input_y keys w : y (player (input keys w)) = y (player w).
Proof. unfold input, kpCharge, logic, onPlayer. split_ifs; reflexivity. Qed.

Lemma input_x keys w : x (player (input keys w)) = x (player w).
Proof. unfold input, kpCharge, logic, onPlayer. split_ifs; reflexivity. Qed.

Lemma input_moving keys w :
  moving (player w) = true -> input keys w = w.
Proof. intros H. unfold input. rewrite H. reflexivity. Qed.

End Frame.

(** ** Arrival: mining, visiting a building, entering an empty cell *)

Module ArrivalFacts.
Import Game Player PlayerMethods Frame Arrival.

Lemma dispatchEvent_map now e w : map (dispatchEvent now e w) = map w.
Proof. rewrite dispatchEvent_shape. reflexivity. Qed.

Lemma dispatchEvent_player now e w : player (dispatchEvent now e w) = player w.
Proof. rewrite dispatchEvent_shape. reflexivity. Qed.

Lemma dispatchEvent_dispatched now e w :
  dispatched (dispatchEvent now e w) = dispatched w ++ [e].
Proof. rewrite dispatchEvent_shape. reflexivity. Qed.

Lemma arrive_unfold now w :
  arrive now w =
    match GameMap.fg_tiles (map w) !! under w with
    | Some maptile =>
        if MapTile.interactable (MapTile.properties maptile) then
          dispatchEvent now (tilemove (under w)) (snapped w)
        else
          dispatchEvent now (tilemove (under w))
            (onPlayer (set_minetile None)
               (dispatchEvent now (tiledestroy (under w))
                  (onMap (fun m =>
                            GameMap.set_fg_tiles
                              (delete (under w) (GameMap.fg_tiles m)) m)
                     (onPlayer (fun p =>
                                  set_hold (PlayerHold.addMapTile maptile (hold p)) p)
                        (snapped w)))))
    | None => dispatchEvent now (tilemove (under w)) (snapped w)
    end.
Proof. reflexivity. Qed.

Ltac frame_dispatch :=
  rewrite ?dispatchEvent_map, ?dispatchEvent_player, ?dispatchEvent_dispatched.

Lemma arrive_outcome now w : outcome w (arrive now w) (under w).
Proof.
  unfold outcome. rewrite arrive_unfold.
  destruct (GameMap.fg_tiles (map w) !! under w) as [maptile|].
  - destruct (MapTile.interactable (MapTile.properties maptile)).
    + frame_dispatch. repeat split.
    + frame_dispatch. proj. frame_dispatch. proj.
      repeat split. rewrite <- app_assoc. reflexivity.
  - frame_dispatch. repeat split.
Qed.

Lemma outcome_sync w w' here :
  outcome w w' here -> outcome w (syncWasMoving w') here.
Proof.
  unfold outcome. rewrite (syncWasMoving_shape w'). cbn.
  destruct (GameMap.fg_tiles (map w) !! here) as [mt|]; [|tauto].
  destruct (MapTile.interactable _); tauto.
Qed.

(** Burning fuel and advancing keep the store, the hold, the log and the
    target. *)
Lemma travel_frame d w :
  let w' := advance d (burn d w) in
  grid w' = grid w /\ map w' = map w /\ dispatched w' = dispatched w
  /\ hold (player w') = hold (player w)
  /\ targetPos (player w') = targetPos (player w).
Proof.
  cbn. rewrite advance_shape, burn_shape. cbn. auto.
Qed.

(** C1.  Whenever a tick runs the completion block: a mineable tile under
    the target is deleted from [fg_tiles], one snapshot of it is appended to
    the hold, and [tiledestroy] then [tilemove] are dispatched; a building
    stays in the store and only [tilemove] is dispatched; on an empty cell
    the store is unchanged and only [tilemove] is dispatched. *)
Theorem arrival_mines_or_visits ev w :
  arrives ev w = true ->
  outcome w (tick ev w) (destination ev w).
Proof.
  unfold arrives. rewrite !andb_true_iff, !negb_true_iff.
  intros [[Hen Hfuel] [[Hmov Hfuel1] Hdone]].
  unfold tick. rewrite Hen, Hfuel. cbn [negb].
  rewrite Hmov, Hfuel1. unfold move. rewrite Hdone.
  apply outcome_sync.
  set (w1 := input (pressedKeys ev) w) in *.
  set (w2 := advance (delta ev) (burn (delta ev) w1)) in *.
  destruct (travel_frame (delta ev) w1) as (Hg & Hm & Hd & Hh & Ht).
  fold w2 in Hg, Hm, Hd, Hh, Ht.
  assert (Hw1 : grid w1 = grid w /\ map w1 = map w /\ dispatched w1 = dispatched w).
  { unfold w1. rewrite input_shape. cbn. auto. }
  destruct Hw1 as (Hg1 & Hm1 & Hd1).
  assert (Hh1 : hold (player w1) = hold (player w)) by apply input_hold.
  pose proof (arrive_outcome (now ev) w2) as Hout.
  assert (Hu : under w2 = destination ev w).
  { unfold under, destination. fold w1. rewrite Hg, Ht, Hg1. reflexivity. }
  rewrite Hu in Hout. unfold outcome in *.
  rewrite Hm, Hd, Hh, Hm1, Hd1, Hh1 in Hout. exact Hout.
Qed.

(** The long tick of the sample run ends the move into the grass at
    (20, 8). *)
Lemma arrival_mines_or_visits_witness :
  outcome Example.digging (tick Example.longTick Example.digging)
    (destination Example.longTick Example.digging).
Proof.
  apply arrival_mines_or_visits. vm_compute. reflexivity.
Defined.

End ArrivalFacts.

(** ** Fuel *)

Module FuelFacts.
Import Game Player PlayerMethods Frame Arrival ArrivalFacts JSFacts Fuel.

(** The player [arrive] leaves behind: snapped to the target, stopped, and,
    after mining, with a longer hold and no [minetile]. *)
Lemma arrive_player now w :
  exists mt h,
    player (arrive now w) = set_minetile mt (set_hold h (player (snapped w))).
Proof.
  rewrite arrive_unfold.
  assert (Heta : player (snapped w) =
                 set_minetile (minetile (player w))
                   (set_hold (hold (player w)) (player (snapped w)))).
  { unfold snapped. proj. destruct (player w). reflexivity. }
  destruct (GameMap.fg_tiles (map w) !! under w) as [maptile|].
  - destruct (MapTile.interactable (MapTile.properties maptile)).
    + frame_dispatch. eexists _, _. exact Heta.
    + frame_dispatch. proj. frame_dispatch. proj.
      eexists _, _. reflexivity.
  - frame_dispatch. eexists _, _. exact Heta.
Qed.

Lemma move_shape ev w :
  exists mt h t s m ty tx vy vx vf,
    player (move ev w) =
      set_minetile mt (set_hold h (set_tile t (set_isStopping s (set_moving m
        (set_y ty (set_x tx (set_y vy (set_x vx (set_fuel vf (player w)))))))))).
Proof.
  unfold move.
  set (w1 := burn (delta ev) w).
  set (w2 := advance (delta ev) w1).
  assert (H2 : player w2 =
               set_y (y (player w2)) (set_x (x (player w2))
                 (set_fuel (fuel (player w1)) (player w)))).
  { unfold w2. rewrite advance_shape. proj.
    unfold w1. rewrite burn_shape. proj. reflexivity. }
  destruct (completed w2).
  - destruct (arrive_player (now ev) w2) as (mt & h & ->).
    unfold snapped. proj. rewrite H2.
    eexists _, _, _, _, _, _, _, _, _, _. reflexivity.
  - exists (minetile (player w)), (hold (player w)), (tile (player w)),
      (isStopping (player w)), (moving (player w)),
      (y (player w2)), (x (player w2)),
      (y (player w2)), (x (player w2)), (fuel (player w1)).
    rewrite H2. destruct (player w). reflexivity.
Qed.

Lemma move_inert {A} (f : Player -> A) ev w :
  inert f -> f (player (move ev w)) = f (player w).
Proof.
  intros Hf.
  destruct (move_shape ev w)
    as (mt & h & t & s & m & ty & tx & vy & vx & vf & ->).
  apply Hf.
Qed.

Ltac inert := unfold inert; intros; reflexivity.

Lemma move_fuel ev w :
  fuel (player (move ev w)) = fuel (player (burn (delta ev) w)).
Proof.
  unfold move. destruct (completed _).
  - destruct (arrive_player (now ev) (advance (delta ev) (burn (delta ev) w)))
      as (mt & h & ->).
    unfold snapped. proj. rewrite advance_shape. proj. reflexivity.
  - rewrite advance_shape. proj. reflexivity.
Qed.

Lemma syncWasMoving_fuel w : fuel (player (syncWasMoving w)) = fuel (player w).
Proof. rewrite syncWasMoving_shape. reflexivity. Qed.

Lemma outOfFuel_fuel w : fuel (player (outOfFuel w)) = fuel (player w).
Proof. unfold outOfFuel. destruct (fuelDebounce (player w)); reflexivity. Qed.

Lemma burn_below d w :
  band w < y (player w) ->
  fuel (player (burn d w)) =
    match minetile (player w) with
    | Some _ => fuel (player w) + - (1 / 5100) * d
    | None => fuel (player w) + - (1 / 7000) * d
    end.
Proof.
  intros H. unfold burn. fold (band w).
  apply ltb_true in H. rewrite H.
  destruct (minetile (player w)); reflexivity.
Qed.

Lemma burn_above d w :
  y (player w) <= band w -> burn d w = w.
Proof.
  intros H. unfold burn. fold (band w).
  apply ltb_false in H. rewrite H. reflexivity.
Qed.

Lemma input_band keys w : band (input keys w) = band w.
Proof. unfold band. rewrite input_shape. reflexivity. Qed.

(** A tank that has run dry in the middle of a move: in the world
    [Example.drained] of a session the player is moving at [y = 388.8...],
    below the band at 355, with [fuel = -30/17]; the next tick returns
    through [outOfFuel] and the fuel is what it was. *)
Lemma empty_tank_is_not_drained :
  ~ (forall ev w,
       Session.reachable w ->
       moving (player w) = true ->
       0 < delta ev ->
       band w < y (player w) ->
       fuel (player (tick ev w)) < fuel (player w)).
Proof.
  intros H.
  assert (Hr : Session.reachable Example.drained).
  { eexists _, _, _, _. reflexivity. }
  assert (Hm : moving (player Example.drained) = true)
    by (vm_compute; reflexivity).
  assert (Hd : 0 < delta Example.noKeys) by (vm_compute; reflexivity).
  assert (Hy : band Example.drained < y (player Example.drained))
    by (vm_compute; reflexivity).
  assert (Hf : fuel (player (tick Example.noKeys Example.drained))
               = fuel (player Example.drained))
    by (vm_compute; reflexivity).
  specialize (H Example.noKeys Example.drained Hr Hm Hd Hy).
  rewrite Hf in H. exact (Qlt_irrefl _ H).
Qed.

(** C2, amended.  On a tick that is processed and finds fuel in the tank
    ([0 < fuel]), with the player moving once the input is read and below
    the band, fuel drops by [delta/5100] when a tile is being mined and by
    [delta/7000] otherwise, a strict decrease for a positive [delta].  A
    tick that finds the tank empty ([fuel <= 0]) leaves the fuel as it is,
    moving or not, below the band or not; and so does any tick with the
    player at or above the band. *)
Theorem fuel_drain ev w :
  (tickEnabled (player w) = true ->
   0 < fuel (player w) ->
   moving (player (input (pressedKeys ev) w)) = true ->
   0 < delta ev ->
   band w < y (player w) ->
     let w1 := input (pressedKeys ev) w in
     (minetile (player w1) <> None ->
        fuel (player (tick ev w)) == fuel (player w) - (1 / 5100) * delta ev)
     /\ (minetile (player w1) = None ->
        fuel (player (tick ev w)) == fuel (player w) - (1 / 7000) * delta ev)
     /\ fuel (player (tick ev w)) < fuel (player w))
  /\ (fuel (player w) <= 0 ->
        fuel (player (tick ev w)) = fuel (player w))
  /\ (y (player w) <= band w ->
        fuel (player (tick ev w)) = fuel (player w)).
Proof.
  split; [|split].
  - intros Hen Hfuel Hmov Hd Hy. cbn zeta.
    apply leb_false in Hfuel.
    assert (Hf : fuel (player (tick ev w)) =
                 fuel (player (burn (delta ev) (input (pressedKeys ev) w)))).
    { unfold tick. rewrite Hen, Hfuel. cbn [negb]. rewrite Hmov.
      rewrite input_fuel, Hfuel.
      rewrite syncWasMoving_fuel. apply move_fuel. }
    rewrite Hf, burn_below
      by (rewrite input_band, input_y; exact Hy).
    rewrite input_fuel.
    destruct (minetile (player (input (pressedKeys ev) w))) as [mt|].
    + repeat split; [intros _; qlra | congruence | qlra].
    + repeat split; [congruence | intros _; qlra | qlra].
  - intros Hfuel. apply leb_true in Hfuel. unfold tick.
    destruct (tickEnabled (player w)); [|reflexivity]. cbn [negb].
    rewrite Hfuel. apply outOfFuel_fuel.
  - intros Hy. unfold tick.
    destruct (tickEnabled (player w)); [|reflexivity]. cbn [negb].
    destruct (JS.leb (fuel (player w)) 0); [apply outOfFuel_fuel|].
    destruct (moving (player (input (pressedKeys ev) w))).
    + destruct (JS.leb _ 0).
      * rewrite outOfFuel_fuel. apply input_fuel.
      * rewrite syncWasMoving_fuel, move_fuel, burn_above.
        -- apply input_fuel.
        -- rewrite input_band, input_y. exact Hy.
    + rewrite syncWasMoving_fuel. apply input_fuel.
Qed.

(** The long tick of the sample run, below the band while mining; a tick
    of the player caught moving with an empty tank; and a tick of a move
    along the surface, above the band. *)
Lemma fuel_drain_witness :
  (moving (player Example.digging) = true
   /\ fuel (player (tick Example.longTick Example.digging))
      < fuel (player Example.digging))
  /\ (moving (player Example.drained) = true
      /\ fuel (player (tick Example.noKeys Example.drained))
         = fuel (player Example.drained))
  /\ (moving (player Example.cruising) = true
      /\ fuel (player (tick Example.noKeys Example.cruising))
         = fuel (player Example.cruising)).
Proof.
  split; [|split].
  - split; [vm_compute; reflexivity|].
    refine (proj2 (proj2
      (proj1 (fuel_drain Example.longTick Example.digging) _ _ _ _ _)));
      vm_compute; reflexivity.
  - split; [vm_compute; reflexivity|].
    apply (proj1 (proj2 (fuel_drain Example.noKeys Example.drained))).
    vm_compute. discriminate.
  - split; [vm_compute; reflexivity|].
    apply (proj2 (proj2 (fuel_drain Example.noKeys Example.cruising))).
    vm_compute. discriminate.
Defined.

End FuelFacts.

(** ** The charge counter *)

Module ChargeFacts.
Import Game Player PlayerMethods Frame Arrival ArrivalFacts Fuel FuelFacts
  JSFacts Session Charge.

Lemma outOfFuel_gauge w : gauge (player (outOfFuel w)) = gauge (player w).
Proof. unfold outOfFuel. destruct (fuelDebounce (player w)); reflexivity. Qed.

Lemma move_gauge ev w : gauge (player (move ev w)) = gauge (player w).
Proof. apply (move_inert gauge). inert. Qed.

Lemma syncWasMoving_gauge w : gauge (player (syncWasMoving w)) = gauge (player w).
Proof. rewrite syncWasMoving_shape. reflexivity. Qed.

Lemma logic_gauge d mt w : gauge (player (logic d mt w)) = gauge (player w).
Proof. unfold logic, onPlayer. split_ifs; reflexivity. Qed.

Lemma fire_gauge i w : gauge (player (fire i w)) = gauge (player w).
Proof.
  unfold fire. destruct (timers w !! i) as [[]|]; reflexivity.
Qed.

Lemma handlePurchase_gauge answer item w :
  gauge (player (BuildingHandlerMethods.handlePurchase answer item w))
  = gauge (player w).
Proof.
  unfold BuildingHandlerMethods.handlePurchase. split_ifs; reflexivity.
Qed.

Lemma applySaveData_gauge sd w :
  gauge (player (snd (SaveHandler.applySaveData sd w))) = gauge (player w).
Proof.
  unfold SaveHandler.applySaveData. split_ifs; reflexivity.
Qed.

Lemma bounded_gauge w w' :
  gauge (player w') = gauge (player w) -> bounded w -> bounded w'.
Proof.
  unfold gauge, bounded. intros E. injection E as -> -> ->. auto.
Qed.

Lemma kpCharge_bounded d mt w :
  bounded w -> bounded (kpCharge mt (logic d mt) w).
Proof.
  intros Hb. unfold kpCharge.
  set (w1 := match mt with
             | Some _ => if (chargeReq (player w) <? charge (player w))%Z
                         then logic d mt w else w
             | None => logic d mt w
             end).
  assert (Hb1 : bounded w1).
  { unfold w1. destruct mt; [destruct (_ <? _)%Z|]; auto;
      eapply bounded_gauge; eauto using logic_gauge. }
  destruct (charge (player w1) <=? chargeReq (player w1))%Z eqn:E; [|exact Hb1].
  apply Z.leb_le in E. destruct Hb1 as (? & ? & ?).
  unfold bounded. cbn. repeat split; auto; lia.
Qed.

Lemma input_bounded keys w : bounded w -> bounded (input keys w).
Proof.
  intros Hb. unfold input.
  destruct (negb (moving (player w)) && canMove (player w)); [|exact Hb].
  destruct (checkDirection keys) as [d|].
  - apply kpCharge_bounded. exact Hb.
  - assert (Hb0 : bounded (if (0 <? charge (player w))%Z
                           then onPlayer (set_charge 0%Z) w else w)).
    { destruct (0 <? charge (player w))%Z; [|exact Hb].
      destruct Hb as (? & ? & ?). unfold bounded. cbn. repeat split; auto; lia. }
    destruct (isStopping _); [|exact Hb0].
    eapply bounded_gauge; [|exact Hb0]. reflexivity.
Qed.

Lemma tick_bounded ev w : bounded w -> bounded (tick ev w).
Proof.
  intros Hb. unfold tick.
  destruct (negb (tickEnabled (player w))); [exact Hb|].
  destruct (JS.leb (fuel (player w)) 0).
  { eapply bounded_gauge; [apply outOfFuel_gauge|exact Hb]. }
  pose proof (input_bounded (pressedKeys ev) w Hb) as Hb1.
  destruct (moving (player (input (pressedKeys ev) w))).
  - destruct (JS.leb _ 0).
    + eapply bounded_gauge; [apply outOfFuel_gauge|exact Hb1].
    + eapply bounded_gauge; [|exact Hb1].
      rewrite syncWasMoving_gauge. apply move_gauge.
  - eapply bounded_gauge; [apply syncWasMoving_gauge|exact Hb1].
Qed.

Lemma step_bounded a w : bounded w -> bounded (step a w).
Proof.
  intros Hb. destruct a as [ev|i|answer o i| |now|]; cbn [step].
  - apply tick_bounded, Hb.
  - eapply bounded_gauge; [apply fire_gauge|exact Hb].
  - destruct (_ !! o) as [ov|]; [|exact Hb].
    destruct (_ !! i) as [item|]; [|exact Hb].
    eapply bounded_gauge; [apply handlePurchase_gauge|exact Hb].
  - destruct (BuildingHandler.overlays _); exact Hb.
  - exact Hb.
  - unfold SaveHandler.restore. destruct (SaveHandler.loadGame w); [|exact Hb].
    eapply bounded_gauge; [apply applySaveData_gauge|exact Hb].
Qed.

Lemma init_bounded g m h : bounded (init g m h).
Proof. unfold bounded. cbn. repeat split; lia. Qed.

Lemma steps_bounded l : forall w, bounded w -> bounded (steps l w).
Proof.
  induction l as [|a l IH]; intros w Hb; cbn.
  - exact Hb.
  - apply IH, step_bounded, Hb.
Qed.

Lemma reachable_bounded w : reachable w -> bounded w.
Proof.
  intros (g & m & h & l & ->). apply steps_bounded, init_bounded.
Qed.

Lemma reachable_init g m h : reachable (init g m h).
Proof. exists g, m, h, []. reflexivity. Qed.

Lemma reachable_steps l w : reachable w -> reachable (steps l w).
Proof.
  intros (g & m & h & l0 & ->). exists g, m, h, (l0 ++ l).
  unfold steps. rewrite fold_left_app. reflexivity.
Qed.

Lemma reachable_recovering : reachable Example.recovering.
Proof. repeat apply reachable_steps. apply reachable_init. Qed.

(** While movement is disabled the counter keeps its value: after the
    out-of-fuel handler has refilled the tank, a tick without any key leaves
    the charge at 21. *)
Lemma charge_kept_while_recovering :
  ~ (forall ev w,
       reachable w ->
       checkDirection (pressedKeys ev) = None ->
       moving (player w) = false ->
       charge (player (tick ev w)) = 0%Z).
Proof.
  intros H.
  assert (Hk : checkDirection (pressedKeys Example.noKeys) = None)
    by (vm_compute; reflexivity).
  assert (Hm : moving (player Example.recovering) = false)
    by (vm_compute; reflexivity).
  assert (Hc : charge (player (tick Example.noKeys Example.recovering)) = 21%Z)
    by (vm_compute; reflexivity).
  specialize (H Example.noKeys Example.recovering reachable_recovering Hk Hm).
  rewrite Hc in H. discriminate H.
Qed.

(** C3, amended.  In every reachable world the charge is at most
    [chargeReq + 1]; on a tick that is processed (fuel is left) where no
    direction key is pressed, the player is not moving and movement is
    enabled ([canMove]), the charge is reset to 0. *)
Theorem charge_bounded_and_reset :
  (forall w, reachable w ->
     (charge (player w) <= chargeReq (player w) + 1)%Z)
  /\ (forall ev w,
        reachable w ->
        0 < fuel (player w) ->
        checkDirection (pressedKeys ev) = None ->
        moving (player w) = false ->
        canMove (player w) = true ->
        charge (player (tick ev w)) = 0%Z).
Proof.
  split.
  - intros w Hr. apply reachable_bounded in Hr. destruct Hr as (_ & _ & ?). lia.
  - intros ev w Hr Hfuel Hkeys Hmov Hcan.
    apply reachable_bounded in Hr. destruct Hr as (Hen & _ & Hc).
    apply leb_false in Hfuel.
    unfold tick. rewrite Hen, Hfuel. cbn [negb].
    assert (Hin : input (pressedKeys ev) w =
                  let w := if (0 <? charge (player w))%Z
                           then onPlayer (set_charge 0%Z) w else w in
                  if isStopping (player w)
                  then onPlayer (set_isStopping false) w else w).
    { unfold input. rewrite Hmov, Hcan, Hkeys. reflexivity. }
    rewrite Hin. cbn zeta.
    destruct (0 <? charge (player w))%Z eqn:E.
    + destruct (isStopping _); cbn; rewrite Hmov;
        rewrite syncWasMoving_shape; reflexivity.
    + apply Z.ltb_ge in E.
      destruct (isStopping _); cbn; rewrite Hmov;
        rewrite syncWasMoving_shape; cbn; lia.
Qed.

Lemma reachable_charging : reachable Example.charging.
Proof. apply reachable_steps, reachable_init. Qed.

(** The bound where it is met, with the charge at 21 after the move into
    the ground has committed; and the reset of a charge of 5, built up by
    five ticks of DOWN against the grass. *)
Lemma charge_bounded_and_reset_witness :
  (charge (player Example.recovering) = 21%Z
   /\ (charge (player Example.recovering)
       <= chargeReq (player Example.recovering) + 1)%Z)
  /\ (charge (player Example.charging) = 5%Z
      /\ charge (player (tick Example.noKeys Example.charging)) = 0%Z).
Proof.
  split; split.
  - vm_compute. reflexivity.
  - apply (proj1 charge_bounded_and_reset Example.recovering).
    apply reachable_recovering.
  - vm_compute. reflexivity.
  - apply (proj2 charge_bounded_and_reset Example.noKeys Example.charging).
    + apply reachable_charging.
    + vm_compute. reflexivity.
    + vm_compute. reflexivity.
    + vm_compute. reflexivity.
    + vm_compute. reflexivity.
Defined.

End ChargeFacts.

(** ** The push force: when a held key commits the move *)

Module PushFacts.
Import Game Player PlayerMethods Frame Arrival ArrivalFacts Fuel FuelFacts
  JSFacts Session Push.

Lemma charged_poised mt w : poised mt w -> poised mt (charged w).
Proof.
  unfold poised, charged. rewrite syncWasMoving_shape. cbn. tauto.
Qed.

Lemma charged_charge w : charge (player (charged w)) = (charge (player w) + 1)%Z.
Proof. unfold charged. rewrite syncWasMoving_shape. reflexivity. Qed.

Lemma charged_targetPos w : targetPos (player (charged w)) = targetPos (player w).
Proof. unfold charged. rewrite syncWasMoving_shape. reflexivity. Qed.

Lemma charged_moving mt w : poised mt w -> moving (player (charged w)) = false.
Proof. intros H. apply (charged_poised mt w H). Qed.

Lemma input_direction keys d w :
  moving (player w) = false -> canMove (player w) = true ->
  checkDirection keys = Some d ->
  input keys w =
    kpCharge (GameMap.fg_tiles (map w) !! ahead d (tile (player w)))
      (logic d (GameMap.fg_tiles (map w) !! ahead d (tile (player w))))
      (onPlayer (set_facingDirection d) w).
Proof.
  intros Hmov Hcan Hkeys. unfold input. rewrite Hmov, Hcan, Hkeys. reflexivity.
Qed.

Lemma kpCharge_wait mt lg w :
  (charge (player w) <= chargeReq (player w))%Z ->
  kpCharge (Some mt) lg w = onPlayer (fun p => set_charge (charge p + 1)%Z p) w.
Proof.
  intros Hc. unfold kpCharge.
  destruct (chargeReq (player w) <? charge (player w))%Z eqn:E1;
    [apply Z.ltb_lt in E1; lia|].
  destruct (charge (player w) <=? chargeReq (player w))%Z eqn:E2;
    [reflexivity | apply Z.leb_gt in E2; lia].
Qed.

Lemma kpCharge_go d mt w :
  (chargeReq (player w) < charge (player w))%Z ->
  kpCharge (Some mt) (logic d (Some mt)) w = logic d (Some mt) w.
Proof.
  intros Hc. unfold kpCharge.
  apply Z.ltb_lt in Hc. rewrite Hc. apply Z.ltb_lt in Hc.
  pose proof (ChargeFacts.logic_gauge d (Some mt) w) as Hg.
  unfold Charge.gauge in Hg. injection Hg as _ Hreq Hch.
  rewrite Hreq, Hch.
  destruct (charge (player w) <=? chargeReq (player w))%Z eqn:E2;
    [apply Z.leb_le in E2; lia | reflexivity].
Qed.

Lemma charging_tick mt ev w :
  poised mt w ->
  (charge (player w) <= 20)%Z ->
  checkDirection (pressedKeys ev) = Some RIGHT ->
  tick ev w = charged w.
Proof.
  intros (Hen & Hcan & Hmov & Hfuel & Hreq & Htile & _ & _ & _ & _ & _ & _ & Hfg & _)
         Hc Hkeys.
  apply leb_false in Hfuel.
  assert (Hin : input (pressedKeys ev) w =
                onPlayer (fun p => set_charge (charge p + 1)%Z p)
                  (onPlayer (set_facingDirection RIGHT) w)).
  { rewrite (input_direction _ RIGHT) by assumption.
    rewrite Htile. change (ahead RIGHT (mkTile 10 8)) with (mkTile 11 8).
    rewrite Hfg. apply kpCharge_wait. proj.
    change (charge (set_facingDirection ?d ?p)) with (charge p).
    change (chargeReq (set_facingDirection ?d ?p)) with (chargeReq p).
    lia. }
  unfold tick. rewrite Hen, Hfuel. cbn [negb]. rewrite Hin. proj.
  change (moving (set_charge ?c (set_facingDirection ?d ?p))) with (moving p).
  rewrite Hmov. reflexivity.
Qed.

Lemma charging_ticks mt evs : forall w,
  poised mt w ->
  (charge (player w) + Z.of_nat (length evs) <= 21)%Z ->
  Forall (fun e => checkDirection (pressedKeys e) = Some RIGHT) evs ->
  let w' := steps (List.map Tick evs) w in
  poised mt w'
  /\ charge (player w') = (charge (player w) + Z.of_nat (length evs))%Z
  /\ targetPos (player w') = targetPos (player w).
Proof.
  induction evs as [|ev evs IH]; intros w Hp Hc Hk; cbn zeta.
  - split; [exact Hp|]. split; [cbn; lia | reflexivity].
  - inversion Hk as [|? ? Hk1 Hk2]; subst.
    cbn [length] in Hc.
    cbn [List.map steps fold_left step].
    rewrite (charging_tick mt ev w Hp) by (auto; lia).
    destruct (IH (charged w)) as (Hp' & Hc' & Ht').
    + apply charged_poised, Hp.
    + rewrite charged_charge. lia.
    + exact Hk2.
    + unfold steps in *. split; [exact Hp'|]. split.
      * rewrite Hc', charged_charge. cbn [length]. lia.
      * rewrite Ht'. apply charged_targetPos.
Qed.

(** The move [logic] commits from the poised position. *)
Lemma commit_right mt w :
  poised mt w ->
  (20 < charge (player w))%Z ->
  forall keys, checkDirection keys = Some RIGHT ->
  let w1 := input keys w in
  moving (player w1) = true
  /\ px (targetPos (player w1)) == 550
  /\ py (targetPos (player w1)) == 400
  /\ speed (player w1) == 0.5 * defaultSpeed (player w1) * speedMultiplier (player w1)
  /\ minetile (player w1) = Some mt.
Proof.
  intros (Hen & Hcan & Hmov & Hfuel & Hreq & Htile & Hx & Hy & Hpx & Hpy & Hts
          & Hright & Hfg & Hth) Hc keys Hkeys. cbn zeta.
  rewrite (input_direction _ RIGHT) by assumption.
  rewrite Htile. change (ahead RIGHT (mkTile 10 8)) with (mkTile 11 8).
  rewrite Hfg, kpCharge_go
    by (proj; change (charge (set_facingDirection ?d ?p)) with (charge p);
        change (chargeReq (set_facingDirection ?d ?p)) with (chargeReq p); lia).
  set (w0 := onPlayer (set_facingDirection RIGHT) w).
  assert (Hnt : nextTarget RIGHT w0 =
                {| px := px (targetPos (player w)) + Grid.tileSize (grid w);
                   py := py (targetPos (player w)) |}).
  { unfold nextTarget, w0. proj.
    change (targetPos (set_facingDirection ?d ?p)) with (targetPos p).
    destruct (JS.ltb _ _) eqn:E; [|reflexivity].
    apply ltb_true in E. lra. }
  unfold logic. rewrite Hnt. proj.
  change (targetPos (set_targetPos ?v ?p)) with v.
  change (x (set_targetPos ?v ?p)) with (x p).
  change (y (set_targetPos ?v ?p)) with (y p).
  cbn [px py].
  assert (Hne : JS.eqb (px (targetPos (player w)) + Grid.tileSize (grid w))
                       (x (player w0)) = false).
  { apply eqb_false. unfold w0. proj.
    change (x (set_facingDirection ?d ?p)) with (x p). lra. }
  rewrite Hne. cbn [andb]. proj. unfold w0. proj.
  cbn [moving set_minetile set_speed set_isStopping set_moving set_targetPos
       set_facingDirection targetPos px py speed minetile defaultSpeed
       speedMultiplier].
  repeat split; try lra.
  rewrite Hth. unfold Qdiv. cbn [Qinv Qnum Qden]. ring.
Qed.

(** After the input block, a tick changes neither target nor speed. *)
Lemma tick_keeps_commit ev w :
  tickEnabled (player w) = true -> 0 < fuel (player w) ->
  let w1 := input (pressedKeys ev) w in
  targetPos (player (tick ev w)) = targetPos (player w1)
  /\ speed (player (tick ev w)) = speed (player w1)
  /\ defaultSpeed (player (tick ev w)) = defaultSpeed (player w1)
  /\ speedMultiplier (player (tick ev w)) = speedMultiplier (player w1).
Proof.
  intros Hen Hfuel. cbn zeta. apply leb_false in Hfuel.
  unfold tick. rewrite Hen, Hfuel. cbn [negb].
  rewrite input_fuel, Hfuel.
  destruct (moving _).
  - rewrite syncWasMoving_shape. proj.
    change (targetPos (set_wasMoving ?b ?p)) with (targetPos p).
    change (speed (set_wasMoving ?b ?p)) with (speed p).
    change (defaultSpeed (set_wasMoving ?b ?p)) with (defaultSpeed p).
    change (speedMultiplier (set_wasMoving ?b ?p)) with (speedMultiplier p).
    rewrite (move_inert targetPos), (move_inert speed),
      (move_inert defaultSpeed), (move_inert speedMultiplier) by inert.
    auto.
  - rewrite syncWasMoving_shape. proj. auto.
Qed.

(** With [chargeReq = 20], 21 ticks of held RIGHT leave the player in place
    with the old target: the move has not committed on the 21st tick. *)
Lemma no_commit_on_tick_21 :
  let w := steps (repeat (Tick Example.pressRight) 21) Example.scenario in
  moving (player w) = false
  /\ targetPos (player w) = {| px := 500; py := 400 |}
  /\ charge (player w) = 21%Z.
Proof. vm_compute. auto. Qed.

(** C4, amended.  With [chargeReq = 20], a player idle at grid (10, 8) who
    holds RIGHT against a tile of thickness 50 has not moved after 21 ticks
    (the charge is then 21) and commits on the 22nd: the target becomes
    pixel (550, 400), grid (11, 8), and the speed
    [0.5 * defaultSpeed * speedMultiplier]. *)
Theorem commit_on_tick_22 mt w evs ev :
  poised mt w ->
  charge (player w) = 0%Z ->
  length evs = 21%nat ->
  Forall (fun e => checkDirection (pressedKeys e) = Some RIGHT) (evs ++ [ev]) ->
  let w21 := steps (List.map Tick evs) w in
  let w22 := tick ev w21 in
  (moving (player w21) = false
   /\ charge (player w21) = 21%Z
   /\ targetPos (player w21) = targetPos (player w))
  /\ moving (player (input (pressedKeys ev) w21)) = true
  /\ px (targetPos (player w22)) == 550
  /\ py (targetPos (player w22)) == 400
  /\ speed (player w22)
     == 0.5 * defaultSpeed (player w22) * speedMultiplier (player w22).
Proof.
  intros Hp Hc Hlen Hk. cbn zeta.
  apply Forall_app in Hk. destruct Hk as [Hk1 Hk2].
  inversion Hk2 as [|? ? Hkev _]; subst.
  destruct (charging_ticks mt evs w Hp) as (Hp21 & Hc21 & Ht21); auto.
  { rewrite Hc, Hlen. cbn. lia. }
  rewrite Hc, Hlen in Hc21. cbn in Hc21.
  set (w21 := steps (List.map Tick evs) w) in *.
  split.
  { split; [apply Hp21|]. split; assumption. }
  destruct (commit_right mt w21 Hp21) with (keys := pressedKeys ev)
    as (Hm & Hx & Hy & Hs & _); auto; [lia|].
  destruct (tick_keeps_commit ev w21) as (-> & -> & -> & ->);
    [apply Hp21 | apply Hp21 |].
  auto.
Qed.

Lemma commit_on_tick_22_witness :
  let w21 := steps (repeat (Tick Example.pressRight) 21) Example.scenario in
  let w22 := tick Example.pressRight w21 in
  px (targetPos (player w22)) == 550
  /\ py (targetPos (player w22)) == 400
  /\ speed (player w22)
     == 0.5 * defaultSpeed (player w22) * speedMultiplier (player w22).
Proof.
  refine (proj2 (proj2
    (commit_on_tick_22 Example.thickTile Example.scenario
       (repeat Example.pressRight 21) Example.pressRight _ _ _ _))).
  - unfold poised. vm_compute. repeat split; congruence.
  - vm_compute. reflexivity.
  - vm_compute. reflexivity.
  - repeat constructor; vm_compute; reflexivity.
Defined.

End PushFacts.

(** ** Moving towards a building *)

Module StallFacts.
Import Game Player PlayerMethods Frame Arrival ArrivalFacts Fuel FuelFacts
  JSFacts Session Stall.

Lemma advance_stalled d w :
  speed (player w) == 0 -> completed w = false ->
  x (player (advance d w)) == x (player w)
  /\ y (player (advance d w)) == y (player w)
  /\ completed (advance d w) = false.
Proof.
  intros Hs Hc. unfold completed in Hc.
  assert (Hd : speed (player w) * d == 0) by (rewrite Hs; ring).
  unfold advance.
  destruct (negb _ || negb _); [|repeat split; try reflexivity; exact Hc].
  unfold completed.
  destruct (facingDirection (player w)) eqn:Ef; cbn; rewrite Ef;
    apply leb_false in Hc.
  - destruct (JS.ltb _ _) eqn:E.
    + apply ltb_true in E. lra.
    + repeat split; try lra. apply leb_false. lra.
  - destruct (JS.ltb _ _) eqn:E.
    + apply ltb_true in E. lra.
    + repeat split; try lra. apply leb_false. lra.
  - destruct (JS.ltb _ _) eqn:E.
    + apply ltb_true in E. lra.
    + repeat split; try lra. apply leb_false. lra.
  - destruct (JS.ltb _ _) eqn:E.
    + apply ltb_true in E. lra.
    + repeat split; try lra. apply leb_false. lra.
Qed.

Lemma stalled_tick ev w :
  stalled w ->
  stalled (tick ev w)
  /\ dispatched (tick ev w) = dispatched w
  /\ tile (player (tick ev w)) = tile (player w)
  /\ x (player (tick ev w)) == x (player w)
  /\ y (player (tick ev w)) == y (player w).
Proof.
  intros (Hen & Hmov & Hfuel & Hs & Hy & Hc).
  pose proof Hfuel as Hfuel'. apply leb_false in Hfuel'.
  destruct (advance_stalled (delta ev) w Hs Hc) as (Hx' & Hy' & Hc').
  assert (Ht : tick ev w = syncWasMoving (advance (delta ev) w)).
  { unfold tick. rewrite Hen, Hfuel'. cbn [negb].
    rewrite (input_moving _ _ Hmov), Hmov, Hfuel'.
    unfold move. rewrite (burn_above _ _ Hy), Hc'. reflexivity. }
  rewrite Ht, syncWasMoving_shape.
  set (b := wasMoving _). clearbody b.
  unfold stalled, band, completed in *.
  rewrite advance_shape in *. cbn in *.
  repeat split; auto. lra.
Qed.

Lemma stalled_forever evs : forall w,
  stalled w ->
  let w' := steps (List.map Tick evs) w in
  stalled w'
  /\ dispatched w' = dispatched w
  /\ tile (player w') = tile (player w)
  /\ x (player w') == x (player w)
  /\ y (player w') == y (player w).
Proof.
  induction evs as [|ev evs IH]; intros w Hst; cbn zeta.
  - split; [exact Hst|]. repeat split; reflexivity.
  - cbn [List.map steps fold_left step].
    destruct (stalled_tick ev w Hst) as (Hst1 & Hd1 & Ht1 & Hx1 & Hy1).
    destruct (IH _ Hst1) as (Hst2 & Hd2 & Ht2 & Hx2 & Hy2).
    unfold steps in *.
    split; [exact Hst2|]. repeat split; try congruence; lra.
Qed.

(** A committed move into an occupied cell takes its speed from the
    thickness of the tile, whatever the tile is: for the five buildings,
    whose thickness is 0, the speed is 0. *)
Lemma commit_speed_from_thickness d mt w :
  moving (player (logic d (Some mt) w)) = true ->
  moving (player w) = false ->
  speed (player (logic d (Some mt) w))
  = MapTile.thickness (MapTile.properties mt) / 100
    * (defaultSpeed (player w) * speedMultiplier (player w)).
Proof.
  unfold logic. intros Hm Hw. destruct (JS.eqb _ _ && JS.eqb _ _).
  - rewrite onPlayer_player in Hm.
    change (moving (set_targetPos ?v ?p)) with (moving p) in Hm. congruence.
  - reflexivity.
Qed.

(** C5, on the code.  The player stands at (5, 7), above the shop placed at
    (5, 8), and has charged against it: the tick that commits the move sets
    the speed from the shop's thickness 0, and from then on no sequence of
    ticks brings the player to the shop or dispatches an event. *)
Theorem shop_move_stalls :
  let w := tick Example.pressDown Example.atShop in
  GameMap.fg_tiles (map Example.atShop) !! mkTile 5 8 = Some (Tiles.Shop (mkTile 5 8))
  /\ moving (player w) = true
  /\ targetPos (player w) = {| px := 250; py := 400 |}
  /\ speed (player w) == 0
  /\ forall evs,
       let w' := steps (List.map Tick evs) w in
       moving (player w') = true
       /\ tile (player w') = mkTile 5 7
       /\ y (player w') == 350
       /\ dispatched w' = dispatched w.
Proof.
  cbn zeta.
  assert (Hst : stalled (tick Example.pressDown Example.atShop)).
  { unfold stalled, band. vm_compute. repeat split; congruence. }
  split; [vm_compute; reflexivity|].
  split; [vm_compute; reflexivity|].
  split; [vm_compute; reflexivity|].
  split; [vm_compute; reflexivity|].
  intros evs.
  destruct (stalled_forever evs _ Hst) as (Hst' & Hd & Ht & Hx & Hy).
  repeat split.
  - apply Hst'.
  - rewrite Ht. vm_compute. reflexivity.
  - rewrite Hy. vm_compute. reflexivity.
  - exact Hd.
Qed.

End StallFacts.

(** ** Running out of fuel *)

Module RecoveryFacts.
Import Game Player PlayerMethods Frame Arrival ArrivalFacts Fuel FuelFacts
  JSFacts Session Recovery.

Lemma outOfFuel_again w : fuelDebounce (player w) = true -> outOfFuel w = w.
Proof. intros H. unfold outOfFuel. rewrite H. reflexivity. Qed.

Lemma outOfFuel_first w :
  fuelDebounce (player w) = false ->
  outOfFuel w =
    DisplayHandler.fade true FadedOut
      (onPlayer (fun p => set_moving false (set_canMove false (set_fuelDebounce true p))) w).
Proof. intros H. unfold outOfFuel. rewrite H. reflexivity. Qed.

Lemma tick_triggers ev w :
  tickEnabled (player w) = true -> fuel (player w) <= 0 ->
  tick ev w = outOfFuel w.
Proof.
  intros Hen Hf. apply leb_true in Hf. unfold tick. rewrite Hen, Hf. reflexivity.
Qed.

(** While the sequence is under way a tick changes at most [wasMoving]. *)
Lemma tick_awaiting cb ev w :
  awaiting cb w ->
  awaiting cb (tick ev w)
  /\ fuel (player (tick ev w)) = fuel (player w)
  /\ maxFuel (player (tick ev w)) = maxFuel (player w)
  /\ money (player (tick ev w)) = money (player w).
Proof.
  intros (Hen & Hcan & Hmov & Hdeb & Htm).
  assert (Ht : tick ev w = w \/ tick ev w = syncWasMoving w).
  { unfold tick. rewrite Hen. cbn [negb].
    destruct (JS.leb (fuel (player w)) 0).
    - left. apply outOfFuel_again, Hdeb.
    - right. unfold input. rewrite Hmov, Hcan. cbn [negb andb]. rewrite Hmov.
      reflexivity. }
  destruct Ht as [-> | ->].
  - unfold awaiting. auto 10.
  - rewrite syncWasMoving_shape. unfold awaiting. proj. auto 10.
Qed.

Lemma ticks_awaiting cb evs : forall w,
  awaiting cb w ->
  let w' := steps (List.map Tick evs) w in
  awaiting cb w'
  /\ fuel (player w') = fuel (player w)
  /\ maxFuel (player w') = maxFuel (player w)
  /\ money (player w') = money (player w).
Proof.
  induction evs as [|ev evs IH]; intros w Ha; cbn zeta.
  - split; [exact Ha|]. repeat split; reflexivity.
  - cbn [List.map steps fold_left step].
    destruct (tick_awaiting cb ev w Ha) as (Ha1 & Hf1 & Hm1 & Hy1).
    destruct (IH _ Ha1) as (Ha2 & Hf2 & Hm2 & Hy2).
    unfold steps in *. split; [exact Ha2|]. repeat split; congruence.
Qed.

Lemma fire_fadedOut w :
  awaiting FadedOut w ->
  awaiting Delayed (fire O w)
  /\ fuel (player (fire O w)) == maxFuel (player (fire O w)).
Proof.
  intros (Hen & Hcan & Hmov & Hdeb & Htm).
  unfold fire. rewrite Htm. cbn [lookup list_lookup delete list_delete run].
  unfold resetPos, updateFuel. proj.
  cbn [tickEnabled canMove moving fuelDebounce fuel maxFuel
       set_isStopping set_wasMoving set_facingDirection set_targetPos set_tile
       set_y set_x set_money set_fuel app].
  unfold awaiting. proj.
  cbn [tickEnabled canMove moving fuelDebounce fuel maxFuel
       set_isStopping set_wasMoving set_facingDirection set_targetPos set_tile
       set_y set_x set_money set_fuel app].
  repeat split; auto. lra.
Qed.

Lemma fire_delayed w :
  awaiting Delayed w ->
  awaiting FadedIn (fire O w)
  /\ fuel (player (fire O w)) = fuel (player w)
  /\ maxFuel (player (fire O w)) = maxFuel (player w).
Proof.
  intros (Hen & Hcan & Hmov & Hdeb & Htm).
  unfold fire. rewrite Htm. cbn [lookup list_lookup delete list_delete run].
  unfold DisplayHandler.fade, awaiting. proj. auto 10.
Qed.

Lemma fire_fadedIn w :
  awaiting FadedIn w ->
  let w' := fire O w in
  canMove (player w') = true
  /\ fuelDebounce (player w') = false
  /\ timers w' = []
  /\ fuel (player w') = fuel (player w)
  /\ maxFuel (player w') = maxFuel (player w).
Proof.
  intros (Hen & Hcan & Hmov & Hdeb & Htm). cbn zeta.
  unfold fire. rewrite Htm. cbn [lookup list_lookup delete list_delete run].
  proj. auto 10.
Qed.

(** C6.  A tick with [fuel <= 0] disables [canMove] and [moving] at once; a
    second trigger while the sequence is under way changes nothing at all;
    once the three callbacks have fired, whatever ticks come in between,
    fuel equals [maxFuel] and [canMove] is true again. *)
Theorem out_of_fuel_recovery :
  (forall ev w,
     tickEnabled (player w) = true -> fuel (player w) <= 0 ->
     fuelDebounce (player w) = false ->
     let w' := tick ev w in
     canMove (player w') = false /\ moving (player w') = false
     /\ fuelDebounce (player w') = true)
  /\ (forall ev w,
        tickEnabled (player w) = true -> fuel (player w) <= 0 ->
        fuelDebounce (player w) = true ->
        outOfFuel w = w /\ tick ev w = w)
  /\ (forall ev evs1 evs2 evs3 w,
        tickEnabled (player w) = true -> fuel (player w) <= 0 ->
        fuelDebounce (player w) = false -> timers w = [] ->
        let w' := steps (schedule ev evs1 evs2 evs3) w in
        fuel (player w') == maxFuel (player w')
        /\ canMove (player w') = true
        /\ fuelDebounce (player w') = false
        /\ timers w' = []).
Proof.
  split; [|split].
  - intros ev w Hen Hf Hdeb. cbn zeta.
    rewrite tick_triggers, outOfFuel_first by assumption.
    unfold DisplayHandler.fade. proj. auto.
  - intros ev w Hen Hf Hdeb.
    rewrite tick_triggers, outOfFuel_again by assumption. auto.
  - intros ev evs1 evs2 evs3 w Hen Hf Hdeb Htm. cbn zeta.
    unfold schedule, steps.
    cbn [fold_left step]. rewrite !fold_left_app. cbn [fold_left step].
    fold (steps (List.map Tick evs1) (tick ev w)).
    assert (H0 : awaiting FadedOut (tick ev w)).
    { rewrite tick_triggers, outOfFuel_first by assumption.
      unfold DisplayHandler.fade, awaiting. proj. rewrite Htm. auto 10. }
    destruct (ticks_awaiting _ evs1 _ H0) as (H1 & _).
    set (w1 := steps (List.map Tick evs1) (tick ev w)) in *.
    destruct (fire_fadedOut w1 H1) as (H2 & Hfull).
    fold (steps (List.map Tick evs2) (fire O w1)).
    destruct (ticks_awaiting _ evs2 _ H2) as (H3 & Hf3 & Hm3 & _).
    set (w2 := steps (List.map Tick evs2) (fire O w1)) in *.
    destruct (fire_delayed w2 H3) as (H4 & Hf4 & Hm4).
    fold (steps (List.map Tick evs3) (fire O w2)).
    destruct (ticks_awaiting _ evs3 _ H4) as (H5 & Hf5 & Hm5 & _).
    set (w3 := steps (List.map Tick evs3) (fire O w2)) in *.
    destruct (fire_fadedIn w3 H5) as (Hc & Hd & Ht & Hf6 & Hm6).
    repeat split; auto.
    rewrite Hf6, Hm6, Hf5, Hm5, Hf4, Hm4, Hf3, Hm3. exact Hfull.
Qed.

(** The sequence on the sample run: the tank is empty after the long tick;
    the next tick triggers the handler and three ticks pass between the
    callbacks. *)
Lemma out_of_fuel_recovery_witness :
  (let w' := tick Example.noKeys Example.emptyTank in
   canMove (player w') = false /\ moving (player w') = false
   /\ fuelDebounce (player w') = true)
  /\ (outOfFuel Example.stranded = Example.stranded
      /\ tick Example.noKeys Example.stranded = Example.stranded)
  /\ (let w' := steps (schedule Example.noKeys [Example.noKeys]
                         [Example.noKeys] [Example.noKeys]) Example.emptyTank in
      fuel (player w') == maxFuel (player w')
      /\ canMove (player w') = true
      /\ fuelDebounce (player w') = false
      /\ timers w' = []).
Proof.
  split; [|split].
  - apply (proj1 out_of_fuel_recovery Example.noKeys Example.emptyTank);
      vm_compute; congruence.
  - apply (proj1 (proj2 out_of_fuel_recovery) Example.noKeys Example.stranded);
      vm_compute; congruence.
  - apply (proj2 (proj2 out_of_fuel_recovery) Example.noKeys);
      vm_compute; congruence.
Defined.

End RecoveryFacts.

(** ** Selling the cargo *)

Module SellingFacts.
Import Game Player BuildingHandler BuildingHandlerMethods JSFacts Session
  Selling.

Lemma totalValue_from acc l :
  fold_left (fun s i => s + PlayerHold.value i) l acc == acc + sum l.
Proof.
  revert acc. induction l as [|i l IH]; intros acc; cbn.
  - ring.
  - rewrite IH. ring.
Qed.

Lemma totalValue_sum l : totalValue l == sum l.
Proof. unfold totalValue. rewrite totalValue_from. ring. Qed.

(** When the entry's price does not exceed the player's money, the sale goes
    through: the money grows by the sum of the values and the hold is
    emptied. *)
Lemma sell_all_affordable answer item w :
  id item = sell_all ->
  price item <= money (player w) ->
  let w' := handlePurchase answer item w in
  money (player w')
    == money (player w) + sum (PlayerHold.mapTiles (hold (player w)))
  /\ PlayerHold.mapTiles (hold (player w')) = [].
Proof.
  intros Hid Hp. cbn zeta. unfold handlePurchase.
  apply ltb_false in Hp. rewrite Hp, Hid.
  unfold showMessage, closeUI. cbn.
  split; [|reflexivity].
  rewrite totalValue_sum. reflexivity.
Qed.

(** C7, on the code.  The player owns 10 and carries one piece of coal worth
    50.  The selling post lists SELL ALL at 50; the click on it is turned
    down as a purchase the player cannot afford: money and hold stay as they
    were. *)
Theorem sell_all_rejected :
  let w := step (Click None 0 1) Example.seller in
  (overlays (buildingHandler Example.seller) !! O
     ≫= (fun ov => items ov !! 1%nat)) = Some Example.sellAll
  /\ money (player Example.seller) = 10
  /\ sum (PlayerHold.mapTiles (hold (player Example.seller))) == 50
  /\ money (player w) = 10
  /\ PlayerHold.mapTiles (hold (player w))
     = [ {| PlayerHold.name := "Coal"; PlayerHold.value := 50 |} ]
  /\ messages (buildingHandler w) = [Text "Not enough money!"].
Proof. vm_compute. repeat split; reflexivity. Qed.

End SellingFacts.

(** ** Saving and restoring *)

Module SavingFacts.
Import Game Player JSFacts Session.

Lemma orDefault_nonzero q d : ~ q == 0 -> JS.orDefault (Some q) d = q.
Proof.
  intros H. unfold JS.orDefault, JS.truthy.
  apply eqb_false in H. unfold JS.eqb in H. rewrite H. reflexivity.
Qed.

Lemma orDefault_zero q : JS.orDefault (Some q) 0 == q.
Proof.
  unfold JS.orDefault, JS.truthy.
  destruct (Qeq_bool q 0) eqn:E; cbn; [|reflexivity].
  apply Qeq_bool_iff in E. symmetry. exact E.
Qed.

(** What does survive a save followed by a restore: position, cargo,
    waypoints and tank always; money, fuel, [maxFuel] and the speed
    multiplier when they are not 0. *)
Lemma restore_after_save now w :
  let w' := SaveHandler.restore (snd (SaveHandler.saveGame now w)) in
  x (player w') = x (player w) /\ y (player w') = y (player w)
  /\ PlayerHold.mapTiles (hold (player w')) = PlayerHold.mapTiles (hold (player w))
  /\ BuildingHandler.waypoints (buildingHandler w')
     = BuildingHandler.waypoints (buildingHandler w)
  /\ tank (player w') == tank (player w)
  /\ (~ money (player w) == 0 -> money (player w') = money (player w))
  /\ (~ fuel (player w) == 0 -> fuel (player w') == fuel (player w))
  /\ (~ maxFuel (player w) == 0 -> maxFuel (player w') = maxFuel (player w))
  /\ (~ speedMultiplier (player w) == 0 ->
        speedMultiplier (player w') = speedMultiplier (player w)).
Proof.
  cbn zeta. unfold SaveHandler.restore, SaveHandler.loadGame, SaveHandler.saveGame.
  cbn -[JS.orDefault JS.truthy].
  destruct (JS.truthy (PlayerHold.capacity (hold (player w))));
    cbn -[JS.orDefault JS.truthy].
  all: repeat split; try reflexivity; try apply orDefault_zero.
  all: intros H; rewrite orDefault_nonzero by exact H; reflexivity || ring.
Qed.

(** C8, on the code.  A player with no money left saves; restoring the save
    hands back 300. *)
Theorem restore_resets_spent_money :
  let w := Example.broke in
  let w' := SaveHandler.restore (snd (SaveHandler.saveGame 0 w)) in
  money (player w) = 0 /\ money (player w') = 300.
Proof. vm_compute. split; reflexivity. Qed.

End SavingFacts.

(** ** Map generation: where coal is placed *)

Module OreFacts.
Import GameMap MapTile Tiles JSFacts Ore.

Lemma coalFree_insert pos mt f :
  type (properties mt) <> COAL -> coalFree f -> coalFree (<[pos := mt]> f).
Proof.
  intros Hmt Hf pos' mt'. rewrite lookup_insert.
  destruct (decide (pos = pos')); [intros [= <-]; exact Hmt | apply Hf].
Qed.

(** *** The surface row *)

Lemma construct_type b mk pos :
  construct b = Some mk -> type (properties (mk pos)) <> COAL.
Proof. destruct b; intros [= <-]; discriminate. Qed.

Lemma surfaceCell_spec T g m i :
  let m' := state (surfaceCell T g m i) in
  horizonLineGU m' = horizonLineGU m /\ rng m' = rng m
  /\ surfaceBuildings m' = surfaceBuildings m
  /\ (coalFree (fg_tiles m) -> coalFree (fg_tiles m'))
  /\ (forall pos, gY pos <> horizonLineGU m ->
        fg_tiles m' !! pos = fg_tiles m !! pos).
Proof.
  cbn zeta. unfold surfaceCell.
  assert (Hother : forall mt pos, gY pos <> horizonLineGU m ->
            <[mkTile i (horizonLineGU m) := mt]> (fg_tiles m) !! pos
            = fg_tiles m !! pos).
  { intros mt pos Hne. apply lookup_insert_ne. intros <-. apply Hne. reflexivity. }
  assert (Hins : forall mt, type (properties mt) <> COAL ->
            let m' := set_fg_tiles (<[mkTile i (horizonLineGU m) := mt]> (fg_tiles m)) m in
            horizonLineGU m' = horizonLineGU m /\ rng m' = rng m
            /\ surfaceBuildings m' = surfaceBuildings m
            /\ (coalFree (fg_tiles m) -> coalFree (fg_tiles m'))
            /\ (forall pos, gY pos <> horizonLineGU m ->
                  fg_tiles m' !! pos = fg_tiles m !! pos)).
  { intros mt Hmt. cbn. repeat split; auto.
    intros Hf. apply coalFree_insert; assumption. }
  destruct (find _ _) as [[b x]|]; cbn [fst].
  - destruct (i <? _)%Z; [|apply Hins; discriminate].
    destruct (construct b) as [mk|] eqn:E; cbn [state].
    + apply Hins, (construct_type b), E.
    + auto.
  - apply Hins. discriminate.
Qed.

(** Whether an iteration throws is read off the list of buildings. *)
Lemma surfaceCell_outcome T g m i :
  surfaceCell T g m i
  = if throwsAt g m i then Thrown m else Returned (state (surfaceCell T g m i)).
Proof.
  unfold surfaceCell, throwsAt. cbn zeta.
  destruct (find _ _) as [[b x]|]; [|reflexivity]. cbn [fst].
  destruct (construct b); destruct (i <? _)%Z; reflexivity.
Qed.

Lemma throwsAt_buildings g m m' i :
  surfaceBuildings m' = surfaceBuildings m -> throwsAt g m' i = throwsAt g m i.
Proof. intros H. unfold throwsAt. rewrite H. reflexivity. Qed.

Lemma surface_spec T g l : forall m,
  let m' := state (surface T g l m) in
  horizonLineGU m' = horizonLineGU m /\ rng m' = rng m
  /\ surfaceBuildings m' = surfaceBuildings m
  /\ (coalFree (fg_tiles m) -> coalFree (fg_tiles m'))
  /\ (forall pos, gY pos <> horizonLineGU m ->
        fg_tiles m' !! pos = fg_tiles m !! pos).
Proof.
  induction l as [|i l IH]; intros m; cbn zeta; cbn [surface].
  - cbn. auto.
  - destruct (surfaceCell_spec T g m i) as (Hh & Hr & Hb & Hc & Hf).
    destruct (surfaceCell T g m i) as [m1|m1]; cbn [state] in *.
    + destruct (IH m1) as (Hh' & Hr' & Hb' & Hc' & Hf').
      rewrite Hh', Hr', Hb', Hh, Hr, Hb. repeat split; auto.
      intros pos Hne. rewrite Hf' by (rewrite Hh; exact Hne). apply Hf, Hne.
    + auto.
Qed.

(** The loop returns when no column it visits throws, and otherwise throws
    at the first that does, having run through the columns before it. *)
Lemma surface_returns T g l : forall m,
  Forall (fun i => throwsAt g m i = false) l ->
  surface T g l m = Returned (state (surface T g l m)).
Proof.
  induction l as [|i l IH]; intros m Hl; cbn [surface]; [reflexivity|].
  apply Forall_cons in Hl. destruct Hl as [Hi Hl].
  destruct (surfaceCell_spec T g m i) as (_ & _ & Hb & _ & _).
  rewrite surfaceCell_outcome, Hi in *. cbn [state] in *.
  apply IH. eapply Forall_impl; [exact Hl|].
  intros j Hj. cbn. rewrite (throwsAt_buildings g m _ j Hb). exact Hj.
Qed.

Lemma surface_throws T g l1 c l2 m :
  Forall (fun i => throwsAt g m i = false) l1 ->
  throwsAt g m c = true ->
  surface T g (l1 ++ c :: l2) m = Thrown (state (surface T g l1 m)).
Proof.
  revert m. induction l1 as [|i l1 IH]; intros m Hl Hc; cbn [app surface].
  - rewrite surfaceCell_outcome, Hc. reflexivity.
  - apply Forall_cons in Hl. destruct Hl as [Hi Hl].
    destruct (surfaceCell_spec T g m i) as (_ & _ & Hb & _ & _).
    rewrite surfaceCell_outcome, Hi in *. cbn [state] in *.
    apply IH.
    + eapply Forall_impl; [exact Hl|].
      intros j Hj. cbn. rewrite (throwsAt_buildings g m _ j Hb). exact Hj.
    + rewrite (throwsAt_buildings g m _ c Hb). exact Hc.
Qed.

(** The first column of [0 .. n - 1] that satisfies a test. *)
Lemma find_app {A} (p : A -> bool) l1 l2 :
  List.find p (l1 ++ l2)
  = match List.find p l1 with Some x => Some x | None => List.find p l2 end.
Proof.
  induction l1 as [|a l1 IH]; cbn; [reflexivity|].
  destruct (p a); [reflexivity | exact IH].
Qed.

Lemma find_seqZ_None (p : Z -> bool) n :
  List.find p (seqZ 0 n) = None ->
  Forall (fun i => p i = false) (seqZ 0 n).
Proof.
  intros H. apply Forall_forall. intros i Hi.
  apply (List.find_none p _ H). apply list_elem_of_In, Hi.
Qed.

Lemma find_seqZ_Some (p : Z -> bool) n c :
  List.find p (seqZ 0 n) = Some c ->
  (0 <= c < n)%Z /\ p c = true
  /\ Forall (fun i => p i = false) (seqZ 0 c)
  /\ exists l2, seqZ 0 n = seqZ 0 c ++ c :: l2.
Proof.
  intros H.
  assert (Hn : (0 <= n)%Z).
  { destruct (Z_le_gt_dec 0 n) as [|Hlt]; [assumption|].
    rewrite seqZ_nil in H by lia. discriminate. }
  revert H. rewrite <- (Z2Nat.id n Hn). generalize (Z.to_nat n). clear n Hn.
  intros n. induction n as [|n IH].
  - discriminate.
  - rewrite seqZ_S, Z.add_0_l.
    rewrite find_app.
    destruct (find p (seqZ 0 (Z.of_nat n))) as [c'|] eqn:E.
    + intros [= ->]. destruct (IH eq_refl) as (Hc & Hp & Hb & l2 & Hl).
      split; [lia|]. split; [exact Hp|]. split; [exact Hb|].
      exists (l2 ++ [Z.of_nat n]). rewrite Hl, <- app_assoc. reflexivity.
    + cbn [find]. destruct (p (Z.of_nat n)) eqn:Ep; [|discriminate].
      intros [= <-]. split; [lia|]. split; [exact Ep|].
      split; [apply find_seqZ_None, E|]. exists []. reflexivity.
Qed.

(** How [generate] ends. *)
Lemma generate_completes T g seed0 now stream m :
  stopsAt g m = None ->
  let s := if (seed0 =? 0)%Z then now else seed0 in
  let m1 := set_rng {| draws := stream s; taken := 0 |} (set_seed s m) in
  let m2 := state (surface T g (seqZ 0 (Grid.widthGU g)) m1) in
  generate T g seed0 now stream m
  = Returned
      (fold_left (coalColumn T) (seqZ 0 (Grid.widthGU g))
         (fold_left (dirtRow T g)
            (seqZ (horizonLineGU m2 + 1) (Grid.heightGU g - (horizonLineGU m2 + 1)))
            m2)).
Proof.
  intros Hs. cbn zeta. unfold generate.
  rewrite surface_returns; [reflexivity|].
  apply (find_seqZ_None (throwsAt g m)), Hs.
Qed.

Lemma generate_stops T g seed0 now stream m c :
  stopsAt g m = Some c ->
  let s := if (seed0 =? 0)%Z then now else seed0 in
  let m1 := set_rng {| draws := stream s; taken := 0 |} (set_seed s m) in
  (0 <= c < Grid.widthGU g)%Z
  /\ Forall (fun i => throwsAt g m i = false) (seqZ 0 c)
  /\ generate T g seed0 now stream m = Thrown (state (surface T g (seqZ 0 c) m1)).
Proof.
  intros Hs. cbn zeta.
  destruct (find_seqZ_Some (throwsAt g m) _ c Hs) as (Hc & Hp & Hb & l2 & Hl).
  split; [exact Hc|]. split; [exact Hb|].
  unfold generate. rewrite Hl.
  rewrite (surface_throws T g (seqZ 0 c) c l2); [reflexivity | exact Hb | exact Hp].
Qed.



(** *** The dirt below *)

Lemma dirtRow_spec T gy l : forall m,
  let m' := fold_left (dirtCell T gy) l m in
  horizonLineGU m' = horizonLineGU m /\ rng m' = rng m
  /\ (coalFree (fg_tiles m) -> coalFree (fg_tiles m'))
  /\ (forall pos, gY pos = gy -> gX pos ∈ l ->
        fg_tiles m' !! pos = Some (Dirt T pos))
  /\ (forall pos, ~ (gY pos = gy /\ gX pos ∈ l) ->
        fg_tiles m' !! pos = fg_tiles m !! pos).
Proof.
  induction l as [|gx l IH]; intros m; cbn zeta; cbn [fold_left].
  - repeat split; auto. intros pos _ H. inversion H.
  - destruct (IH (dirtCell T gy m gx)) as (Hh & Hr & Hc & Hin & Hout).
    rewrite Hh, Hr. unfold dirtCell in *. cbn in *.
    repeat split; auto.
    + intros Hf. apply Hc, coalFree_insert; [discriminate | exact Hf].
    + intros pos Hy Hx.
      destruct (decide (gX pos ∈ l)) as [Hl|Hl]; [apply Hin; auto|].
      rewrite Hout by tauto.
      apply elem_of_cons in Hx. destruct Hx as [Hx|Hx]; [|contradiction].
      destruct pos as [px py]. cbn in *. subst. apply lookup_insert_eq.
    + intros pos Hn. rewrite Hout.
      * apply lookup_insert_ne. intros <-. apply Hn. cbn. split; [reflexivity|].
        apply elem_of_cons. auto.
      * intros [Hy Hx]. apply Hn. split; [exact Hy|]. apply elem_of_cons. auto.
Qed.

Lemma dirt_spec T g ly : forall m,
  let m' := fold_left (dirtRow T g) ly m in
  horizonLineGU m' = horizonLineGU m /\ rng m' = rng m
  /\ (coalFree (fg_tiles m) -> coalFree (fg_tiles m'))
  /\ (forall pos, gY pos ∈ ly -> (0 <= gX pos < Grid.widthGU g)%Z ->
        fg_tiles m' !! pos = Some (Dirt T pos))
  /\ (forall pos, ~ (gY pos ∈ ly /\ (0 <= gX pos < Grid.widthGU g)%Z) ->
        fg_tiles m' !! pos = fg_tiles m !! pos).
Proof.
  induction ly as [|gy ly IH]; intros m; cbn zeta; cbn [fold_left].
  - repeat split; auto. intros pos H. inversion H.
  - destruct (dirtRow_spec T gy (seqZ 0 (Grid.widthGU g)) m)
      as (Hh1 & Hr1 & Hc1 & Hin1 & Hout1).
    fold (dirtRow T g m gy) in *.
    destruct (IH (dirtRow T g m gy)) as (Hh & Hr & Hc & Hin & Hout).
    rewrite Hh, Hr, Hh1, Hr1. repeat split; auto.
    + intros pos Hy Hx.
      destruct (decide (gY pos ∈ ly)) as [Hl|Hl]; [apply Hin; auto|].
      rewrite Hout by tauto.
      apply elem_of_cons in Hy. destruct Hy as [Hy|Hy]; [|contradiction].
      apply Hin1; [exact Hy|]. apply elem_of_seqZ. lia.
    + intros pos Hn. rewrite Hout.
      * apply Hout1. intros [Hy Hx]. apply Hn.
        split; [apply elem_of_cons; auto|]. apply elem_of_seqZ in Hx. lia.
      * intros [Hy Hx]. apply Hn. split; [apply elem_of_cons; auto | exact Hx].
Qed.

(** *** The coal layer *)

Lemma coalCell_spec T gx m gy :
  let m' := coalCell T gx m gy in
  horizonLineGU m' = horizonLineGU m
  /\ draws (rng m') = draws (rng m)
  /\ taken (rng m') = S (taken (rng m))
  /\ fg_tiles m' =
       if passes (draws (rng m) (taken (rng m)))
       then <[mkTile gx gy := Coal T (mkTile gx gy)]> (fg_tiles m)
       else fg_tiles m.
Proof.
  cbn zeta. unfold coalCell, shouldGenType, passes. cbn.
  destruct (JS.leb _ _); cbn; auto.
Qed.

Lemma coalCells_spec T gx l :
  NoDup l -> forall m,
  let m' := fold_left (coalCell T gx) l m in
  horizonLineGU m' = horizonLineGU m
  /\ draws (rng m') = draws (rng m)
  /\ taken (rng m') = (taken (rng m) + length l)%nat
  /\ (forall pos, ~ (gX pos = gx /\ gY pos ∈ l) ->
        fg_tiles m' !! pos = fg_tiles m !! pos)
  /\ (forall i gy, l !! i = Some gy ->
        fg_tiles m' !! mkTile gx gy =
          if passes (draws (rng m) (taken (rng m) + i)%nat)
          then Some (Coal T (mkTile gx gy))
          else fg_tiles m !! mkTile gx gy).
Proof.
  induction l as [|a l IH]; intros Hnd m; cbn zeta; cbn [fold_left].
  - repeat split; auto. intros i gy H. inversion H.
  - apply NoDup_cons in Hnd. destruct Hnd as [Ha Hnd].
    destruct (coalCell_spec T gx m a) as (Hh1 & Hd1 & Ht1 & Hf1).
    destruct (IH Hnd (coalCell T gx m a)) as (Hh & Hd & Ht & Hout & Hin).
    assert (Hother : forall pos, pos <> mkTile gx a ->
              fg_tiles (coalCell T gx m a) !! pos = fg_tiles m !! pos).
    { intros pos Hne. rewrite Hf1. destruct (passes _); [|reflexivity].
      apply lookup_insert_ne. congruence. }
    rewrite Hh, Hd, Ht, Hh1, Hd1, Ht1. cbn [length].
    split; [reflexivity|]. split; [reflexivity|]. split; [lia|]. split.
    + intros pos Hn. rewrite Hout.
      * apply Hother. intros ->. apply Hn. cbn. split; [reflexivity|].
        apply elem_of_cons. auto.
      * intros [Hx Hy]. apply Hn. split; [exact Hx|]. apply elem_of_cons. auto.
    + intros [|i] gy Hi; cbn in Hi.
      * injection Hi as ->. rewrite Hout by (cbn; tauto).
        rewrite Hf1, Nat.add_0_r. destruct (passes _); [|reflexivity].
        apply lookup_insert_eq.
      * rewrite (Hin i gy Hi), Hd1, Ht1.
        replace (S (taken (rng m)) + i)%nat with (taken (rng m) + S i)%nat by lia.
        destruct (passes (draws (rng m) (taken (rng m) + S i)%nat)); [reflexivity|].
        apply Hother. intros [= ->]. apply Ha.
        apply list_elem_of_lookup. eauto.
Qed.

Lemma coalColumn_spec T m gx :
  let m' := coalColumn T m gx in
  horizonLineGU m' = horizonLineGU m
  /\ draws (rng m') = draws (rng m)
  /\ taken (rng m') = (taken (rng m) + 20)%nat
  /\ (forall pos, ~ (gX pos = gx /\ inRows m (gY pos)) ->
        fg_tiles m' !! pos = fg_tiles m !! pos)
  /\ (forall gy, inRows m gy ->
        fg_tiles m' !! mkTile gx gy =
          if passes (draws (rng m)
                       (taken (rng m) + Z.to_nat (gy - (horizonLineGU m + 1)))%nat)
          then Some (Coal T (mkTile gx gy))
          else fg_tiles m !! mkTile gx gy).
Proof.
  cbn zeta. unfold coalColumn, inRows.
  replace (horizonLineGU m + 21 - (horizonLineGU m + 1))%Z with 20%Z by lia.
  destruct (coalCells_spec T gx (seqZ (horizonLineGU m + 1) 20)
              (NoDup_seqZ _ _) m) as (Hh & Hd & Ht & Hout & Hin).
  rewrite length_seqZ in Ht.
  split; [exact Hh|]. split; [exact Hd|]. split; [exact Ht|]. split.
  - intros pos Hn. apply Hout. intros [Hx Hy]. apply Hn.
    split; [exact Hx|]. apply elem_of_seqZ in Hy. lia.
  - intros gy Hy. apply Hin. apply lookup_seqZ. split; lia.
Qed.

Lemma coalColumns_spec T lx :
  NoDup lx -> forall m,
  let m' := fold_left (coalColumn T) lx m in
  horizonLineGU m' = horizonLineGU m
  /\ draws (rng m') = draws (rng m)
  /\ taken (rng m') = (taken (rng m) + 20 * length lx)%nat
  /\ (forall pos, ~ (gX pos ∈ lx /\ inRows m (gY pos)) ->
        fg_tiles m' !! pos = fg_tiles m !! pos)
  /\ (forall j gx gy, lx !! j = Some gx -> inRows m gy ->
        fg_tiles m' !! mkTile gx gy =
          if passes (draws (rng m)
                       (taken (rng m) + 20 * j
                        + Z.to_nat (gy - (horizonLineGU m + 1)))%nat)
          then Some (Coal T (mkTile gx gy))
          else fg_tiles m !! mkTile gx gy).
Proof.
  induction lx as [|a lx IH]; intros Hnd m; cbn zeta; cbn [fold_left].
  - repeat split; auto. intros j gx gy H. inversion H.
  - apply NoDup_cons in Hnd. destruct Hnd as [Ha Hnd].
    destruct (coalColumn_spec T m a) as (Hh1 & Hd1 & Ht1 & Hout1 & Hin1).
    destruct (IH Hnd (coalColumn T m a)) as (Hh & Hd & Ht & Hout & Hin).
    assert (Hrows : forall gy, inRows (coalColumn T m a) gy <-> inRows m gy).
    { intros gy. unfold inRows. rewrite Hh1. reflexivity. }
    rewrite Hh, Hd, Ht, Hh1, Hd1, Ht1. cbn [length].
    split; [reflexivity|]. split; [reflexivity|]. split; [lia|]. split.
    + intros pos Hn. rewrite Hout.
      * apply Hout1. intros [Hx Hy]. apply Hn.
        split; [apply elem_of_cons; auto | exact Hy].
      * intros [Hx Hy]. apply Hn.
        split; [apply elem_of_cons; auto | apply Hrows, Hy].
    + intros [|j] gx gy Hj Hy; cbn in Hj.
      * injection Hj as ->.
        rewrite Hout by (cbn; intros [Hx _]; contradiction).
        rewrite (Hin1 gy Hy), Nat.mul_0_r, Nat.add_0_r. reflexivity.
      * rewrite (Hin j gx gy Hj) by (apply Hrows, Hy).
        rewrite Hd1, Ht1, Hh1.
        replace (taken (rng m) + 20 + 20 * j
                 + Z.to_nat (gy - (horizonLineGU m + 1)))%nat
          with (taken (rng m) + 20 * S j
                + Z.to_nat (gy - (horizonLineGU m + 1)))%nat by lia.
        destruct (passes (draws (rng m) _)); [reflexivity|].
        apply Hout1. cbn. intros [-> _]. apply Ha.
        apply list_elem_of_lookup. eauto.
Qed.




End OreFacts.

(** ** The fuel station with a full tank *)

Module LockFacts.
Import Game Player BuildingHandler BuildingHandlerMethods PlayerMethods
  Frame Arrival ArrivalFacts JSFacts Session Lock.










Lemma applySaveData_ui sd w :
  currentUI (buildingHandler (snd (SaveHandler.applySaveData sd w)))
  = currentUI (buildingHandler w)
  /\ overlays (buildingHandler (snd (SaveHandler.applySaveData sd w)))
     = overlays (buildingHandler w).
Proof.
  unfold SaveHandler.applySaveData. split_ifs; split; reflexivity.
Qed.



End LockFacts.

(** ** More on the tick: input, borders, motion *)

Module MotionFacts.
Import Game Player PlayerMethods Frame Arrival ArrivalFacts Fuel FuelFacts.
Import JSFacts Session Motion.

Lemma pressed_In k keys : pressed k keys = true <-> In k keys.
Proof.
  unfold pressed. rewrite existsb_exists. split.
  - intros (x & Hx & E). apply String.eqb_eq in E. subst. exact Hx.
  - intros H. exists k. split; [exact H | apply String.eqb_refl].
Qed.

Lemma pressed_not_In k keys : pressed k keys = false <-> ~ In k keys.
Proof.
  rewrite <- pressed_In. destruct (pressed k keys); split; congruence.
Qed.

(** X1.  [checkDirection] looks at membership only and ranks the
    directions UP, DOWN, LEFT, RIGHT, each with its two keys; it answers
    [null] exactly when none of the eight keys is held. *)
Theorem checkDirection_priority keys :
  let up := In "ArrowUp"%string keys \/ In "w"%string keys in
  let down := In "ArrowDown"%string keys \/ In "s"%string keys in
  let left := In "ArrowLeft"%string keys \/ In "a"%string keys in
  let right := In "ArrowRight"%string keys \/ In "d"%string keys in
  (up -> checkDirection keys = Some UP)
  /\ (~ up -> down -> checkDirection keys = Some DOWN)
  /\ (~ up -> ~ down -> left -> checkDirection keys = Some LEFT)
  /\ (~ up -> ~ down -> ~ left -> right -> checkDirection keys = Some RIGHT)
  /\ (checkDirection keys = None <-> ~ up /\ ~ down /\ ~ left /\ ~ right).
Proof.
  cbn zeta. unfold checkDirection.
  rewrite <- !pressed_In.
  destruct (pressed "ArrowUp" keys), (pressed "w" keys),
    (pressed "ArrowDown" keys), (pressed "s" keys),
    (pressed "ArrowLeft" keys), (pressed "a" keys),
    (pressed "ArrowRight" keys), (pressed "d" keys); cbn;
    intuition congruence.
Qed.

Lemma checkDirection_priority_witness :
  checkDirection ["d"; "ArrowDown"; "w"]%string = Some UP
  /\ checkDirection ["d"; "ArrowDown"]%string = Some DOWN.
Proof.
  split.
  - apply (proj1 (checkDirection_priority ["d"; "ArrowDown"; "w"]%string)).
    right. cbn. auto.
  - apply (proj1 (proj2 (checkDirection_priority ["d"; "ArrowDown"]%string))).
    + cbn. intros [[H|[H|[]]]|[H|[H|[]]]]; discriminate H.
    + left. cbn. auto.
Defined.

(** The five ways a tick can go. *)
Lemma tick_cases ev w :
  let w1 := input (pressedKeys ev) w in
  tick ev w = w
  \/ tick ev w = outOfFuel w
  \/ tick ev w = outOfFuel w1
  \/ (moving (player w1) = true /\ tick ev w = syncWasMoving (move ev w1))
  \/ (moving (player w1) = false /\ tick ev w = syncWasMoving w1).
Proof.
  cbn zeta. unfold tick.
  destruct (negb _); [auto|].
  destruct (JS.leb _ 0); [auto|].
  destruct (moving _) eqn:E; [|auto 10].
  destruct (JS.leb _ 0); auto 10.
Qed.

(** X2.  While the player is moving, or movement is disabled, the keys are
    not read: the tick does the same whatever is pressed. *)
Theorem keys_ignored_in_transit d n keys keys' w :
  moving (player w) = true \/ canMove (player w) = false ->
  tick {| delta := d; pressedKeys := keys; now := n |} w
  = tick {| delta := d; pressedKeys := keys'; now := n |} w.
Proof.
  intros H.
  assert (Hin : forall k, input k w = w).
  { intros k. unfold input. destruct H as [-> | ->]; [reflexivity|].
    rewrite andb_false_r. reflexivity. }
  unfold tick, move. cbn [delta pressedKeys now]. rewrite !Hin. reflexivity.
Qed.

Lemma keys_ignored_in_transit_witness :
  tick {| delta := 16; pressedKeys := ["w"%string]; now := 0 |} Example.digging
  = tick {| delta := 16; pressedKeys := ["s"%string]; now := 0 |} Example.digging.
Proof.
  apply keys_ignored_in_transit. left. vm_compute. reflexivity.
Defined.

(** A tick either runs the completion block or keeps everything but the
    player and the timers. *)
Lemma tick_arriving ev w :
  arrives ev w = true ->
  tick ev w =
    syncWasMoving
      (arrive (now ev) (advance (delta ev) (burn (delta ev) (input (pressedKeys ev) w)))).
Proof.
  unfold arrives. rewrite !andb_true_iff, !negb_true_iff.
  intros [[Hen Hfuel] [[Hmov Hfuel1] Hdone]].
  unfold tick. rewrite Hen, Hfuel. cbn [negb].
  rewrite Hmov, Hfuel1. unfold move. rewrite Hdone. reflexivity.
Qed.

Lemma only_player_refl w : exists p t, w = set_timers t (set_player p w).
Proof. exists (player w), (timers w). destruct w. reflexivity. Qed.

Lemma only_player_trans w w' w'' :
  (exists p t, w' = set_timers t (set_player p w)) ->
  (exists p t, w'' = set_timers t (set_player p w')) ->
  exists p t, w'' = set_timers t (set_player p w).
Proof.
  intros (p & t & ->) (p' & t' & ->). exists p', t'. destruct w. reflexivity.
Qed.

Lemma only_player_on f w : exists p t, onPlayer f w = set_timers t (set_player p w).
Proof. exists (f (player w)), (timers w). destruct w. reflexivity. Qed.

Lemma tick_not_arriving ev w :
  arrives ev w = false ->
  exists p t, tick ev w = set_timers t (set_player p w).
Proof.
  intros Harr.
  assert (Hin : exists p t,
            input (pressedKeys ev) w = set_timers t (set_player p w)).
  { rewrite input_shape. exists (player (input (pressedKeys ev) w)), (timers w).
    destruct w. reflexivity. }
  assert (Hout : forall v, exists p t, outOfFuel v = set_timers t (set_player p v)).
  { intros v. rewrite outOfFuel_shape. eauto. }
  assert (Hsync : forall v, exists p t, syncWasMoving v = set_timers t (set_player p v)).
  { intros v. rewrite syncWasMoving_shape. apply only_player_on. }
  revert Harr. unfold arrives, tick.
  destruct (tickEnabled (player w)); cbn [negb andb]; [|intros _; apply only_player_refl].
  destruct (JS.leb (fuel (player w)) 0); cbn [negb andb]; [intros _; apply Hout|].
  set (w1 := input (pressedKeys ev) w) in *.
  destruct (moving (player w1)); cbn [negb andb].
  - destruct (JS.leb (fuel (player w1)) 0); cbn [negb andb].
    + intros _. eapply only_player_trans; [exact Hin | apply Hout].
    + unfold move. intros ->.
      eapply only_player_trans; [|apply Hsync].
      eapply only_player_trans; [exact Hin|].
      rewrite advance_shape.
      eapply only_player_trans; [|apply only_player_on].
      rewrite burn_shape. apply only_player_on.
  - intros _. eapply only_player_trans; [exact Hin | apply Hsync].
Qed.

(** What the completion block does to the store and the log. *)
Lemma arrive_store now w :
  (GameMap.fg_tiles (map w) !! under w = None
   \/ exists mt, GameMap.fg_tiles (map w) !! under w = Some mt
                 /\ MapTile.interactable (MapTile.properties mt) = true)
  /\ map (arrive now w) = map w
  /\ dispatched (arrive now w) = dispatched w ++ [tilemove (under w)]
  \/ (exists mt, GameMap.fg_tiles (map w) !! under w = Some mt
                 /\ MapTile.interactable (MapTile.properties mt) = false)
     /\ map (arrive now w)
        = GameMap.set_fg_tiles (delete (under w) (GameMap.fg_tiles (map w))) (map w)
     /\ dispatched (arrive now w)
        = dispatched w ++ [tiledestroy (under w); tilemove (under w)].
Proof.
  rewrite arrive_unfold.
  destruct (GameMap.fg_tiles (map w) !! under w) as [mt|] eqn:E.
  - destruct (MapTile.interactable (MapTile.properties mt)) eqn:Ei.
    + left. frame_dispatch. split; [right; eauto|]. split; reflexivity.
    + right. frame_dispatch. proj. frame_dispatch. proj.
      split; [eauto|]. split; [reflexivity|].
      rewrite <- app_assoc. reflexivity.
  - left. frame_dispatch. split; [left; reflexivity|]. split; reflexivity.
Qed.

Lemma syncWasMoving_map w : map (syncWasMoving w) = map w.
Proof. rewrite syncWasMoving_shape. reflexivity. Qed.

Lemma syncWasMoving_dispatched w : dispatched (syncWasMoving w) = dispatched w.
Proof. rewrite syncWasMoving_shape. reflexivity. Qed.

Lemma destroyed_app l l' : destroyed (l ++ l') = (destroyed l + destroyed l')%nat.
Proof. unfold destroyed. rewrite List.filter_app, length_app. reflexivity. Qed.

(** One tick: the store is kept, or loses one tile that is not a building,
    and the log reports it. *)
Lemma tick_store ev w :
  map (tick ev w) = map w
  /\ destroyed (dispatched (tick ev w)) = destroyed (dispatched w)
  \/ exists here mt,
       GameMap.fg_tiles (map w) !! here = Some mt
       /\ MapTile.interactable (MapTile.properties mt) = false
       /\ map (tick ev w)
          = GameMap.set_fg_tiles (delete here (GameMap.fg_tiles (map w))) (map w)
       /\ destroyed (dispatched (tick ev w)) = S (destroyed (dispatched w)).
Proof.
  destruct (arrives ev w) eqn:Harr.
  - rewrite (tick_arriving _ _ Harr).
    rewrite syncWasMoving_map, syncWasMoving_dispatched.
    set (w1 := input (pressedKeys ev) w).
    set (w2 := advance (delta ev) (burn (delta ev) w1)).
    destruct (travel_frame (delta ev) w1) as (_ & Hm & Hd & _ & _).
    fold w2 in Hm, Hd.
    assert (Hw1 : map w1 = map w /\ dispatched w1 = dispatched w).
    { unfold w1. rewrite input_shape. cbn. auto. }
    destruct Hw1 as (Hm1 & Hd1).
    destruct (arrive_store (now ev) w2) as [(_ & -> & ->) | ((mt & E & Ei) & -> & ->)].
    + left. rewrite Hm, Hd, Hm1, Hd1, destroyed_app. cbn. split; [reflexivity | lia].
    + right. exists (under w2), mt. rewrite Hm, Hm1 in *.
      rewrite Hd, Hd1, destroyed_app. cbn. repeat split; try assumption. lia.
  - destruct (tick_not_arriving _ _ Harr) as (p & t & ->). left. split; reflexivity.
Qed.

Lemma fire_store i w :
  map (fire i w) = map w /\ dispatched (fire i w) = dispatched w.
Proof.
  unfold fire. destruct (timers w !! i) as [[]|]; split; reflexivity.
Qed.

Lemma handlePurchase_store answer item w :
  map (BuildingHandlerMethods.handlePurchase answer item w) = map w
  /\ dispatched (BuildingHandlerMethods.handlePurchase answer item w) = dispatched w.
Proof.
  unfold BuildingHandlerMethods.handlePurchase.
  destruct (JS.ltb _ _); [split; reflexivity|].
  destruct (BuildingHandler.id item); try (split; reflexivity).
  destruct (_ !! _); split; reflexivity.
Qed.

Lemma applySaveData_store sd w :
  map (snd (SaveHandler.applySaveData sd w)) = map w
  /\ dispatched (snd (SaveHandler.applySaveData sd w)) = dispatched w.
Proof.
  unfold SaveHandler.applySaveData.
  destruct (SaveData.player sd) as [pd|]; [|split; reflexivity].
  destruct (SaveData.position pd), (SaveData.cargo pd),
    (SaveData.cargoCapacity pd) as [c|]; try destruct (JS.truthy c);
    destruct (SaveData.world sd) as [wd|]; try (split; reflexivity);
    destruct (SaveData.waypoints wd); split; reflexivity.
Qed.

(** Only a tick touches the store and the log. *)
Lemma step_store a w :
  map (step a w) = map w
  /\ destroyed (dispatched (step a w)) = destroyed (dispatched w)
  \/ exists here mt,
       GameMap.fg_tiles (map w) !! here = Some mt
       /\ MapTile.interactable (MapTile.properties mt) = false
       /\ map (step a w)
          = GameMap.set_fg_tiles (delete here (GameMap.fg_tiles (map w))) (map w)
       /\ destroyed (dispatched (step a w)) = S (destroyed (dispatched w)).
Proof.
  destruct a as [ev|i|answer o i| |n|]; cbn [step].
  - apply tick_store.
  - left. destruct (fire_store i w) as [-> ->]. auto.
  - left. destruct (_ !! o) as [ov|]; [|auto].
    destruct (_ !! i) as [item|]; [|auto].
    destruct (handlePurchase_store answer item w) as [-> ->]. auto.
  - left. destruct (BuildingHandler.overlays _); auto.
  - left. auto.
  - left. unfold SaveHandler.restore. destruct (SaveHandler.loadGame w) as [sd|]; [|auto].
    destruct (applySaveData_store sd w) as [-> ->]. auto.
Qed.

(** X3.  No step of a session adds a tile to the store or changes one: the
    store only shrinks, and a building (an interactable tile) is never
    removed. *)
Theorem tiles_only_disappear l w :
  GameMap.fg_tiles (map (steps l w)) ⊆ GameMap.fg_tiles (map w)
  /\ forall pos mt,
       GameMap.fg_tiles (map w) !! pos = Some mt ->
       MapTile.interactable (MapTile.properties mt) = true ->
       GameMap.fg_tiles (map (steps l w)) !! pos = Some mt.
Proof.
  revert w. induction l as [|a l IH]; intros w; [split; [reflexivity | auto]|].
  change (steps (a :: l) w) with (steps l (step a w)).
  destruct (IH (step a w)) as [Hsub Hkeep].
  destruct (step_store a w) as [[Hm _] | (here & mt0 & E & Ei & Hm & _)];
    rewrite Hm in Hsub, Hkeep.
  - split; [exact Hsub | exact Hkeep].
  - cbn in Hsub, Hkeep. split.
    + etransitivity; [exact Hsub | apply delete_subseteq].
    + intros pos mt Hpos Hint. apply Hkeep; [|exact Hint].
      rewrite lookup_delete_ne; [exact Hpos|]. congruence.
Qed.

(** On the sample run: the long tick mines the grass at (20, 8); the shop
    at (5, 8) is still there. *)
Lemma tiles_only_disappear_witness :
  GameMap.fg_tiles (map (steps [Tick Example.longTick] Example.digging))
    ⊆ GameMap.fg_tiles (map Example.digging)
  /\ GameMap.fg_tiles (map (steps [Tick Example.longTick] Example.digging))
       !! mkTile 5 8 = Some (Tiles.Shop (mkTile 5 8)).
Proof.
  destruct (tiles_only_disappear [Tick Example.longTick] Example.digging)
    as [Hsub Hkeep].
  split; [exact Hsub|]. apply Hkeep; vm_compute; reflexivity.
Defined.

(** X4.  Over any session, the tiles left in the store and the
    [tiledestroy] events in the log add up to the same number: every tile
    that leaves the store is reported once, and nothing else is. *)
Theorem every_lost_tile_is_reported l w :
  (size (GameMap.fg_tiles (map (steps l w))) + destroyed (dispatched (steps l w))
   = size (GameMap.fg_tiles (map w)) + destroyed (dispatched w))%nat.
Proof.
  revert w. induction l as [|a l IH]; intros w; [reflexivity|].
  change (steps (a :: l) w) with (steps l (step a w)). rewrite IH.
  destruct (step_store a w) as [[-> ->] | (here & mt0 & E & Ei & -> & ->)];
    [reflexivity|].
  cbn [GameMap.fg_tiles GameMap.set_fg_tiles].
  rewrite map_size_delete, E.
  assert (size (GameMap.fg_tiles (map w)) <> 0)%nat; [|lia].
  intros H0. apply map_size_empty_inv in H0. rewrite H0 in E.
  rewrite lookup_empty in E. discriminate.
Qed.

Lemma input_economy keys w : economy (player (input keys w)) = economy (player w).
Proof. unfold input, kpCharge, logic, onPlayer. split_ifs; reflexivity. Qed.

Lemma outOfFuel_economy w : economy (player (outOfFuel w)) = economy (player w).
Proof. unfold outOfFuel. destruct (fuelDebounce _); reflexivity. Qed.

Lemma syncWasMoving_economy w :
  economy (player (syncWasMoving w)) = economy (player w).
Proof. rewrite syncWasMoving_shape. reflexivity. Qed.

(** X5.  A tick never touches the money, the tank ([maxFuel], [tank]), the
    speed settings ([speedMultiplier], [defaultSpeed]) or the charge
    threshold, whatever the keys and the time step. *)
Theorem tick_keeps_economy ev w :
  economy (player (tick ev w)) = economy (player w).
Proof.
  destruct (tick_cases ev w) as [-> | [-> | [-> | [[_ ->] | [_ ->]]]]].
  - reflexivity.
  - apply outOfFuel_economy.
  - rewrite outOfFuel_economy. apply input_economy.
  - rewrite syncWasMoving_economy, move_inert by inert. apply input_economy.
  - rewrite syncWasMoving_economy. apply input_economy.
Qed.

(** X6.  With a time step that is not negative, no tick raises the fuel
    level. *)
Theorem tick_never_refuels ev w :
  0 <= delta ev ->
  fuel (player (tick ev w)) <= fuel (player w).
Proof.
  intros Hd.
  destruct (tick_cases ev w) as [-> | [-> | [-> | [[_ ->] | [_ ->]]]]].
  - lra.
  - rewrite outOfFuel_fuel. lra.
  - rewrite outOfFuel_fuel, input_fuel. lra.
  - rewrite syncWasMoving_fuel, move_fuel.
    rewrite <- (input_fuel (pressedKeys ev) w).
    set (w1 := input (pressedKeys ev) w).
    unfold burn. destruct (JS.ltb _ _); [|lra].
    destruct (minetile (player w1)); unfold updateFuel; proj;
      cbn [fuel set_fuel]; qlra.
  - rewrite syncWasMoving_fuel, input_fuel. lra.
Qed.

Lemma tick_never_refuels_witness :
  fuel (player (tick Example.longTick Example.digging))
  <= fuel (player Example.digging).
Proof.
  apply tick_never_refuels. vm_compute. congruence.
Defined.

Lemma set_dispatched_map d w : map (set_dispatched d w) = map w.
Proof. reflexivity. Qed.

Lemma set_dispatched_buildingHandler d w :
  buildingHandler (set_dispatched d w) = buildingHandler w.
Proof. reflexivity. Qed.

Lemma set_dispatched_localStorage d w :
  localStorage (set_dispatched d w) = localStorage w.
Proof. reflexivity. Qed.

(** The listener of [tilemove] does nothing on a cell that holds no
    building. *)
Lemma dispatchEvent_quiet now detail w :
  (forall mt, GameMap.fg_tiles (map w) !! detail = Some mt ->
              MapTile.interactable (MapTile.properties mt) = false) ->
  buildingHandler (dispatchEvent now (tilemove detail) w) = buildingHandler w
  /\ localStorage (dispatchEvent now (tilemove detail) w) = localStorage w.
Proof.
  intros H. unfold dispatchEvent, BuildingHandlerMethods.onPlayerMove.
  rewrite set_dispatched_map.
  destruct (GameMap.fg_tiles (map w) !! detail) as [mt|]; [|split; reflexivity].
  rewrite (H mt eq_refl). split; reflexivity.
Qed.

Lemma onPlayer_localStorage f w : localStorage (onPlayer f w) = localStorage w.
Proof. reflexivity. Qed.

Lemma onMap_localStorage f w : localStorage (onMap f w) = localStorage w.
Proof. reflexivity. Qed.

Lemma dispatchEvent_destroy now t w :
  dispatchEvent now (tiledestroy t) w = set_dispatched (dispatched w ++ [tiledestroy t]) w.
Proof. reflexivity. Qed.

Lemma snapped_frame w :
  map (snapped w) = map w /\ buildingHandler (snapped w) = buildingHandler w
  /\ localStorage (snapped w) = localStorage w.
Proof. auto. Qed.

(** Completing a move onto a cell without a building leaves the building
    handler and the storage alone. *)
Lemma arrive_quiet now w :
  (forall mt, GameMap.fg_tiles (map w) !! under w = Some mt ->
              MapTile.interactable (MapTile.properties mt) = false) ->
  buildingHandler (arrive now w) = buildingHandler w
  /\ localStorage (arrive now w) = localStorage w.
Proof.
  intros H. rewrite arrive_unfold.
  destruct (snapped_frame w) as (Hm & Hb & Hl).
  destruct (GameMap.fg_tiles (map w) !! under w) as [mt|] eqn:E.
  - rewrite (H mt eq_refl).
    match goal with
    | |- buildingHandler (dispatchEvent _ _ ?W) = _ /\ _ =>
        destruct (dispatchEvent_quiet now (under w) W) as [-> ->]
    end.
    + intros mt'. proj. rewrite dispatchEvent_destroy.
      rewrite set_dispatched_map. proj.
      cbn [GameMap.fg_tiles GameMap.set_fg_tiles].
      rewrite lookup_delete_eq. discriminate.
    + rewrite dispatchEvent_destroy. proj.
      rewrite onPlayer_localStorage.
      rewrite set_dispatched_buildingHandler, set_dispatched_localStorage.
      proj. rewrite onMap_localStorage, onPlayer_localStorage. auto.
  - destruct (dispatchEvent_quiet now (under w) (snapped w)) as [-> ->]; [|auto].
    intros mt'. rewrite Hm, E. discriminate.
Qed.

Lemma syncWasMoving_handler w :
  buildingHandler (syncWasMoving w) = buildingHandler w
  /\ localStorage (syncWasMoving w) = localStorage w.
Proof. rewrite syncWasMoving_shape. auto. Qed.

(** X7.  A tick reaches the building handler and the storage only when it
    completes a move onto a building: in every other tick both are left as
    they were. *)
Theorem menus_open_only_on_arrival_at_a_building ev w :
  (arrives ev w = true ->
   forall mt, GameMap.fg_tiles (map w) !! destination ev w = Some mt ->
              MapTile.interactable (MapTile.properties mt) = false) ->
  buildingHandler (tick ev w) = buildingHandler w
  /\ localStorage (tick ev w) = localStorage w.
Proof.
  intros H. destruct (arrives ev w) eqn:Harr.
  - specialize (H eq_refl). rewrite (tick_arriving _ _ Harr).
    set (w1 := input (pressedKeys ev) w) in *.
    set (w2 := advance (delta ev) (burn (delta ev) w1)) in *.
    destruct (travel_frame (delta ev) w1) as (Hg & Hm & _ & _ & Ht).
    fold w2 in Hg, Hm, Ht.
    assert (Hw1 : grid w1 = grid w /\ map w1 = map w
                  /\ buildingHandler w1 = buildingHandler w
                  /\ localStorage w1 = localStorage w).
    { unfold w1. rewrite input_shape. cbn. auto. }
    destruct Hw1 as (Hg1 & Hm1 & Hb1 & Hl1).
    assert (Hw2 : buildingHandler w2 = buildingHandler w1
                  /\ localStorage w2 = localStorage w1).
    { unfold w2. rewrite advance_shape, burn_shape. cbn. auto. }
    destruct Hw2 as (Hb2 & Hl2).
    assert (Hu : under w2 = destination ev w).
    { unfold under, destination. fold w1. rewrite Hg, Ht, Hg1. reflexivity. }
    destruct (syncWasMoving_handler (arrive (now ev) w2)) as [-> ->].
    destruct (arrive_quiet (now ev) w2) as [-> ->].
    + rewrite Hu, Hm, Hm1. exact H.
    + split; congruence.
  - destruct (tick_not_arriving _ _ Harr) as (p & t & ->). split; reflexivity.
Qed.

Lemma menus_open_only_on_arrival_at_a_building_witness :
  buildingHandler (tick Example.longTick Example.digging)
  = buildingHandler Example.digging
  /\ localStorage (tick Example.longTick Example.digging)
     = localStorage Example.digging.
Proof.
  apply menus_open_only_on_arrival_at_a_building.
  intros _ mt H. vm_compute in H. injection H as <-. reflexivity.
Defined.

(** *** Committing a move *)

Lemma nextTarget_facing d d' w :
  nextTarget d (onPlayer (set_facingDirection d') w) = nextTarget d w.
Proof. reflexivity. Qed.

(** The closure of the commit, past the test "already there". *)
Lemma logic_blocked d mt w :
  JS.eqb (px (nextTarget d w)) (x (player w))
  && JS.eqb (py (nextTarget d w)) (y (player w)) = true ->
  logic d mt w = onPlayer (set_targetPos (nextTarget d w)) w.
Proof.
  intros H. unfold logic. cbn zeta. proj.
  cbn [targetPos set_targetPos x y]. rewrite H. reflexivity.
Qed.

Lemma logic_committed d w :
  JS.eqb (px (nextTarget d w)) (x (player w))
  && JS.eqb (py (nextTarget d w)) (y (player w)) = false ->
  exists s m,
    s == defaultSpeed (player w)
    /\ player (logic d None w)
       = set_minetile m (set_speed s (set_isStopping false (set_moving true
           (set_targetPos (nextTarget d w) (player w))))).
Proof.
  intros H. unfold logic. cbn zeta. proj.
  cbn [targetPos set_targetPos x y]. rewrite H. proj.
  cbn [speed defaultSpeed set_isStopping set_moving set_targetPos].
  destruct (JS.eqb (speed (player w)) (defaultSpeed (player w))) eqn:E;
    cbn [negb]; proj.
  - apply eqb_true in E. exists (speed (player w)), (minetile (player w)).
    split; [exact E|]. destruct (player w). reflexivity.
  - exists (defaultSpeed (player w)), None. split; [reflexivity|].
    destruct (player w). reflexivity.
Qed.

Lemma syncWasMoving_player w :
  player (syncWasMoving w)
  = set_wasMoving (wasMoving (player (syncWasMoving w))) (player w).
Proof. rewrite syncWasMoving_shape at 1. reflexivity. Qed.

(** X8.  A move into an empty cell is committed on the very tick the key is
    read, whatever the charge: the target is set one clamped tile ahead, the
    player faces the key's direction and travels at [defaultSpeed]. *)
Theorem empty_cell_commits_at_once ev d w :
  ready w ->
  checkDirection (pressedKeys ev) = Some d ->
  GameMap.fg_tiles (map w) !! ahead d (tile (player w)) = None ->
  ~ (px (nextTarget d w) == x (player w) /\ py (nextTarget d w) == y (player w)) ->
  let w' := tick ev w in
  targetPos (player w') = nextTarget d w
  /\ facingDirection (player w') = d
  /\ speed (player w') == defaultSpeed (player w).
Proof.
  intros (Hen & Hfuel & Hmov & Hcan) Hd Hcell Hfar. cbn zeta.
  assert (Hne : JS.eqb (px (nextTarget d w)) (x (player w))
                && JS.eqb (py (nextTarget d w)) (y (player w)) = false).
  { apply not_true_is_false. rewrite andb_true_iff. intros [H1 H2].
    apply eqb_true in H1, H2. auto. }
  destruct (logic_committed d (onPlayer (set_facingDirection d) w) Hne)
    as (s & m & Hs & Hp).
  rewrite nextTarget_facing in Hp.
  set (w0 := onPlayer (set_facingDirection d) w) in *.
  assert (Hin : exists c,
            player (input (pressedKeys ev) w)
            = set_charge c (set_minetile m (set_speed s (set_isStopping false
                (set_moving true (set_targetPos (nextTarget d w) (player w0))))))).
  { unfold input. rewrite Hmov, Hcan, Hd, Hcell. cbn [negb andb].
    fold w0. unfold kpCharge.
    destruct (_ <=? _)%Z; proj; rewrite Hp.
    - eexists. reflexivity.
    - exists (charge (player w0)). unfold w0. proj. destruct (player w).
      reflexivity. }
  destruct Hin as (c & Hin).
  assert (Hf : JS.leb (fuel (player w)) 0 = false) by (apply leb_false; exact Hfuel).
  set (w1 := input (pressedKeys ev) w) in *.
  assert (Hm1 : moving (player w1) = true) by (rewrite Hin; reflexivity).
  assert (Hf1 : JS.leb (fuel (player w1)) 0 = false).
  { unfold w1. rewrite input_fuel. exact Hf. }
  assert (Ht : tick ev w = syncWasMoving (move ev w1)).
  { unfold tick. rewrite Hen, Hf. cbn [negb]. fold w1. rewrite Hm1, Hf1.
    reflexivity. }
  rewrite Ht. split; [|split].
  - rewrite syncWasMoving_player. cbn [targetPos set_wasMoving].
    rewrite move_inert by inert. rewrite Hin. reflexivity.
  - rewrite syncWasMoving_player. cbn [facingDirection set_wasMoving].
    rewrite move_inert by inert. rewrite Hin. reflexivity.
  - rewrite syncWasMoving_player. cbn [speed set_wasMoving].
    rewrite move_inert by inert. rewrite Hin. exact Hs.
Qed.

Lemma empty_cell_commits_at_once_witness :
  let w' := tick Example.pressRight Example.start in
  targetPos (player w') = nextTarget RIGHT Example.start
  /\ facingDirection (player w') = RIGHT
  /\ speed (player w') == defaultSpeed (player Example.start).
Proof.
  apply (empty_cell_commits_at_once Example.pressRight RIGHT Example.start).
  - vm_compute. auto.
  - vm_compute. reflexivity.
  - vm_compute. reflexivity.
  - vm_compute. intros [H _]. discriminate H.
Defined.

(** *** The borders *)

Lemma nextTarget_against d w :
  0 <= Grid.tileSize (grid w) ->
  againstBorder d w ->
  JS.eqb (px (nextTarget d w)) (x (player w))
  && JS.eqb (py (nextTarget d w)) (y (player w)) = true.
Proof.
  intros Hts (Hx & Hy & Hb). apply andb_true_iff.
  destruct d; unfold nextTarget; cbn [px py];
    match goal with
    | |- context [JS.ltb ?a ?b] =>
        destruct (JS.ltb a b) eqn:E;
        [apply ltb_true in E | apply ltb_false in E]
    end;
    split; apply eqb_true; lra.
Qed.

Lemma input_against keys d w :
  0 <= Grid.tileSize (grid w) ->
  checkDirection keys = Some d ->
  againstBorder d w ->
  moving (player w) = false ->
  moving (player (input keys w)) = false.
Proof.
  intros Hts Hd Hb Hmov. unfold input. rewrite Hmov, Hd.
  destruct (canMove (player w)); cbn [negb andb]; [|exact Hmov].
  set (mt := GameMap.fg_tiles (map w) !! ahead d (tile (player w))).
  set (w0 := onPlayer (set_facingDirection d) w).
  assert (Hl : logic d mt w0 = onPlayer (set_targetPos (nextTarget d w)) w0).
  { apply (logic_blocked d mt w0), (nextTarget_against d w Hts Hb). }
  unfold kpCharge. rewrite Hl.
  destruct mt; [destruct (_ <? _)%Z|];
    destruct (_ <=? _)%Z; proj; exact Hmov.
Qed.

(** X9.  A player who stands on its target against a border of the world
    and presses the key that leads across it does not move: after the tick
    it is still at rest at the same place, and nothing is dug or
    dispatched. *)
Theorem border_blocks_the_move ev d w :
  0 <= Grid.tileSize (grid w) ->
  ready w ->
  checkDirection (pressedKeys ev) = Some d ->
  againstBorder d w ->
  let w' := tick ev w in
  moving (player w') = false
  /\ x (player w') = x (player w) /\ y (player w') = y (player w)
  /\ map w' = map w /\ dispatched w' = dispatched w.
Proof.
  intros Hts (Hen & Hfuel & Hmov & Hcan) Hd Hb. cbn zeta.
  pose proof (input_against _ _ _ Hts Hd Hb Hmov) as Hm1.
  assert (Ht : tick ev w = syncWasMoving (input (pressedKeys ev) w)).
  { unfold tick. rewrite Hen. apply leb_false in Hfuel. rewrite Hfuel.
    cbn [negb]. rewrite Hm1. reflexivity. }
  rewrite Ht, syncWasMoving_map, syncWasMoving_dispatched, syncWasMoving_player.
  cbn [moving x y set_wasMoving]. rewrite Hm1, input_x, input_y.
  rewrite input_shape. auto.
Qed.

Lemma border_blocks_the_move_witness :
  let w' := tick {| delta := 16; pressedKeys := ["w"%string]; now := 0 |}
              Example.start in
  moving (player w') = false
  /\ x (player w') = x (player Example.start)
  /\ y (player w') = y (player Example.start)
  /\ map w' = map Example.start /\ dispatched w' = dispatched Example.start.
Proof.
  apply (border_blocks_the_move
           {| delta := 16; pressedKeys := ["w"%string]; now := 0 |} UP).
  - vm_compute. discriminate.
  - vm_compute. auto.
  - vm_compute. reflexivity.
  - vm_compute. auto.
Defined.

Lemma nextTarget_inBorders d w :
  let g := grid w in
  let h := GameMap.horizonLine (map w) in
  sound g h ->
  inBorders g h (targetPos (player w)) ->
  inBorders g h (nextTarget d w).
Proof.
  cbn zeta. intros (Hts & Hx & Hy) ((Hl & Hr) & (Ht & Hb)).
  unfold inBorders.
  destruct d; unfold nextTarget; cbn [px py];
    match goal with
    | |- context [JS.ltb ?a ?b] =>
        destruct (JS.ltb a b) eqn:E;
        [apply ltb_true in E | apply ltb_false in E]
    end; repeat split; lra.
Qed.

Lemma input_target keys w :
  targetPos (player (input keys w)) = targetPos (player w)
  \/ exists d, targetPos (player (input keys w)) = nextTarget d w.
Proof.
  unfold input.
  destruct (negb _ && _); [|auto].
  destruct (checkDirection keys) as [d|].
  - set (mt := GameMap.fg_tiles (map w) !! ahead d (tile (player w))).
    assert (Hl : targetPos (player (logic d mt (onPlayer (set_facingDirection d) w)))
                 = nextTarget d w).
    { unfold logic, onPlayer. split_ifs; reflexivity. }
    unfold kpCharge.
    destruct mt; [destruct (_ <? _)%Z|]; destruct (_ <=? _)%Z; proj;
      cbn [targetPos set_charge]; rewrite ?Hl; eauto.
  - left. split_ifs; reflexivity.
Qed.

(** X10.  On a grid whose rectangle is not empty, a target inside the
    borders stays inside them over a tick, whatever keys are held. *)
Theorem target_stays_in_borders ev w :
  let g := grid w in
  let h := GameMap.horizonLine (map w) in
  sound g h ->
  inBorders g h (targetPos (player w)) ->
  inBorders g h (targetPos (player (tick ev w))).
Proof.
  cbn zeta. intros Hs Hin.
  assert (Hi : inBorders (grid w) (GameMap.horizonLine (map w))
                 (targetPos (player (input (pressedKeys ev) w)))).
  { destruct (input_target (pressedKeys ev) w) as [-> | [d ->]];
      [exact Hin | apply nextTarget_inBorders; assumption]. }
  destruct (tick_cases ev w) as [-> | [-> | [-> | [[_ ->] | [_ ->]]]]].
  - exact Hin.
  - unfold outOfFuel. destruct (fuelDebounce _); exact Hin.
  - unfold outOfFuel. destruct (fuelDebounce _); exact Hi.
  - rewrite syncWasMoving_player. cbn [targetPos set_wasMoving].
    rewrite move_inert by inert. exact Hi.
  - rewrite syncWasMoving_player. exact Hi.
Qed.

Lemma target_stays_in_borders_witness :
  inBorders (grid Example.start) (GameMap.horizonLine (map Example.start))
    (targetPos (player (tick Example.pressRight Example.start))).
Proof.
  apply target_stays_in_borders; vm_compute; intuition discriminate.
Defined.

(** *** Travelling *)

Lemma advance_between d w :
  0 <= speed (player w) * d ->
  shortOfTarget w ->
  advancedTowards w (advance d w).
Proof.
  unfold shortOfTarget, advancedTowards, advance. cbn zeta.
  intros Hd Hs.
  destruct (negb _ || negb _);
    destruct (facingDirection (player w)); proj; cbn [x y set_x set_y];
    try lra;
    match goal with
    | |- context [JS.ltb ?a ?b] =>
        destruct (JS.ltb a b) eqn:E;
        [apply ltb_true in E | apply ltb_false in E]
    end; lra.
Qed.

Lemma burn_player d w : player (burn d w) = set_fuel (fuel (player (burn d w))) (player w).
Proof. rewrite burn_shape at 1. reflexivity. Qed.

Lemma advance_player d w :
  player (advance d w)
  = set_y (y (player (advance d w))) (set_x (x (player (advance d w))) (player w)).
Proof. rewrite advance_shape at 1. reflexivity. Qed.

Lemma syncWasMoving_x w : x (player (syncWasMoving w)) = x (player w).
Proof. rewrite syncWasMoving_shape. reflexivity. Qed.

Lemma syncWasMoving_y w : y (player (syncWasMoving w)) = y (player w).
Proof. rewrite syncWasMoving_shape. reflexivity. Qed.

Lemma syncWasMoving_moving w :
  moving (player (syncWasMoving w)) = moving (player w).
Proof. rewrite syncWasMoving_shape. reflexivity. Qed.

(** X11.  A tick of a move under way never carries the player past the
    target: with a time step and a speed that are not negative, the
    coordinate along the move ends between where it was and the target, and
    the player stops only exactly on the target. *)
Theorem move_never_overshoots ev w :
  tickEnabled (player w) = true ->
  0 < fuel (player w) ->
  moving (player w) = true ->
  0 <= delta ev -> 0 <= speed (player w) ->
  shortOfTarget w ->
  advancedTowards w (tick ev w)
  /\ (moving (player (tick ev w)) = false ->
      x (player (tick ev w)) = px (targetPos (player w))
      /\ y (player (tick ev w)) = py (targetPos (player w))).
Proof.
  intros Hen Hfuel Hmov Hd Hsp Hs.
  assert (Ht : tick ev w = syncWasMoving (move ev w)).
  { unfold tick. rewrite Hen. apply leb_false in Hfuel.
    rewrite Hfuel. cbn [negb]. rewrite (input_moving _ _ Hmov), Hmov, Hfuel.
    reflexivity. }
  set (w1 := burn (delta ev) w).
  assert (H1 : shortOfTarget w1 /\ speed (player w1) = speed (player w)
               /\ facingDirection (player w1) = facingDirection (player w)
               /\ targetPos (player w1) = targetPos (player w)
               /\ x (player w1) = x (player w) /\ y (player w1) = y (player w)
               /\ moving (player w1) = true).
  { unfold shortOfTarget, w1. rewrite burn_player. cbn. auto 10. }
  destruct H1 as (Hs1 & Hsp1 & Hf1 & Ht1 & Hx1 & Hy1 & Hm1).
  assert (Hadv : advancedTowards w1 (advance (delta ev) w1)).
  { apply advance_between; [|exact Hs1]. rewrite Hsp1.
    apply Qmult_le_0_compat; assumption. }
  set (w2 := advance (delta ev) w1) in *.
  assert (H2 : facingDirection (player w2) = facingDirection (player w1)
               /\ targetPos (player w2) = targetPos (player w1)
               /\ moving (player w2) = true).
  { unfold w2. rewrite advance_player. cbn. auto. }
  destruct H2 as (Hf2 & Ht2 & Hm2).
  unfold advancedTowards in *.
  rewrite Ht, !syncWasMoving_x, !syncWasMoving_y, syncWasMoving_moving.
  unfold move. fold w1. fold w2.
  rewrite Hf1, Ht1, Hx1, Hy1 in Hadv. unfold shortOfTarget in Hs.
  destruct (completed w2).
  - destruct (arrive_player (now ev) w2) as (mt & h & ->).
    unfold snapped. proj.
    cbn [x y moving set_minetile set_hold set_tile set_isStopping set_moving
         set_x set_y].
    rewrite Ht2, Ht1.
    split; [|auto].
    destruct (facingDirection (player w)); lra.
  - split; [exact Hadv|]. rewrite Hm2. discriminate.
Qed.

Lemma move_never_overshoots_witness :
  advancedTowards Example.digging (tick Example.longTick Example.digging)
  /\ (moving (player (tick Example.longTick Example.digging)) = false ->
      x (player (tick Example.longTick Example.digging))
      = px (targetPos (player Example.digging))
      /\ y (player (tick Example.longTick Example.digging))
         = py (targetPos (player Example.digging))).
Proof.
  apply move_never_overshoots; vm_compute; congruence.
Defined.

(** *** The price of an empty tank *)

Lemma tick_standing cb ev w :
  Recovery.awaiting cb w ->
  Recovery.awaiting cb (tick ev w) /\ standing (tick ev w) = standing w.
Proof.
  intros Ha. split; [apply (RecoveryFacts.tick_awaiting cb ev w Ha)|].
  destruct Ha as (Hen & Hcan & Hmov & Hdeb & Htm).
  assert (Ht : tick ev w = w \/ tick ev w = syncWasMoving w).
  { unfold tick. rewrite Hen. cbn [negb].
    destruct (JS.leb (fuel (player w)) 0).
    - left. apply RecoveryFacts.outOfFuel_again, Hdeb.
    - right. unfold input. rewrite Hmov, Hcan. cbn [negb andb]. rewrite Hmov.
      reflexivity. }
  destruct Ht as [-> | ->]; [reflexivity|].
  rewrite syncWasMoving_shape. reflexivity.
Qed.

Lemma ticks_standing cb evs : forall w,
  Recovery.awaiting cb w ->
  Recovery.awaiting cb (steps (List.map Tick evs) w)
  /\ standing (steps (List.map Tick evs) w) = standing w.
Proof.
  induction evs as [|ev evs IH]; intros w Ha; [split; [exact Ha | reflexivity]|].
  change (steps (List.map Tick (ev :: evs)) w)
    with (steps (List.map Tick evs) (tick ev w)).
  destruct (tick_standing cb ev w Ha) as (Ha1 & Hs1).
  destruct (IH _ Ha1) as (Ha2 & Hs2).
  split; [exact Ha2 | congruence].
Qed.

Lemma fadedOut_standing w :
  timers w = [FadedOut] ->
  standing (fire O w)
  = (px (spawn w), py (spawn w),
     charged (depth (y (player w)) (Grid.tileSize (grid w))) (player w),
     maxFuel (player w), hold (player w), spawn w, RIGHT,
     Grid.getTilePositionFromPixelPosition (grid w) (px (spawn w)) (py (spawn w)),
     grid w, map w).
Proof.
  intros Htm. unfold fire. rewrite Htm. reflexivity.
Qed.

Lemma fire_standing cb w :
  timers w = [cb] -> cb <> FadedOut -> standing (fire O w) = standing w.
Proof.
  intros Htm Hcb. unfold fire. rewrite Htm.
  destruct cb; [congruence | reflexivity | reflexivity].
Qed.

(** X12.  What a recovery from an empty tank costs: when the three callbacks
    have run, whatever ticks come in between, the player has paid
    [depth + maxFuel], where [depth] is [Math.round((y / tileSize - 7) * 5)]
    as the doubles compute it at the place it stranded (a finite number:
    the tile size is not 0), with no check that it can afford it; it stands
    at the spawn point facing RIGHT with the target on the same spot, and
    has kept its cargo; the map is untouched. *)
Theorem stranding_costs_depth_and_tank ev evs1 evs2 evs3 w d :
  tickEnabled (player w) = true -> fuel (player w) <= 0 ->
  fuelDebounce (player w) = false -> timers w = [] ->
  depth (y (player w)) (Grid.tileSize (grid w)) = Some d ->
  let w' := steps (Recovery.schedule ev evs1 evs2 evs3) w in
  money (player w') = money (player w) - (inject_Z d + maxFuel (player w))
  /\ x (player w') = px (spawn w) /\ y (player w') = py (spawn w)
  /\ targetPos (player w') = spawn w
  /\ facingDirection (player w') = RIGHT
  /\ tile (player w')
     = Grid.getTilePositionFromPixelPosition (grid w) (px (spawn w)) (py (spawn w))
  /\ hold (player w') = hold (player w)
  /\ map w' = map w.
Proof.
  intros Hen Hf Hdeb Htm Hd. cbn zeta.
  unfold Recovery.schedule, steps.
  cbn [fold_left step]. rewrite !fold_left_app. cbn [fold_left step].
  fold (steps (List.map Tick evs1) (tick ev w)).
  assert (H0 : Recovery.awaiting FadedOut (tick ev w)
               /\ standing (tick ev w) = standing w).
  { rewrite RecoveryFacts.tick_triggers, RecoveryFacts.outOfFuel_first by assumption.
    unfold DisplayHandler.fade, Recovery.awaiting. proj. rewrite Htm.
    split; [auto 10 | reflexivity]. }
  destruct H0 as (H0 & S0).
  destruct (ticks_standing _ evs1 _ H0) as (H1 & S1).
  set (w1 := steps (List.map Tick evs1) (tick ev w)) in *.
  destruct (RecoveryFacts.fire_fadedOut w1 H1) as (H2 & _).
  pose proof (fadedOut_standing w1 (proj2 (proj2 (proj2 (proj2 H1))))) as S2.
  fold (steps (List.map Tick evs2) (fire O w1)).
  destruct (ticks_standing _ evs2 _ H2) as (H3 & S3).
  set (w2 := steps (List.map Tick evs2) (fire O w1)) in *.
  destruct (RecoveryFacts.fire_delayed w2 H3) as (H4 & _).
  pose proof (fire_standing Delayed w2 (proj2 (proj2 (proj2 (proj2 H3))))
                ltac:(discriminate)) as S4.
  fold (steps (List.map Tick evs3) (fire O w2)).
  destruct (ticks_standing _ evs3 _ H4) as (H5 & S5).
  set (w3 := steps (List.map Tick evs3) (fire O w2)) in *.
  pose proof (fire_standing FadedIn w3 (proj2 (proj2 (proj2 (proj2 H5))))
                ltac:(discriminate)) as S6.
  rewrite S5, S4, S3, S2 in S6.
  rewrite S0 in S1. unfold standing in S1, S6.
  injection S1 as Ex Ey Em Emf Eh Et Ed Eti Eg Ema.
  injection S6 as -> -> -> _ -> -> -> -> _ ->.
  unfold spawn. rewrite Ey, Eg, Hd. unfold charged.
  rewrite Em, Emf, Eh, Ema. auto 10.
Qed.

(** Stranded at [y = 365] on tiles of 50: the doubles give
    [(365 / 50 - 7) * 5 = 1.4999999999999991], so the depth charged is 1,
    where the exact value 3/2 would round to 2. *)
Lemma stranding_costs_depth_and_tank_witness :
  let w := Example.aground in
  let w' := steps (Recovery.schedule Example.noKeys [Example.noKeys]
                     [Example.noKeys] [Example.noKeys]) w in
  y (player w) == 365
  /\ JS.round ((y (player w) / Grid.tileSize (grid w) - 7) * 5) = 2%Z
  /\ depth (y (player w)) (Grid.tileSize (grid w)) = Some 1%Z
  /\ money (player w') = money (player w) - (inject_Z 1 + maxFuel (player w))
  /\ x (player w') = px (spawn w) /\ y (player w') = py (spawn w)
  /\ targetPos (player w') = spawn w
  /\ facingDirection (player w') = RIGHT
  /\ tile (player w')
     = Grid.getTilePositionFromPixelPosition (grid w) (px (spawn w)) (py (spawn w))
  /\ hold (player w') = hold (player w)
  /\ map w' = map w.
Proof.
  cbn zeta.
  split; [reflexivity|]. split; [vm_compute; reflexivity|].
  split; [vm_compute; reflexivity|].
  apply (stranding_costs_depth_and_tank Example.noKeys);
    vm_compute; congruence.
Defined.

End MotionFacts.

(** ** More on map generation: the surface, the extent, the draws *)

Module LayoutFacts.
Import GameMap MapTile Tiles JSFacts Ore OreFacts Layout.

(** A column that does not throw receives its tile. *)
Lemma surfaceCell_tile T g m i :
  (i < Grid.widthGU g)%Z ->
  throwsAt g m i = false ->
  exists mt,
    surfaceTile T m i = Some mt
    /\ fg_tiles (state (surfaceCell T g m i))
       = <[mkTile i (horizonLineGU m) := mt]> (fg_tiles m).
Proof.
  intros Hi. unfold surfaceCell, surfaceTile, throwsAt. cbn zeta.
  destruct (find _ _) as [b|]; [|eauto].
  apply Z.ltb_lt in Hi. rewrite Hi.
  destruct (construct (fst b)) as [mk|]; [|discriminate]. intros _.
  eexists. split; reflexivity.
Qed.

Lemma surfaceTile_cell T m m' i :
  horizonLineGU m' = horizonLineGU m ->
  surfaceBuildings m' = surfaceBuildings m ->
  surfaceTile T m' i = surfaceTile T m i.
Proof. intros Hh Hb. unfold surfaceTile. rewrite Hh, Hb. reflexivity. Qed.

(** The surface loop writes the horizon row of the columns it visits and
    nothing else, whether it throws or not. *)
Lemma surface_out T g l : forall m pos,
  ~ (gY pos = horizonLineGU m /\ gX pos ∈ l) ->
  fg_tiles (state (surface T g l m)) !! pos = fg_tiles m !! pos.
Proof.
  induction l as [|a l IH]; intros m pos Hn; [reflexivity|].
  cbn [surface].
  destruct (surfaceCell_spec T g m a) as (Hh & _ & _ & _ & _).
  assert (Hcell : fg_tiles (state (surfaceCell T g m a)) !! pos = fg_tiles m !! pos).
  { assert (Hne : mkTile a (horizonLineGU m) <> pos).
    { intros <-. apply Hn. cbn. split; [reflexivity | apply elem_of_cons; auto]. }
    unfold surfaceCell. cbn zeta.
    destruct (find _ _) as [bb|];
      [destruct (_ <? _)%Z; [destruct (construct _)|]|]; cbn;
      try reflexivity; apply lookup_insert_ne; exact Hne. }
  destruct (surfaceCell T g m a) as [m1|m1]; cbn [state] in *; [|exact Hcell].
  rewrite IH; [exact Hcell|].
  rewrite Hh. intros [Hy Hx]. apply Hn. split; [exact Hy|].
  apply elem_of_cons. auto.
Qed.

(** Where no column throws, the loop fills the horizon row of the columns
    it visits. *)
Lemma surface_row_spec T g l :
  NoDup l -> (forall i, i ∈ l -> (i < Grid.widthGU g)%Z) -> forall m i,
  Forall (fun j => throwsAt g m j = false) l ->
  i ∈ l ->
  is_Some (surfaceTile T m i)
  /\ fg_tiles (state (surface T g l m)) !! mkTile i (horizonLineGU m)
     = surfaceTile T m i.
Proof.
  induction l as [|a l IH]; intros Hnd Hw m i Hl Hi; [inversion Hi|].
  apply NoDup_cons in Hnd. destruct Hnd as [Ha Hnd].
  apply Forall_cons in Hl. destruct Hl as [Hta Hl].
  assert (Hw' : forall i, i ∈ l -> (i < Grid.widthGU g)%Z).
  { intros j Hj. apply Hw, elem_of_cons. auto. }
  destruct (surfaceCell_spec T g m a) as (Hh & _ & Hb & _ & _).
  destruct (surfaceCell_tile T g m a) as (mt & Hmt & Hfg);
    [apply Hw, elem_of_cons; auto | exact Hta |].
  cbn [surface]. rewrite surfaceCell_outcome, Hta.
  set (m1 := state (surfaceCell T g m a)) in *.
  assert (Hl1 : Forall (fun j => throwsAt g m1 j = false) l).
  { eapply Forall_impl; [exact Hl|].
    intros j Hj. cbn. rewrite (throwsAt_buildings g m _ j Hb). exact Hj. }
  destruct (decide (i ∈ l)) as [Hil|Hil].
  - rewrite <- Hh, <- (surfaceTile_cell T m m1 i Hh Hb).
    apply IH; assumption.
  - apply elem_of_cons in Hi. destruct Hi as [-> | Hi]; [|contradiction].
    rewrite Hmt. split; [eauto|].
    rewrite surface_out.
    + rewrite Hfg. apply lookup_insert_eq.
    + cbn [gX gY]. tauto.
Qed.

(** X13.  The surface row [generate] leaves, whatever the store held
    before: a column of the grid before the one where the surface loop
    throws (any column, if it does not throw) holds the first building that
    [surfaceBuildings] lists for it, and grass when none is listed; from
    the throwing column on, the row is as it was before the call. *)
Theorem surface_row_layout T g seed0 now stream m gx :
  (0 <= gx < Grid.widthGU g)%Z ->
  let m' := state (generate T g seed0 now stream m) in
  let pos := mkTile gx (horizonLineGU m) in
  ((forall c, stopsAt g m = Some c -> (gx < c)%Z) ->
     is_Some (surfaceTile T m gx) /\ fg_tiles m' !! pos = surfaceTile T m gx)
  /\ (forall c, stopsAt g m = Some c -> (c <= gx)%Z ->
        fg_tiles m' !! pos = fg_tiles m !! pos).
Proof.
  intros Hx. cbn zeta.
  set (s := if (seed0 =? 0)%Z then now else seed0).
  set (m1 := set_rng {| draws := stream s; taken := 0 |} (set_seed s m)).
  assert (Htile : forall i, surfaceTile T m1 i = surfaceTile T m i) by reflexivity.
  assert (Hthrow : forall i, throwsAt g m1 i = throwsAt g m i) by reflexivity.
  destruct (stopsAt g m) as [c|] eqn:Hs.
  - destruct (generate_stops T g seed0 now stream m c Hs) as (Hc & Hb & ->).
    fold s. fold m1. cbn [state]. split.
    + intros Hlt. specialize (Hlt c eq_refl).
      rewrite <- Htile.
      apply (surface_row_spec T g (seqZ 0 c) (NoDup_seqZ _ _)
               ltac:(intros i Hi; apply elem_of_seqZ in Hi; lia) m1 gx).
      * exact Hb.
      * apply elem_of_seqZ. lia.
    + intros c' [= <-] Hge. rewrite surface_out; [reflexivity|].
      cbn [gX gY]. intros [_ Hin]. apply elem_of_seqZ in Hin. lia.
  - split; [|discriminate]. intros _.
    rewrite (generate_completes T g seed0 now stream m Hs). fold s. fold m1.
    cbn [state].
    destruct (surface_spec T g (seqZ 0 (Grid.widthGU g)) m1) as (Hh2 & _ & _ & _ & _).
    pose proof (surface_row_spec T g (seqZ 0 (Grid.widthGU g)) (NoDup_seqZ _ _)
                  ltac:(intros i Hi; apply elem_of_seqZ in Hi; lia) m1 gx
                  (find_seqZ_None (throwsAt g m) _ Hs)
                  ltac:(apply elem_of_seqZ; lia)) as [Hsome Hrow].
    set (m2 := state (surface T g (seqZ 0 (Grid.widthGU g)) m1)) in *.
    destruct (dirt_spec T g
                (seqZ (horizonLineGU m2 + 1) (Grid.heightGU g - (horizonLineGU m2 + 1))) m2)
      as (Hh3 & _ & _ & _ & Hout3).
    set (m3 := fold_left (dirtRow T g) _ m2) in *.
    destruct (coalColumns_spec T (seqZ 0 (Grid.widthGU g)) (NoDup_seqZ _ _) m3)
      as (_ & _ & _ & Hout4 & _).
    change (horizonLineGU m1) with (horizonLineGU m) in *.
    rewrite Htile in Hsome, Hrow. split; [exact Hsome|].
    rewrite Hout4, Hout3.
    + exact Hrow.
    + cbn [gX gY]. intros [Hy _]. apply elem_of_seqZ in Hy. lia.
    + cbn [gX gY]. unfold inRows. lia.
Qed.

(** On the game's grid of 40 columns, with the buildings of the
    constructor: the shop in column 5, the save station in 10, the selling
    post in 15, grass in column 0; the call throws at the fuel station of
    column 25, and neither it nor the teleporter of column 30 is placed. *)
Lemma surface_row_layout_witness :
  let m := state (generate Example.terrain Example.grid 0 1 (fun _ _ => 1)
                    (GameMap.new Example.grid)) in
  fg_tiles m !! mkTile 5 8 = Some (Shop (mkTile 5 8))
  /\ fg_tiles m !! mkTile 10 8 = Some (SaveStation (mkTile 10 8))
  /\ fg_tiles m !! mkTile 15 8 = Some (SellingPost (mkTile 15 8))
  /\ fg_tiles m !! mkTile 0 8 = Some (Grass Example.terrain (mkTile 0 8))
  /\ fg_tiles m !! mkTile 25 8 = None
  /\ fg_tiles m !! mkTile 30 8 = None.
Proof.
  pose (at_ := surface_row_layout Example.terrain Example.grid 0 1 (fun _ _ => 1)
                 (GameMap.new Example.grid)).
  assert (Hs : stopsAt Example.grid (GameMap.new Example.grid) = Some 25%Z)
    by (vm_compute; reflexivity).
  assert (Hplaced : forall gx, (0 <= gx < 25)%Z ->
            fg_tiles (state (generate Example.terrain Example.grid 0 1 (fun _ _ => 1)
                               (GameMap.new Example.grid)))
              !! mkTile gx 8
            = surfaceTile Example.terrain (GameMap.new Example.grid) gx).
  { intros gx Hgx. apply (proj1 (at_ gx ltac:(cbn; lia))).
    intros c Hc. rewrite Hs in Hc. injection Hc as <-. lia. }
  assert (Hleft : forall gx, (25 <= gx < 40)%Z ->
            fg_tiles (state (generate Example.terrain Example.grid 0 1 (fun _ _ => 1)
                               (GameMap.new Example.grid)))
              !! mkTile gx 8 = None).
  { intros gx Hgx. apply (proj2 (at_ gx ltac:(cbn; lia)) 25%Z Hs). lia. }
  cbn zeta.
  split; [apply (Hplaced 5%Z); lia|].
  split; [apply (Hplaced 10%Z); lia|].
  split; [apply (Hplaced 15%Z); lia|].
  split; [apply (Hplaced 0%Z); lia|].
  split; [apply (Hleft 25%Z); lia|].
  apply (Hleft 30%Z); lia.
Defined.

(** *** What the loops keep *)

Lemma fold_left_invariant {A B} (P : A -> Prop) (f : A -> B -> A) l :
  (forall a b, P a -> P (f a b)) -> forall a, P a -> P (fold_left f l a).
Proof.
  intros Hf. induction l as [|b l IH]; intros a Ha; [exact Ha|].
  cbn [fold_left]. apply IH, Hf, Ha.
Qed.

Lemma surfaceCell_header T g m i :
  header (state (surfaceCell T g m i)) = header m.
Proof.
  unfold surfaceCell. cbn zeta.
  destruct (find _ _); [destruct (_ <? _)%Z; [destruct (construct _)|]|];
    reflexivity.
Qed.

Lemma surface_header T g l : forall m, header (state (surface T g l m)) = header m.
Proof.
  induction l as [|i l IH]; intros m; [reflexivity|]. cbn [surface].
  pose proof (surfaceCell_header T g m i) as H.
  destruct (surfaceCell T g m i) as [m1|m1]; cbn [state] in *; [|exact H].
  rewrite IH. exact H.
Qed.

Lemma coalCell_header T gx m gy : header (coalCell T gx m gy) = header m.
Proof.
  unfold coalCell, shouldGenType. cbn. destruct (JS.leb _ _); reflexivity.
Qed.

Lemma generate_header T g seed0 now stream m :
  header (state (generate T g seed0 now stream m))
  = header (set_seed (if (seed0 =? 0)%Z then now else seed0) m).
Proof.
  unfold generate.
  set (m1 := set_rng _ (set_seed _ m)).
  change (header (set_seed _ m)) with (header m1).
  pose proof (surface_header T g (seqZ 0 (Grid.widthGU g)) m1) as Hs.
  destruct (surface T g (seqZ 0 (Grid.widthGU g)) m1) as [m2|m2];
    cbn [state] in *; [|exact Hs].
  apply (fold_left_invariant (fun a => header a = header m1)).
  { intros a gx Ha. unfold coalColumn.
    apply (fold_left_invariant (fun b => header b = header m1)); [|exact Ha].
    intros b gy Hb. rewrite coalCell_header. exact Hb. }
  apply (fold_left_invariant (fun a => header a = header m1)); [|exact Hs].
  intros a gy Ha. unfold dirtRow.
  apply (fold_left_invariant (fun b => header b = header m1)); [|exact Ha].
  intros b gx Hb. exact Hb.
Qed.

(** X14.  What [generate] records and consumes: the seed is the argument,
    or the clock when the argument is 0, and the generator is the one
    seeded with it; the horizon and the list of buildings are kept.  When
    the call runs to its end, exactly 20 draws per column of the grid have
    been taken, whatever the draws are; when it throws in the surface loop,
    none has. *)
Theorem generate_takes_20_draws_per_column T g seed0 now stream m :
  let s := if (seed0 =? 0)%Z then now else seed0 in
  let o := generate T g seed0 now stream m in
  seed (state o) = s
  /\ draws (rng (state o)) = stream s
  /\ horizonLineGU (state o) = horizonLineGU m
  /\ horizonLine (state o) = horizonLine m
  /\ surfaceBuildings (state o) = surfaceBuildings m
  /\ (stopsAt g m = None ->
      exists m', o = Returned m'
                 /\ taken (rng m') = (20 * Z.to_nat (Grid.widthGU g))%nat)
  /\ (forall c, stopsAt g m = Some c ->
        exists m', o = Thrown m' /\ taken (rng m') = O).
Proof.
  cbn zeta. pose proof (generate_header T g seed0 now stream m) as Hh.
  unfold header in Hh. cbn in Hh. injection Hh as Hgu Hl Hs Hb.
  set (s := if (seed0 =? 0)%Z then now else seed0) in *.
  set (m1 := set_rng {| draws := stream s; taken := 0 |} (set_seed s m)).
  assert (Hdraws : draws (rng (state (generate T g seed0 now stream m))) = stream s
                   /\ (stopsAt g m = None ->
                       exists m', generate T g seed0 now stream m = Returned m'
                         /\ taken (rng m') = (20 * Z.to_nat (Grid.widthGU g))%nat)
                   /\ (forall c, stopsAt g m = Some c ->
                       exists m', generate T g seed0 now stream m = Thrown m'
                         /\ taken (rng m') = O)).
  { destruct (stopsAt g m) as [c|] eqn:Hst.
    - destruct (generate_stops T g seed0 now stream m c Hst) as (_ & _ & ->).
      fold s. fold m1. cbn [state].
      destruct (surface_spec T g (seqZ 0 c) m1) as (_ & Hr & _ & _ & _).
      rewrite Hr. split; [reflexivity|]. split; [discriminate|].
      intros c' _. eexists. split; [reflexivity|]. rewrite Hr. reflexivity.
    - rewrite (generate_completes T g seed0 now stream m Hst). fold s. fold m1.
      cbn [state].
      destruct (surface_spec T g (seqZ 0 (Grid.widthGU g)) m1) as (_ & Hr2 & _ & _ & _).
      set (m2 := state (surface T g (seqZ 0 (Grid.widthGU g)) m1)) in *.
      destruct (dirt_spec T g
                  (seqZ (horizonLineGU m2 + 1) (Grid.heightGU g - (horizonLineGU m2 + 1))) m2)
        as (_ & Hr3 & _ & _ & _).
      set (m3 := fold_left (dirtRow T g) _ m2) in *.
      destruct (coalColumns_spec T (seqZ 0 (Grid.widthGU g)) (NoDup_seqZ _ _) m3)
        as (_ & Hd4 & Ht4 & _ & _).
      assert (Ht : taken (rng (fold_left (coalColumn T) (seqZ 0 (Grid.widthGU g)) m3))
                   = (20 * Z.to_nat (Grid.widthGU g))%nat).
      { rewrite Ht4, Hr3, Hr2, length_seqZ. reflexivity. }
      split; [rewrite Hd4, Hr3, Hr2; reflexivity|].
      split; [|discriminate]. intros _. eexists. split; [reflexivity | exact Ht]. }
  destruct Hdraws as (Hd & Hret & Hthr). auto 10.
Qed.

(** On the grid of 20 columns the call returns with 400 draws taken; on the
    game's grid it throws with none taken. *)
Lemma generate_takes_20_draws_per_column_witness :
  (exists m',
     generate Example.terrain Example.lane 0 1 (fun _ _ => 1)
       (GameMap.new Example.lane) = Returned m'
     /\ taken (rng m') = 400%nat)
  /\ (exists m',
        generate Example.terrain Example.grid 0 1 (fun _ _ => 1)
          (GameMap.new Example.grid) = Thrown m'
        /\ taken (rng m') = O).
Proof.
  split.
  - apply (proj1 (proj2 (proj2 (proj2 (proj2 (proj2
      (generate_takes_20_draws_per_column Example.terrain Example.lane 0 1
         (fun _ _ => 1) (GameMap.new Example.lane)))))))).
    vm_compute. reflexivity.
  - apply (proj2 (proj2 (proj2 (proj2 (proj2 (proj2
      (generate_takes_20_draws_per_column Example.terrain Example.grid 0 1
         (fun _ _ => 1) (GameMap.new Example.grid))))))) 25%Z).
    vm_compute. reflexivity.
Defined.

(** *** The extent of the map *)

(** X15.  The extent of a map generated from an empty store.  When
    [generate] runs to its end, every tile lies in a column of the grid, on
    the horizon row or below it, and every cell of the columns from the
    horizon row down to the grid's height is filled.  When it throws in the
    surface loop at column [c], the store holds the horizon row of the
    columns before [c] and nothing else: no dirt is laid. *)
Theorem generated_extent T g seed0 now stream m :
  fg_tiles m = ∅ ->
  (stopsAt g m = None ->
     exists m',
       generate T g seed0 now stream m = Returned m'
       /\ (forall pos, is_Some (fg_tiles m' !! pos) ->
             inColumns g pos /\ (horizonLineGU m <= gY pos)%Z)
       /\ (forall pos, inColumns g pos ->
             (horizonLineGU m <= gY pos < Grid.heightGU g)%Z ->
             is_Some (fg_tiles m' !! pos)))
  /\ (forall c, stopsAt g m = Some c ->
        exists m',
          generate T g seed0 now stream m = Thrown m'
          /\ forall pos,
               is_Some (fg_tiles m' !! pos)
               <-> gY pos = horizonLineGU m /\ (0 <= gX pos < c)%Z).
Proof.
  intros Hempty.
  set (s := if (seed0 =? 0)%Z then now else seed0).
  set (m1 := set_rng {| draws := stream s; taken := 0 |} (set_seed s m)).
  assert (Hf1 : fg_tiles m1 = ∅) by exact Hempty.
  split.
  - intros Hs. eexists. split; [apply generate_completes, Hs|].
    fold s. fold m1.
    destruct (surface_spec T g (seqZ 0 (Grid.widthGU g)) m1) as (Hh2 & _ & _ & _ & _).
    pose proof (surface_out T g (seqZ 0 (Grid.widthGU g)) m1) as Hout2.
    pose proof (fun gx => surface_row_spec T g (seqZ 0 (Grid.widthGU g))
                  (NoDup_seqZ _ _)
                  ltac:(intros i Hi; apply elem_of_seqZ in Hi; lia) m1 gx
                  (find_seqZ_None (throwsAt g m) _ Hs)) as Hrow.
    set (m2 := state (surface T g (seqZ 0 (Grid.widthGU g)) m1)) in *.
    destruct (dirt_spec T g
                (seqZ (horizonLineGU m2 + 1) (Grid.heightGU g - (horizonLineGU m2 + 1))) m2)
      as (Hh3 & _ & _ & Hin3 & Hout3).
    set (m3 := fold_left (dirtRow T g) _ m2) in *.
    destruct (coalColumns_spec T (seqZ 0 (Grid.widthGU g)) (NoDup_seqZ _ _) m3)
      as (_ & _ & _ & Hout4 & Hin4).
    change (horizonLineGU m1) with (horizonLineGU m) in *.
    unfold inColumns. split.
    + intros pos.
      destruct (decide (gX pos ∈ seqZ 0 (Grid.widthGU g) /\ inRows m3 (gY pos)))
        as [[Hx Hy]|Hn4].
      { intros _. apply elem_of_seqZ in Hx. unfold inRows in Hy. lia. }
      rewrite (Hout4 pos Hn4).
      destruct (decide (gY pos ∈ seqZ (horizonLineGU m2 + 1)
                                     (Grid.heightGU g - (horizonLineGU m2 + 1))
                        /\ (0 <= gX pos < Grid.widthGU g)%Z)) as [[Hy Hx]|Hn3].
      { intros _. apply elem_of_seqZ in Hy. lia. }
      rewrite (Hout3 pos Hn3).
      destruct (decide (gY pos = horizonLineGU m /\ gX pos ∈ seqZ 0 (Grid.widthGU g)))
        as [[Hy Hx]|Hn2].
      { intros _. apply elem_of_seqZ in Hx. lia. }
      rewrite (Hout2 pos Hn2), Hf1, lookup_empty.
      intros [x Hx]. discriminate.
    + intros pos Hx [Hy1 Hy2].
      destruct (Z.eq_dec (gY pos) (horizonLineGU m)) as [Hy|Hy].
      * destruct pos as [gx gy]. cbn [gX gY] in *. subst gy.
        destruct (Hrow gx ltac:(apply elem_of_seqZ; lia)) as [Hsome Hr].
        rewrite Hout4, Hout3.
        -- rewrite Hr. exact Hsome.
        -- cbn [gX gY]. intros [Hy _]. apply elem_of_seqZ in Hy. lia.
        -- cbn [gX gY]. unfold inRows. lia.
      * assert (Hd : fg_tiles m3 !! pos = Some (Dirt T pos)).
        { apply Hin3; [|exact Hx]. apply elem_of_seqZ. lia. }
        destruct (decide (inRows m3 (gY pos))) as [Hr|Hr].
        -- destruct pos as [gx gy]. cbn [gX gY] in *.
           rewrite (Hin4 (Z.to_nat gx) gx gy); [|apply lookup_seqZ; lia|exact Hr].
           destruct (passes _); [eauto | rewrite Hd; eauto].
        -- rewrite Hout4 by tauto. rewrite Hd. eauto.
  - intros c Hs.
    destruct (generate_stops T g seed0 now stream m c Hs) as (Hc & Hb & Hg).
    eexists. split; [exact Hg|]. fold s. fold m1.
    intros pos. split.
    + destruct (decide (gY pos = horizonLineGU m /\ gX pos ∈ seqZ 0 c))
        as [[Hy Hx]|Hn].
      { intros _. apply elem_of_seqZ in Hx. split; [exact Hy | lia]. }
      rewrite (surface_out T g (seqZ 0 c) m1 pos Hn), Hf1, lookup_empty.
      intros [x Hx]. discriminate.
    + intros [Hy Hx]. destruct pos as [gx gy]. cbn [gX gY] in *. subst gy.
      destruct (surface_row_spec T g (seqZ 0 c) (NoDup_seqZ _ _)
                  ltac:(intros i Hi; apply elem_of_seqZ in Hi; lia) m1 gx Hb
                  ltac:(apply elem_of_seqZ; lia)) as [Hsome Hr].
      change (horizonLineGU m1) with (horizonLineGU m) in Hr.
      rewrite Hr. exact Hsome.
Qed.

(** The grid of 20 columns, and the game's grid, from the empty store of
    the constructor. *)
Lemma generated_extent_witness :
  (exists m',
     generate Example.terrain Example.lane 0 1 (fun _ _ => 1)
       (GameMap.new Example.lane) = Returned m'
     /\ (forall pos, is_Some (fg_tiles m' !! pos) ->
           inColumns Example.lane pos /\ (8 <= gY pos)%Z)
     /\ (forall pos, inColumns Example.lane pos ->
           (8 <= gY pos < 40)%Z -> is_Some (fg_tiles m' !! pos)))
  /\ (exists m',
        generate Example.terrain Example.grid 0 1 (fun _ _ => 1)
          (GameMap.new Example.grid) = Thrown m'
        /\ forall pos,
             is_Some (fg_tiles m' !! pos) <-> gY pos = 8%Z /\ (0 <= gX pos < 25)%Z).
Proof.
  split.
  - apply (proj1 (generated_extent Example.terrain Example.lane 0 1 (fun _ _ => 1)
                    (GameMap.new Example.lane) eq_refl)).
    vm_compute. reflexivity.
  - apply (proj2 (generated_extent Example.terrain Example.grid 0 1 (fun _ _ => 1)
                    (GameMap.new Example.grid) eq_refl) 25%Z).
    vm_compute. reflexivity.
Defined.

End LayoutFacts.

(** ** More on the building menus *)

Module MenuFacts.
Import Game Player BuildingHandler BuildingHandlerMethods PlayerMethods
  Frame Arrival ArrivalFacts JSFacts Session Menu.

(** *** One menu at a time *)

Lemma tidy_handler w w' :
  buildingHandler w' = buildingHandler w -> tidy w -> tidy w'.
Proof. unfold tidy, isOpen. intros ->. auto. Qed.

Lemma tidy_closed w : tidy w -> isOpen w = false -> overlays (buildingHandler w) = [].
Proof.
  intros [_ H] Hc. destruct (overlays (buildingHandler w)); [reflexivity|].
  rewrite H in Hc; discriminate.
Qed.

Lemma tidy_created s title items w :
  s <> ""%string -> overlays (buildingHandler w) = [] ->
  tidy (createUI title items (onHandler (set_currentUI (Some s)) w)).
Proof.
  intros Hs Ho. unfold tidy, isOpen, createUI. proj.
  cbn [overlays currentUI set_overlays set_currentUI]. rewrite Ho. cbn.
  split; [lia|]. intros _. apply negb_true_iff, String.eqb_neq, Hs.
Qed.

Lemma tidy_same w w' :
  overlays (buildingHandler w') = overlays (buildingHandler w) ->
  currentUI (buildingHandler w') = currentUI (buildingHandler w) ->
  tidy w -> tidy w'.
Proof. unfold tidy, isOpen. intros -> ->. auto. Qed.

Lemma tidy_closeUI w : tidy w -> tidy (closeUI w).
Proof.
  intros [Hl _]. unfold tidy, closeUI. proj.
  cbn [overlays set_currentUI set_overlays].
  destruct (overlays (buildingHandler w)) as [|o [|o' l]]; cbn in *;
    [split; [lia | congruence] .. | lia].
Qed.

Lemma handleBuildingInteraction_tidy now ty w :
  tidy w -> tidy (handleBuildingInteraction now ty w).
Proof.
  intros H.
  destruct ty; cbn [handleBuildingInteraction]; try exact H.
  - unfold openShop. destruct (isOpen w) eqn:E; [exact H|].
    apply tidy_created; [discriminate | apply tidy_closed; assumption].
  - unfold openSellingPost. destruct (isOpen w) eqn:E; [exact H|].
    destruct (PlayerHold.mapTiles _).
    + revert H. apply tidy_same; reflexivity.
    + apply tidy_created; [discriminate | apply tidy_closed; assumption].
  - unfold openFuelStation. destruct (isOpen w) eqn:E; [exact H|].
    pose proof (tidy_closed w H E) as Ho.
    destruct (JS.leb _ 0).
    + unfold tidy, isOpen, showMessage. proj.
      cbn [overlays currentUI set_messages set_currentUI]. rewrite Ho.
      split; [cbn; lia | congruence].
    + apply tidy_created; [discriminate | exact Ho].
  - unfold openTeleporter. destruct (isOpen w) eqn:E; [exact H|].
    apply (tidy_created "teleporter"); [discriminate | apply tidy_closed; assumption].
Qed.

Lemma handlePurchase_tidy answer item w :
  tidy w -> tidy (handlePurchase answer item w).
Proof.
  intros H. unfold handlePurchase.
  destruct (JS.ltb _ _); [revert H; apply tidy_same; reflexivity|].
  destruct (id item); try (revert H; apply tidy_same; reflexivity).
  - eapply tidy_same; [| |apply (tidy_closeUI w H)]; reflexivity.
  - eapply tidy_same; [| |apply (tidy_closeUI w H)]; reflexivity.
  - destruct (_ !! index); [|exact H].
    eapply tidy_same; [| |apply (tidy_closeUI w H)]; reflexivity.
Qed.

(** A property of the menus that the building interaction keeps is kept by
    every tick. *)
Lemma tick_menus (P : World -> Prop) :
  (forall w w', buildingHandler w' = buildingHandler w -> P w -> P w') ->
  (forall now ty w, P w -> P (handleBuildingInteraction now ty w)) ->
  forall ev w, P w -> P (tick ev w).
Proof.
  intros Hframe Hint ev w H.
  assert (Hmove : forall now detail v, P v -> P (onPlayerMove now detail v)).
  { intros n detail v Hv. unfold onPlayerMove.
    destruct (_ !! detail) as [mt|]; [|exact Hv].
    destruct (MapTile.interactable _); [|exact Hv]. apply Hint, Hv. }
  assert (Hdisp : forall now e v, P v -> P (dispatchEvent now e v)).
  { intros n e v Hv. unfold dispatchEvent. destruct e.
    - apply Hmove. eapply Hframe; [|exact Hv]. reflexivity.
    - eapply Hframe; [|exact Hv]. reflexivity. }
  assert (Harr : forall now v, P v -> P (arrive now v)).
  { intros n v Hv. rewrite arrive_unfold.
    assert (Hs : P (snapped v)).
    { eapply Hframe; [|exact Hv]. unfold snapped. proj. reflexivity. }
    destruct (_ !! under v) as [mt|].
    - destruct (MapTile.interactable _).
      + apply Hdisp, Hs.
      + apply Hdisp.
        eapply Hframe; [apply onPlayer_buildingHandler|].
        apply Hdisp.
        eapply Hframe; [|exact Hs]. proj. reflexivity.
    - apply Hdisp, Hs. }
  unfold tick.
  destruct (negb _); [exact H|].
  assert (Ho : forall v, P v -> P (outOfFuel v)).
  { intros v Hv. eapply Hframe; [|exact Hv].
    rewrite outOfFuel_shape. proj. reflexivity. }
  assert (Hy : forall v, P v -> P (syncWasMoving v)).
  { intros v Hv. eapply Hframe; [|exact Hv].
    rewrite syncWasMoving_shape. proj. reflexivity. }
  destruct (JS.leb _ 0); [apply Ho, H|].
  assert (Hi : P (input (pressedKeys ev) w)).
  { eapply Hframe; [|exact H]. rewrite input_shape. proj. reflexivity. }
  destruct (moving _); [|apply Hy, Hi].
  destruct (JS.leb _ 0); [apply Ho, Hi|].
  apply Hy. unfold move.
  assert (Ha : P (advance (delta ev) (burn (delta ev) (input (pressedKeys ev) w)))).
  { eapply Hframe; [|exact Hi].
    rewrite advance_shape, burn_shape. proj. reflexivity. }
  destruct (completed _); [apply Harr, Ha | exact Ha].
Qed.

Lemma step_tidy a w : tidy w -> tidy (step a w).
Proof.
  intros H. destruct a as [ev|i|answer o i| |now|]; cbn [step].
  - revert H. apply tick_menus.
    + intros v v' Hv. apply tidy_handler, Hv.
    + intros n ty v. apply handleBuildingInteraction_tidy.
  - revert H. apply tidy_handler.
    unfold fire. destruct (timers w !! i) as [cb|]; [|reflexivity].
    destruct cb; unfold run, resetPos, updateFuel, DisplayHandler.fade;
      proj; reflexivity.
  - destruct (_ !! o) as [ov|]; [|exact H].
    destruct (_ !! i) as [item|]; [|exact H].
    apply handlePurchase_tidy, H.
  - destruct (overlays _) eqn:E; [exact H|]. apply tidy_closeUI, H.
  - exact H.
  - unfold SaveHandler.restore. destruct (SaveHandler.loadGame w) as [sd|]; [|exact H].
    destruct (LockFacts.applySaveData_ui sd w) as [Hc Ho].
    revert H. apply tidy_same; assumption.
Qed.


(** X16.  A session starts with no menu on screen, and from a world with
    at most one menu on screen (and then with [currentUI] set) every
    sequence of steps leads to such a world again: while a menu is on
    screen, no building interaction adds a second one. *)
Theorem one_menu_at_a_time :
  (forall g m h, tidy (init g m h))
  /\ (forall l w,
        tidy w ->
        let w' := steps l w in
        tidy w'
        /\ (overlays (buildingHandler w') <> [] ->
            forall now ty,
              overlays (buildingHandler (handleBuildingInteraction now ty w'))
              = overlays (buildingHandler w'))).
Proof.
  split.
  { intros g m h. split; [cbn; lia | intros []; reflexivity]. }
  intros l w H0. cbn zeta.
  assert (H : tidy (steps l w)).
  { revert w H0. induction l as [|a l IH]; intros w H0.
    - exact H0.
    - apply (IH (step a w)), step_tidy, H0. }
  split; [exact H|].
  intros Hne now ty. destruct H as [_ Ho]. specialize (Ho Hne).
  destruct ty; cbn [handleBuildingInteraction]; try reflexivity;
    unfold openShop, openSellingPost, openFuelStation, openTeleporter;
    rewrite Ho; reflexivity.
Qed.

Lemma one_menu_at_a_time_witness :
  let w' := steps [Tick Example.pressRight] Example.seller in
  tidy w'
  /\ (overlays (buildingHandler w') <> [] ->
      forall now ty,
        overlays (buildingHandler (handleBuildingInteraction now ty w'))
        = overlays (buildingHandler w')).
Proof.
  apply (proj2 one_menu_at_a_time [Tick Example.pressRight] Example.seller).
  unfold tidy. vm_compute. split; [lia | reflexivity].
Defined.

(** *** Paying *)

(** X17.  No purchase puts the player in debt: after a click on an entry
    that is not a sale, money that was not negative is not negative, and
    with a price that is not negative it has not grown. *)
Theorem purchase_never_puts_in_debt answer item w :
  id item <> sell_all ->
  0 <= money (player w) ->
  let w' := handlePurchase answer item w in
  0 <= money (player w')
  /\ (0 <= price item -> money (player w') <= money (player w)).
Proof.
  intros Hid Hm. cbn zeta. unfold handlePurchase.
  destruct (JS.ltb _ _) eqn:E.
  { unfold showMessage. proj. split; [exact Hm | lra]. }
  apply ltb_false in E.
  destruct (id item); try congruence;
    try (unfold showMessage, closeUI, pay; proj; proj; cbn [money set_money
           set_maxFuel set_hold set_speedMultiplier set_fuel]; split; lra).
  destruct (waypoints _ !! _).
  - unfold showMessage, closeUI, pay. proj. proj.
    cbn [money set_money set_targetPos set_x set_y]. split; lra.
  - split; lra.
Qed.

Lemma purchase_never_puts_in_debt_witness :
  let item := {| price := 500; id := fuel_upgrade; highlight := false |} in
  let w' := handlePurchase None item Example.start in
  0 <= money (player w')
  /\ (0 <= price item -> money (player w') <= money (player Example.start)).
Proof.
  apply purchase_never_puts_in_debt; vm_compute; congruence.
Defined.

(** X18.  The shop lists "Better Drill" ([drill_upgrade]) at 2000, but the
    purchase has no case for it: the click of a player who can pay changes
    nothing, no money is taken and no message shown. *)
Theorem better_drill_does_nothing :
  (forall w, closed w ->
     exists ov,
       overlays (buildingHandler (openShop w)) = [ov]
       /\ {| price := 2000; id := drill_upgrade; highlight := false |} ∈ items ov)
  /\ (forall answer item w,
        id item = drill_upgrade ->
        price item <= money (player w) ->
        handlePurchase answer item w = w).
Proof.
  split.
  - intros w [Ho Hc]. unfold openShop. rewrite Hc. unfold createUI. proj.
    cbn [overlays set_overlays set_currentUI]. rewrite Ho.
    eexists. split; [reflexivity|]. cbn [items].
    do 3 apply list_elem_of_further. apply list_elem_of_here.
  - intros answer item w Hid Hp. unfold handlePurchase.
    apply ltb_false in Hp. rewrite Hp, Hid. reflexivity.
Qed.

Lemma better_drill_does_nothing_witness :
  (exists ov,
     overlays (buildingHandler (openShop Example.start)) = [ov]
     /\ {| price := 2000; id := drill_upgrade; highlight := false |} ∈ items ov)
  /\ handlePurchase None {| price := 200; id := drill_upgrade; highlight := false |}
       Example.start = Example.start.
Proof.
  split.
  - apply (proj1 better_drill_does_nothing). split; vm_compute; reflexivity.
  - apply (proj2 better_drill_does_nothing); vm_compute; congruence.
Defined.

(** *** The selling post *)

Lemma entry_bump k n v acc :
  entry k (bump n v acc)
  = if String.eqb n k then
      match entry k acc with
      | Some (c, v0) => Some ((c + 1)%Z, v0)
      | None => Some (1%Z, v)
      end
    else entry k acc.
Proof.
  unfold entry. induction acc as [|[n' [c' v']] acc IH]; cbn.
  - destruct (String.eqb n k); reflexivity.
  - destruct (String.eqb n' n) eqn:E; cbn.
    + apply String.eqb_eq in E. subst n'.
      destruct (String.eqb n k); reflexivity.
    + destruct (String.eqb n' k) eqn:E'; cbn.
      * apply String.eqb_eq in E'. subst n'. rewrite String.eqb_sym, E.
        reflexivity.
      * exact IH.
Qed.

Lemma names_bump n v acc :
  NoDup (List.map fst acc) -> NoDup (List.map fst (bump n v acc)).
Proof.
  assert (Hin : forall k acc, k ∈ List.map fst (bump n v acc) ->
                              k = n \/ k ∈ List.map fst acc).
  { intros k acc'. induction acc' as [|[n' [c' v']] acc' IH]; cbn.
    - intros H. apply list_elem_of_singleton in H. auto.
    - destruct (String.eqb n' n); cbn; [auto|].
      intros H. apply elem_of_cons in H. destruct H as [-> | H].
      + right. apply list_elem_of_here.
      + destruct (IH H); [auto|]. right. apply list_elem_of_further. assumption. }
  induction acc as [|[n' [c' v']] acc IH]; cbn; intros Hnd.
  - apply NoDup_singleton.
  - apply NoDup_cons in Hnd. destruct Hnd as [Hn Hnd].
    destruct (String.eqb n' n) eqn:E; cbn.
    + apply NoDup_cons. split; assumption.
    + apply NoDup_cons. split; [|apply IH, Hnd].
      intros H. destruct (Hin _ _ H) as [-> | H']; [|contradiction].
      rewrite String.eqb_refl in E. discriminate.
Qed.

Lemma counted_bump n v acc : counted (bump n v acc) = (counted acc + 1)%Z.
Proof.
  unfold counted. induction acc as [|[n' [c' v']] acc IH]; cbn; [reflexivity|].
  destruct (String.eqb n' n); cbn; [lia|]. rewrite IH. lia.
Qed.

Lemma itemCounts_from l : forall acc,
  let ic := fold_left (fun acc i => count (PlayerHold.name i) (PlayerHold.value i) acc)
              l acc in
  (NoDup (List.map fst acc) -> NoDup (List.map fst ic))
  /\ counted ic = (counted acc + Z.of_nat (length (own l)))%Z
  /\ forall k,
       entry k ic =
         if JS.inherited k then entry k acc
         else
           match entry k acc, named k l with
           | Some (c, v), r => Some ((c + Z.of_nat (length r))%Z, v)
           | None, [] => None
           | None, i :: r => Some (Z.of_nat (length (i :: r)), PlayerHold.value i)
           end.
Proof.
  induction l as [|i l IH]; intros acc; cbn zeta; cbn [fold_left].
  - split; [auto|]. split; [cbn; lia|]. intros k.
    unfold named. cbn [List.filter length].
    destruct (JS.inherited k); [reflexivity|].
    destruct (entry k acc) as [[c v]|]; [|reflexivity].
    f_equal. f_equal. lia.
  - destruct (IH (count (PlayerHold.name i) (PlayerHold.value i) acc))
      as (Hnd & Hc & He).
    unfold count in *. unfold own, named. cbn [List.filter].
    fold (own l).
    destruct (JS.inherited (PlayerHold.name i)) eqn:Hi; cbn [negb].
    + split; [exact Hnd|]. split; [exact Hc|].
      intros k. rewrite He.
      destruct (JS.inherited k) eqn:Hk; [reflexivity|].
      destruct (String.eqb (PlayerHold.name i) k) eqn:E; [|reflexivity].
      apply String.eqb_eq in E. congruence.
    + split; [intros H; apply Hnd, names_bump, H|].
      split; [rewrite Hc, counted_bump; cbn [length]; lia|].
      intros k. rewrite He, entry_bump.
      destruct (JS.inherited k) eqn:Hk.
      * destruct (String.eqb (PlayerHold.name i) k) eqn:E; [|reflexivity].
        apply String.eqb_eq in E. congruence.
      * destruct (String.eqb (PlayerHold.name i) k); [|reflexivity].
        fold (named k l).
        destruct (entry k acc) as [[c v]|]; cbn [length]; f_equal; f_equal; lia.
Qed.

(** [Object.keys] lists every own property once. *)
Lemma place_perm {A} n (e : string * A) l :
  List.map snd (JS.place n e l) ≡ₚ e :: List.map snd l.
Proof.
  induction l as [|[n' e'] l IH]; cbn; [reflexivity|].
  destruct (n <? n')%N; cbn; [reflexivity|].
  rewrite IH. apply Permutation_swap.
Qed.

Lemma keys_perm {A} (o : list (string * A)) : JS.keys o ≡ₚ o.
Proof.
  unfold JS.keys. induction o as [|e o IH]; [reflexivity|].
  cbn [JS.indexed fold_right List.filter]. unfold JS.isName at 1.
  fold (JS.indexed o).
  destruct (JS.arrayIndex (fst e)).
  - rewrite place_perm. cbn. rewrite IH. reflexivity.
  - rewrite <- Permutation_middle. rewrite IH. reflexivity.
Qed.

(** X19.  What the selling post lists: one entry per name that occurs in
    the cargo and is not a property every object inherits
    ([constructor], [toString], ...), none twice; items under an inherited
    name get no entry.  The entry of a name counts the items that carry it
    and takes its value from the first of them (so later items of the name
    are priced like the first); the counts add up to the number of items
    whose name is not inherited.  The menu lists the entries in the order
    of [Object.keys], a rearrangement of the order of creation. *)
Theorem selling_post_counts l :
  let ic := itemCounts l in
  NoDup (List.map fst ic)
  /\ JS.keys ic ≡ₚ ic
  /\ counted ic = Z.of_nat (length (own l))
  /\ forall k,
       entry k ic =
         if JS.inherited k then None
         else
           match named k l with
           | [] => None
           | i :: r => Some (Z.of_nat (length (i :: r)), PlayerHold.value i)
           end.
Proof.
  cbn zeta. unfold itemCounts.
  destruct (itemCounts_from l []) as (Hnd & Hc & He).
  split; [apply Hnd; constructor|]. split; [apply keys_perm|].
  split; [rewrite Hc; reflexivity|].
  intros k. rewrite He. reflexivity.
Qed.

(** Three lumps of coal, a find called [constructor] and two things named
    by numbers: the menu shows "9" before "10" before "Coal", and nothing
    for [constructor]. *)
Lemma selling_post_counts_example :
  let item n v := {| PlayerHold.name := n; PlayerHold.value := v |} in
  let l := [ item "Coal" 30; item "constructor" 7; item "9" 2; item "Coal" 30;
             item "10" 1; item "Coal" 31 ]%string in
  itemCounts l = [ ("Coal", (3%Z, 30)); ("9", (1%Z, 2)); ("10", (1%Z, 1)) ]%string
  /\ JS.keys (itemCounts l)
     = [ ("9", (1%Z, 2)); ("10", (1%Z, 1)); ("Coal", (3%Z, 30)) ]%string.
Proof. vm_compute. split; reflexivity. Qed.

(** X20.  Every entry of the selling post sells everything: the entries
    listed per name carry the same id as SELL ALL, so a click on any entry
    the player "can afford" empties the whole hold, pays the sum of all
    values and closes the menu, whatever price the entry shows. *)
Theorem any_selling_entry_sells_everything answer i item w :
  closed w ->
  PlayerHold.mapTiles (hold (player w)) <> [] ->
  (overlays (buildingHandler (openSellingPost w)) !! O
     ≫= (fun ov => items ov !! i)) = Some item ->
  price item <= money (player w) ->
  let w' := step (Click answer 0 i) (openSellingPost w) in
  id item = sell_all
  /\ PlayerHold.mapTiles (hold (player w')) = []
  /\ money (player w')
     == money (player w) + Selling.sum (PlayerHold.mapTiles (hold (player w)))
  /\ closed w'.
Proof.
  intros [Ho Hc] Hcargo Hitem Hm. cbn zeta.
  set (cargo := PlayerHold.mapTiles (hold (player w))) in *.
  set (its := List.map (fun e => {| price := inject_Z (fst (snd e)) * snd (snd e);
                                    id := sell_all; highlight := false |})
                (JS.keys (itemCounts cargo))
              ++ [{| price := totalValue cargo; id := sell_all; highlight := true |}]).
  assert (Heq : openSellingPost w
                = createUI "Selling Post" its
                    (onHandler (set_currentUI (Some "selling"%string)) w)).
  { unfold openSellingPost. rewrite Hc. fold cargo.
    destruct cargo; [congruence | reflexivity]. }
  assert (Hov : overlays (buildingHandler (openSellingPost w))
                = [ {| title := "Selling Post"; items := its |} ]).
  { rewrite Heq. unfold createUI. proj.
    cbn [overlays set_overlays set_currentUI]. rewrite Ho. reflexivity. }
  assert (Hp : player (openSellingPost w) = player w) by (rewrite Heq; reflexivity).
  rewrite Hov in Hitem. cbn [lookup list_lookup mbind option_bind items] in Hitem.
  assert (Hid : id item = sell_all).
  { apply list_elem_of_lookup_2 in Hitem. unfold its in Hitem.
    apply elem_of_app in Hitem. destruct Hitem as [H|H].
    - apply list_elem_of_In, List.in_map_iff in H. destruct H as (e & <- & _).
      reflexivity.
    - apply list_elem_of_singleton in H. subst item. reflexivity. }
  split; [exact Hid|].
  assert (Hstep : step (Click answer 0 i) (openSellingPost w)
                  = handlePurchase answer item (openSellingPost w)).
  { cbn [step]. rewrite Hov. cbn [lookup list_lookup items].
    change (list_lookup i its) with (its !! i). rewrite Hitem. reflexivity. }
  rewrite Hstep.
  destruct (SellingFacts.sell_all_affordable answer item (openSellingPost w) Hid)
    as [Hmoney Hhold]; [rewrite Hp; exact Hm|].
  rewrite Hp in Hmoney. fold cargo in Hmoney.
  split; [exact Hhold|]. split; [exact Hmoney|].
  unfold handlePurchase. rewrite Hp.
  apply ltb_false in Hm. rewrite Hm, Hid.
  unfold closed, isOpen, showMessage, closeUI. proj. proj. proj.
  cbn [overlays currentUI set_messages set_currentUI set_overlays].
  rewrite Hov. split; reflexivity.
Qed.

Lemma any_selling_entry_sells_everything_witness :
  let cargo := [ {| PlayerHold.name := "Coal"; PlayerHold.value := 30 |};
                 {| PlayerHold.name := "Dirt"; PlayerHold.value := 1 |} ] in
  let w := onPlayer (fun p =>
             set_hold (PlayerHold.set_mapTiles cargo (hold p)) p) Example.start in
  let w' := step (Click None 0 1) (openSellingPost w) in
  id {| price := 1; id := sell_all; highlight := false |} = sell_all
  /\ PlayerHold.mapTiles (hold (player w')) = []
  /\ money (player w')
     == money (player w) + Selling.sum (PlayerHold.mapTiles (hold (player w)))
  /\ closed w'.
Proof.
  apply (any_selling_entry_sells_everything None 1
           {| price := 1; id := sell_all; highlight := false |}).
  - split; vm_compute; reflexivity.
  - vm_compute. discriminate.
  - vm_compute. reflexivity.
  - vm_compute. congruence.
Defined.

(** *** The teleporter *)

Lemma openTeleporter_closed w :
  closed w ->
  openTeleporter w =
    createUI "Teleporter"
      ({| price := 100; id := add_waypoint; highlight := false |}
       :: imap (fun index _ => {| price := 50; id := teleport_ index;
                                  highlight := false |})
            (waypoints (buildingHandler w)))
      (onHandler (set_currentUI (Some "teleporter"%string)) w)
  /\ overlays (buildingHandler (openTeleporter w))
     = [ {| title := "Teleporter";
            items := {| price := 100; id := add_waypoint; highlight := false |}
                     :: imap (fun index _ => {| price := 50; id := teleport_ index;
                                                highlight := false |})
                          (waypoints (buildingHandler w)) |} ].
Proof.
  intros [Ho Hc]. unfold openTeleporter. rewrite Hc. split; [reflexivity|].
  unfold createUI. proj. cbn [overlays set_overlays set_currentUI].
  rewrite Ho. reflexivity.
Qed.

(** On a freshly opened teleporter, the entry after "Add Current Location"
    at position [S i] is the one of the [i]-th waypoint. *)
Lemma teleporter_entry answer i wp w :
  closed w ->
  waypoints (buildingHandler w) !! i = Some wp ->
  step (Click answer 0 (S i)) (openTeleporter w)
  = handlePurchase answer {| price := 50; id := teleport_ i; highlight := false |}
      (openTeleporter w).
Proof.
  intros Hcl Hwp.
  destruct (openTeleporter_closed w Hcl) as [_ Hov].
  assert (Hit : forall a : UIItem,
            (a :: imap (fun index _ => {| price := 50; id := teleport_ index;
                                          highlight := false |})
                    (waypoints (buildingHandler w))) !! S i
            = Some {| price := 50; id := teleport_ i; highlight := false |}).
  { intros a. rewrite lookup_cons. rewrite list_lookup_imap, Hwp. reflexivity. }
  cbn [step]. rewrite Hov.
  change ([?o] !! 0%nat) with (Some o). cbn [items]. rewrite Hit. reflexivity.
Qed.

(** The purchase of a teleport, in a world where the waypoint exists. *)
Lemma teleport_purchase answer i wp v :
  waypoints (buildingHandler v) !! i = Some wp ->
  50 <= money (player v) ->
  handlePurchase answer {| price := 50; id := teleport_ i; highlight := false |} v
  = showMessage (Teleported (name wp))
      (closeUI
         (onPlayer (pay {| price := 50; id := teleport_ i; highlight := false |})
            (onPlayer (fun p =>
               set_targetPos {| px := BuildingHandler.x wp; py := BuildingHandler.y wp |}
                 (set_y (BuildingHandler.y wp) (set_x (BuildingHandler.x wp) p))) v))).
Proof.
  intros Hwp Hm. unfold handlePurchase. cbn [price id].
  apply ltb_false in Hm. rewrite Hm, Hwp. reflexivity.
Qed.

(** X21.  Every entry the teleporter lists for a waypoint leads to it: the
    click moves the player and its target to the waypoint's coordinates for
    50 coins and closes the menu; the player's grid tile is not updated. *)
Theorem teleport_entry_leads_to_its_waypoint answer i wp w :
  closed w ->
  waypoints (buildingHandler w) !! i = Some wp ->
  50 <= money (player w) ->
  let w' := step (Click answer 0 (S i)) (openTeleporter w) in
  Player.x (player w') = BuildingHandler.x wp
  /\ Player.y (player w') = BuildingHandler.y wp
  /\ targetPos (player w')
     = {| px := BuildingHandler.x wp; py := BuildingHandler.y wp |}
  /\ money (player w') = money (player w) - 50
  /\ tile (player w') = tile (player w)
  /\ closed w'.
Proof.
  intros Hcl Hwp Hm. cbn zeta.
  destruct (openTeleporter_closed w Hcl) as [Heq Hov].
  assert (Hp : player (openTeleporter w) = player w) by (rewrite Heq; reflexivity).
  assert (Hw : waypoints (buildingHandler (openTeleporter w))
               = waypoints (buildingHandler w)) by (rewrite Heq; reflexivity).
  rewrite (teleporter_entry answer i wp w Hcl Hwp).
  rewrite (teleport_purchase answer i wp (openTeleporter w))
    by (rewrite ?Hw, ?Hp; assumption).
  unfold showMessage, closeUI, pay. proj. proj. proj.
  cbn [Player.x Player.y targetPos money tile set_money set_targetPos set_y set_x
       price].
  rewrite ?Hp. repeat (split; [reflexivity|]).
  unfold closed, isOpen. proj.
  cbn [overlays currentUI set_messages set_currentUI set_overlays].
  proj. rewrite Hov. split; reflexivity.
Qed.

Lemma teleport_entry_leads_to_its_waypoint_witness :
  let wp := {| name := "Home"; BuildingHandler.x := 100; BuildingHandler.y := 350 |} in
  let w := onHandler (set_waypoints [wp]) Example.start in
  let w' := step (Click None 0 1) (openTeleporter w) in
  Player.x (player w') = 100
  /\ Player.y (player w') = 350
  /\ targetPos (player w') = {| px := 100; py := 350 |}
  /\ money (player w') = money (player w) - 50
  /\ tile (player w') = tile (player w)
  /\ closed w'.
Proof.
  apply (teleport_entry_leads_to_its_waypoint None 0
           {| name := "Home"; BuildingHandler.x := 100; BuildingHandler.y := 350 |}).
  - split; vm_compute; reflexivity.
  - vm_compute. reflexivity.
  - vm_compute. congruence.
Defined.

(** X22.  Marking a place and coming back: "Add Current Location" costs 100
    coins, appends the player's position under the name typed (or
    "Waypoint n") and closes the menu; in any later world with the same
    waypoints, the entry listed for it brings the player back to that
    position. *)
Theorem waypoint_round_trip answer w :
  closed w ->
  100 <= money (player w) ->
  let n := length (waypoints (buildingHandler w)) in
  let w1 := step (Click answer 0 0) (openTeleporter w) in
  waypoints (buildingHandler w1)
  = waypoints (buildingHandler w)
    ++ [ {| name := waypointName answer n;
            BuildingHandler.x := Player.x (player w);
            BuildingHandler.y := Player.y (player w) |} ]
  /\ money (player w1) = money (player w) - 100
  /\ closed w1
  /\ forall answer' w2,
       closed w2 ->
       waypoints (buildingHandler w2) = waypoints (buildingHandler w1) ->
       50 <= money (player w2) ->
       let w3 := step (Click answer' 0 (S n)) (openTeleporter w2) in
       Player.x (player w3) = Player.x (player w)
       /\ Player.y (player w3) = Player.y (player w).
Proof.
  intros Hcl Hm. cbn zeta.
  destruct (openTeleporter_closed w Hcl) as [Heq Hov].
  assert (Hp : player (openTeleporter w) = player w) by (rewrite Heq; reflexivity).
  assert (Hw : waypoints (buildingHandler (openTeleporter w))
               = waypoints (buildingHandler w)) by (rewrite Heq; reflexivity).
  assert (H1 : step (Click answer 0 0) (openTeleporter w)
               = handlePurchase answer
                   {| price := 100; id := add_waypoint; highlight := false |}
                   (openTeleporter w)).
  { cbn [step]. rewrite Hov. reflexivity. }
  rewrite H1. unfold handlePurchase. cbn [price id]. rewrite ?Hp, ?Hw.
  apply ltb_false in Hm. rewrite Hm.
  unfold closed, isOpen, showMessage, closeUI, pay. proj. proj. proj. proj.
  cbn [waypoints money overlays currentUI set_messages set_money set_currentUI
       set_overlays set_waypoints price].
  rewrite ?Hp, ?Hw, ?Hov.
  split; [reflexivity|]. split; [reflexivity|]. split; [split; reflexivity|].
  intros answer' w2 Hcl2 Hw2 Hm2. cbn zeta.
  set (wp := {| name := waypointName answer (length (waypoints (buildingHandler w)));
                BuildingHandler.x := Player.x (player w);
                BuildingHandler.y := Player.y (player w) |}) in *.
  assert (Hwp : waypoints (buildingHandler w2)
                  !! length (waypoints (buildingHandler w)) = Some wp).
  { rewrite Hw2. apply list_lookup_middle. reflexivity. }
  destruct (openTeleporter_closed w2 Hcl2) as [Heq2 _].
  assert (Hp2 : player (openTeleporter w2) = player w2) by (rewrite Heq2; reflexivity).
  assert (Hww : waypoints (buildingHandler (openTeleporter w2))
                = waypoints (buildingHandler w2)) by (rewrite Heq2; reflexivity).
  rewrite (teleporter_entry answer' _ wp w2 Hcl2 Hwp).
  rewrite (teleport_purchase answer' _ wp (openTeleporter w2))
    by (rewrite ?Hww, ?Hp2; assumption).
  split; reflexivity.
Qed.

Lemma waypoint_round_trip_witness :
  let w := Example.start in
  let w1 := step (Click None 0 0) (openTeleporter w) in
  waypoints (buildingHandler w1)
  = waypoints (buildingHandler w)
    ++ [ {| name := waypointName None 0;
            BuildingHandler.x := Player.x (player w);
            BuildingHandler.y := Player.y (player w) |} ]
  /\ money (player w1) = money (player w) - 100
  /\ closed w1
  /\ forall answer' w2,
       closed w2 ->
       waypoints (buildingHandler w2) = waypoints (buildingHandler w1) ->
       50 <= money (player w2) ->
       let w3 := step (Click answer' 0 1) (openTeleporter w2) in
       Player.x (player w3) = Player.x (player w)
       /\ Player.y (player w3) = Player.y (player w).
Proof.
  apply (waypoint_round_trip None Example.start).
  - split; vm_compute; reflexivity.
  - vm_compute. congruence.
Defined.

(** *** The fuel station *)



End MenuFacts.

(** ** The full tank at the fuel station *)

Module LockoutFacts.
Import Game Player BuildingHandler BuildingHandlerMethods PlayerMethods
  Frame JSFacts Session Lock LockFacts Menu MenuFacts.




End LockoutFacts.

(** ** More on saving and restoring *)

Module StorageFacts.
Import Game Player JSFacts Session Storage SavingFacts.

(** X24.  Save, play on, reload: whatever happened in between, as long as
    the storage still holds the record, the reload puts the player back at
    the saved position (target and grid tile included) with the saved cargo,
    capacity, waypoints and tank, and with the saved money, fuel, [maxFuel]
    and speed multiplier when they were not 0; the map is the one of the
    moment of the reload, not of the save. *)
Theorem reload_after_playing_on now w w2 :
  localStorage w2 = localStorage (snd (SaveHandler.saveGame now w)) ->
  let w' := SaveHandler.restore w2 in
  x (player w') = x (player w) /\ y (player w') = y (player w)
  /\ targetPos (player w') = {| px := x (player w); py := y (player w) |}
  /\ tile (player w')
     = Grid.getTilePositionFromPixelPosition (grid w2) (x (player w)) (y (player w))
  /\ PlayerHold.mapTiles (hold (player w')) = PlayerHold.mapTiles (hold (player w))
  /\ BuildingHandler.waypoints (buildingHandler w')
     = BuildingHandler.waypoints (buildingHandler w)
  /\ tank (player w') == tank (player w)
  /\ (~ money (player w) == 0 -> money (player w') = money (player w))
  /\ (~ fuel (player w) == 0 -> fuel (player w') == fuel (player w))
  /\ (~ maxFuel (player w) == 0 -> maxFuel (player w') = maxFuel (player w))
  /\ (~ speedMultiplier (player w) == 0 ->
        speedMultiplier (player w') = speedMultiplier (player w))
  /\ (~ PlayerHold.capacity (hold (player w)) == 0 ->
        PlayerHold.capacity (hold (player w'))
        = PlayerHold.capacity (hold (player w)))
  /\ map w' = map w2.
Proof.
  intros Hls. cbn zeta.
  unfold SaveHandler.restore, SaveHandler.loadGame. rewrite Hls.
  unfold SaveHandler.saveGame. cbn -[JS.orDefault JS.truthy].
  destruct (JS.truthy (PlayerHold.capacity (hold (player w)))) eqn:Ec;
    cbn -[JS.orDefault JS.truthy].
  all: repeat (split; [try reflexivity; try apply orDefault_zero;
                       try (intros H; rewrite orDefault_nonzero by exact H;
                            reflexivity || ring)|]).
  all: try reflexivity.
  intros H. unfold JS.truthy in Ec. apply negb_false_iff in Ec.
  apply Qeq_bool_iff in Ec. contradiction.
Qed.

Lemma reload_after_playing_on_witness :
  let w := Example.start in
  let w2 := steps [Tick Example.pressRight] (snd (SaveHandler.saveGame 0 w)) in
  let w' := SaveHandler.restore w2 in
  x (player w') = x (player w) /\ y (player w') = y (player w)
  /\ targetPos (player w') = {| px := x (player w); py := y (player w) |}
  /\ tile (player w')
     = Grid.getTilePositionFromPixelPosition (grid w2) (x (player w)) (y (player w))
  /\ PlayerHold.mapTiles (hold (player w')) = PlayerHold.mapTiles (hold (player w))
  /\ BuildingHandler.waypoints (buildingHandler w')
     = BuildingHandler.waypoints (buildingHandler w)
  /\ tank (player w') == tank (player w)
  /\ (~ money (player w) == 0 -> money (player w') = money (player w))
  /\ (~ fuel (player w) == 0 -> fuel (player w') == fuel (player w))
  /\ (~ maxFuel (player w) == 0 -> maxFuel (player w') = maxFuel (player w))
  /\ (~ speedMultiplier (player w) == 0 ->
        speedMultiplier (player w') = speedMultiplier (player w))
  /\ (~ PlayerHold.capacity (hold (player w)) == 0 ->
        PlayerHold.capacity (hold (player w'))
        = PlayerHold.capacity (hold (player w)))
  /\ map w' = map w2.
Proof.
  apply (reload_after_playing_on 0 Example.start).
  vm_compute. reflexivity.
Defined.

(** X25.  The save station overwrites a good save with a record the save
    handler refuses: after a visit, [hasSaveFile] still answers yes, but
    [loadGame] and [autoLoad] find nothing and a reload changes nothing. *)
Theorem save_station_spoils_the_save now now' w :
  let w1 := snd (SaveHandler.saveGame now w) in
  let w2 := BuildingHandlerMethods.handleBuildingInteraction now'
              MapTile.SAVE_STATION w1 in
  (exists sd, SaveHandler.loadGame w1 = Some sd /\ autoLoad w1 = Some sd)
  /\ hasSaveFile w2 = true
  /\ SaveHandler.loadGame w2 = None
  /\ autoLoad w2 = None
  /\ SaveHandler.restore w2 = w2.
Proof.
  cbn zeta. split; [eexists; split; reflexivity|].
  repeat split.
Qed.

(** X26.  A restore that fails is not undone: on a record with player data
    but no world data, [applySaveData] answers [false], yet the player's
    money, tank, position and cargo have already been overwritten from the
    record. *)
Theorem failed_restore_is_not_undone sd pd w :
  SaveData.player sd = Some pd ->
  SaveData.world sd = None ->
  let r := SaveHandler.applySaveData sd w in
  fst r = false
  /\ money (player (snd r)) = JS.orDefault (SaveData.money pd) 300
  /\ tank (player (snd r)) = JS.orDefault (SaveData.tank pd) 0
  /\ (forall pos, SaveData.position pd = Some pos ->
        x (player (snd r)) = px pos /\ y (player (snd r)) = py pos)
  /\ (forall c, SaveData.cargo pd = Some c ->
        PlayerHold.mapTiles (hold (player (snd r))) = c).
Proof.
  intros Hp Hw. cbn zeta. unfold SaveHandler.applySaveData. rewrite Hp, Hw.
  cbn -[JS.orDefault JS.truthy].
  destruct (SaveData.position pd) as [pos|], (SaveData.cargo pd) as [c|],
    (SaveData.cargoCapacity pd) as [cc|]; try destruct (JS.truthy cc);
    cbn -[JS.orDefault JS.truthy];
    (split; [reflexivity|]); (split; [reflexivity|]); (split; [reflexivity|]);
    split; intros ? [= <-]; auto.
Qed.

Lemma failed_restore_is_not_undone_witness :
  let pd := {| SaveData.money := Some 5; SaveData.fuel := None;
               SaveData.maxFuel := None; SaveData.tank := None;
               SaveData.position := Some {| px := 100; py := 350 |};
               SaveData.speedMultiplier := None;
               SaveData.cargo := Some []; SaveData.cargoCapacity := None |} in
  let sd := {| SaveData.version := Some "1.0.0"%string; SaveData.timestamp := 0;
               SaveData.player := Some pd; SaveData.world := None |} in
  let r := SaveHandler.applySaveData sd Example.start in
  fst r = false
  /\ money (player (snd r)) = JS.orDefault (SaveData.money pd) 300
  /\ tank (player (snd r)) = JS.orDefault (SaveData.tank pd) 0
  /\ (forall pos, SaveData.position pd = Some pos ->
        x (player (snd r)) = px pos /\ y (player (snd r)) = py pos)
  /\ (forall c, SaveData.cargo pd = Some c ->
        PlayerHold.mapTiles (hold (player (snd r))) = c).
Proof.
  cbn zeta.
  apply (failed_restore_is_not_undone
           {| SaveData.version := Some "1.0.0"%string; SaveData.timestamp := 0;
              SaveData.player := Some _; SaveData.world := None |}).
  - reflexivity.
  - reflexivity.
Defined.

(** X27.  The seed a record carries is never read back: records that
    differ in the seed only restore to the same world, and no restore
    touches the map, the event log or the pending timers. *)
Theorem restore_ignores_the_seed s sd w :
  SaveHandler.applySaveData (withSeed s sd) w = SaveHandler.applySaveData sd w
  /\ map (snd (SaveHandler.applySaveData sd w)) = map w
  /\ dispatched (snd (SaveHandler.applySaveData sd w)) = dispatched w
  /\ timers (snd (SaveHandler.applySaveData sd w)) = timers w.
Proof.
  split.
  - unfold SaveHandler.applySaveData, withSeed. cbn [SaveData.player SaveData.world].
    destruct (SaveData.player sd) as [pd|]; [|reflexivity].
    destruct (SaveData.world sd) as [[sd_seed wps]|]; reflexivity.
  - unfold SaveHandler.applySaveData.
    destruct (SaveData.player sd) as [pd|]; [|auto].
    destruct (SaveData.position pd), (SaveData.cargo pd),
      (SaveData.cargoCapacity pd) as [c|]; try destruct (JS.truthy c);
      destruct (SaveData.world sd) as [wd|]; try (repeat split; reflexivity);
      destruct (SaveData.waypoints wd); repeat split; reflexivity.
Qed.

End StorageFacts.

(** ** The floating texts *)

Module FloatingTextFacts.
Import JSFacts FloatingTexts.

Lemma visit_last delta pre t post :
  visit delta (length pre) (pre ++ t :: post)
  = pre ++ (if visible (drift delta t) then [drift delta t] else []) ++ post.
Proof.
  unfold visit, visible.
  rewrite list_lookup_middle by reflexivity.
  destruct (JS.leb _ _); cbn [negb].
  - rewrite delete_middle. reflexivity.
  - rewrite insert_app_r_alt by lia. rewrite Nat.sub_diag. reflexivity.
Qed.

Lemma loop_spec delta pre : forall post,
  loop delta (length pre) (pre ++ post)
  = List.filter visible (List.map (drift delta) pre) ++ post.
Proof.
  induction pre as [|t pre IH] using rev_ind; intros post; [reflexivity|].
  rewrite length_app. cbn [length]. rewrite Nat.add_1_r. cbn [loop].
  rewrite <- app_assoc. cbn [app]. rewrite visit_last, IH.
  rewrite List.map_app, List.filter_app. cbn [List.map List.filter].
  rewrite <- app_assoc. destruct (visible _); reflexivity.
Qed.

(** X28.  The backward loop of [DisplayHandler.tick] skips no text although
    it splices while it iterates: every text drifts up by
    [100 * delta / 1000] and loses 0.005 of alpha, exactly the texts whose
    alpha is then at most 0.05 are removed, and the others keep their
    order. *)
Theorem tick_fades_every_text delta l :
  tick delta l = List.filter visible (List.map (drift delta) l)
  /\ Forall (fun t => 0.05 < alpha t) (tick delta l)
  /\ (length (tick delta l) <= length l)%nat.
Proof.
  assert (H : tick delta l = List.filter visible (List.map (drift delta) l)).
  { unfold tick. rewrite <- (app_nil_r l) at 2. rewrite loop_spec.
    apply app_nil_r. }
  split; [exact H|]. rewrite H. split.
  - apply Forall_forall. intros t Ht. apply list_elem_of_In in Ht.
    apply List.filter_In in Ht. destruct Ht as [_ Hv].
    unfold visible in Hv. apply negb_true_iff in Hv.
    unfold JS.leb in Hv. apply not_true_iff_false in Hv.
    rewrite Qle_bool_iff in Hv. lra.
  - etransitivity; [apply List.filter_length_le|]. rewrite length_map. lia.
Qed.

End FloatingTextFacts.
